(** * pymux: client framing, pane processes, focus movement and commands

    A shallow embedding of the parts of pymux that talk to the operating
    system and to the attached terminal:

    - [client]   : [pymux/client.py], the receive loop of [Client.attach] and
                   the packet handler [Client._process];
    - [process]  : [pymux/process.py], [Process.write_input],
                   [Process.send_signal], the [done] callback of
                   [Process._waitpid] and the child side of
                   [Process.from_command];
    - [layout]   : [pymux/layout.py], [PaneContainer.mouse_handler] and the
                   directional focus functions built on [_move_focus];
    - [commands] : [pymux/commands/commands.py], [call_command_handler] and
                   the [select-layout] command.

    Python exceptions are values of [outcome]; system calls are recorded in
    a trace; the answers of the operating system are oracles. *)

From Stdlib Require Import String Ascii.
From Stdlib Require Import List ZArith Bool Lia Arith.
From Stdlib Require Import Init.Byte DecimalString.
From Equations Require Import Equations.
From Equations.Prop Require Import Logic.
Import ListNotations.

Set Implicit Arguments.

Local Open Scope Z_scope.

(* ===================================================================== *)
(** * Part I: the embedding                                               *)
(* ===================================================================== *)

(** ** Python values shared by the modules *)

Module Py.

(** A Python step either returns or raises. *)
Inductive exn : Type :=
| KeyError
| IndexError
| TypeError
| OSError (errno : Z)
| ValueError
| AttributeError
| CommandException (message : string)
| OtherException.

Inductive outcome (A : Type) : Type :=
| Ok (a : A)
| Raise (e : exn).
Arguments Ok {A} a.
Arguments Raise {A} e.

Definition bind {A B} (m : outcome A) (k : A -> outcome B) : outcome B :=
  match m with
  | Ok a => k a
  | Raise e => Raise e
  end.

(** [bytes] objects. *)
Definition bytes := list byte.

(** [unicode] objects: sequences of code points.  A text of Python holds
    code points of [range(0x110000)]. *)
Definition unicode := list Z.

Definition ord (a : ascii) : Z := Z.of_N (N_of_ascii a).

(** A text literal whose characters are all printable ASCII. *)
Definition u (s : string) : unicode := List.map ord (list_ascii_of_string s).

Definition ESC : Z := 27.

Definition byte_of_Z (z : Z) : byte :=
  match Byte.of_N (Z.to_N (z mod 256)) with
  | Some b => b
  | None => x00
  end.

(** [unichr(c).encode('utf-8')] *)
Definition utf8_encode_char (c : Z) : bytes :=
  if c <? 128 then
    [byte_of_Z c]
  else if c <? 2048 then
    [byte_of_Z (Z.lor 192 (Z.shiftr c 6));
     byte_of_Z (Z.lor 128 (Z.land c 63))]
  else if c <? 65536 then
    [byte_of_Z (Z.lor 224 (Z.shiftr c 12));
     byte_of_Z (Z.lor 128 (Z.land (Z.shiftr c 6) 63));
     byte_of_Z (Z.lor 128 (Z.land c 63))]
  else
    [byte_of_Z (Z.lor 240 (Z.shiftr c 18));
     byte_of_Z (Z.lor 128 (Z.land (Z.shiftr c 12) 63));
     byte_of_Z (Z.lor 128 (Z.land (Z.shiftr c 6) 63));
     byte_of_Z (Z.lor 128 (Z.land c 63))].

(** The bytes of [data.encode('utf-8')] when it returns. *)
Definition encode_utf8 (data : unicode) : bytes :=
  flat_map utf8_encode_char data.

(** The surrogates U+D800 to U+DFFF, which UTF-8 has no bytes for. *)
Definition is_surrogate (c : Z) : bool := (55296 <=? c) && (c <=? 57343).

(** [data.encode('utf-8')] under Python 3, where a text may hold a
    surrogate and encoding one raises [UnicodeEncodeError], a
    [ValueError]. *)
Definition encode (data : unicode) : outcome bytes :=
  if existsb is_surrogate data then Raise ValueError
  else Ok (encode_utf8 data).

(** ['%s' % n] for an integer [n]. *)
Definition str_of_Z (n : Z) : unicode :=
  match n with
  | Z0 => u "0"
  | Zpos p => u (NilEmpty.string_of_uint (Pos.to_uint p))
  | Zneg p => u "-" ++ u (NilEmpty.string_of_uint (Pos.to_uint p))
  end.

End Py.

Import Py.

(** ** [pymux/client.py] *)

Module client.

Definition NUL : byte := x00.

(** [data_buffer.index(b'\0')], with [None] when [b'\0' in data_buffer]
    is false. *)
Fixpoint index (data_buffer : bytes) : option nat :=
  match data_buffer with
  | [] => None
  | b :: rest =>
      if Byte.eqb b NUL then Some 0%nat else option_map S (index rest)
  end.

Lemma index_lt (data_buffer : bytes) (pos : nat) :
  index data_buffer = Some pos -> (pos < List.length data_buffer)%nat.
Proof.
  revert pos; induction data_buffer as [|b rest IH]; simpl; intros pos H.
  - discriminate.
  - destruct (Byte.eqb b NUL).
    + injection H as <-. lia.
    + destruct (index rest) as [q|]; simpl in H; [|discriminate].
      injection H as <-. specialize (IH q eq_refl). lia.
Qed.

(** A packet body has no NUL byte: [json.dumps] escapes control
    characters, so no encoded record contains one. *)
Definition nul_free (p : bytes) : Prop := ~ In NUL p.

Section ReceiveLoop.

(** The state the packet handler acts on, and the handler itself:
    [handler s packet] is [self._process(packet)] run in state [s]. *)
Variable St : Type.
Variable handler : St -> bytes -> outcome St.

(** [self._process_stdin()] and the terminal reset done at end of
    file. *)
Variable process_stdin : St -> outcome St.
Variable reset_terminal : St -> St.

(** The inner loop of [attach]:
<<
    while b'\0' in data_buffer:
        pos = data_buffer.index(b'\0')
        self._process(data_buffer[:pos])
        data_buffer = data_buffer[pos + 1:]
>>
*)
Equations? drain (s : St) (data_buffer : bytes) : outcome (St * bytes)
  by wf (List.length data_buffer) lt :=
  drain s data_buffer with inspect (index data_buffer) => {
    | exist _ None _ => Ok (s, data_buffer);
    | exist _ (Some pos) E with handler s (firstn pos data_buffer) => {
        | Raise e => Raise e;
        | Ok s' => drain s' (skipn (S pos) data_buffer) } }.
Proof.
  apply index_lt in E.
  change (List.length (skipn (S pos) data_buffer)
          < List.length data_buffer)%nat.
  rewrite List.length_skipn. lia.
Qed.

(** What [select] reports in one turn of the outer loop. *)
Inductive readable : Type :=
| SocketReadable (data : bytes)   (* [self.socket.recv(1024)] *)
| StdinReadable.

(** Where [attach] stands after a run of [select] results. *)
Inductive attach_state : Type :=
| Waiting (s : St) (data_buffer : bytes)   (* blocked in [_select] *)
| Returned (s : St)                        (* connection closed *)
| Raised (e : exn).

(** The [while True] loop of [attach]. *)
Fixpoint attach_loop (s : St) (data_buffer : bytes) (rs : list readable)
  : attach_state :=
  match rs with
  | [] => Waiting s data_buffer
  | SocketReadable data :: rs' =>
      match data with
      | [] => Returned (reset_terminal s)
      | _ :: _ =>
          match drain s (data_buffer ++ data) with
          | Ok (s', data_buffer') => attach_loop s' data_buffer' rs'
          | Raise e => Raised e
          end
      end
  | StdinReadable :: rs' =>
      match process_stdin s with
      | Ok s' => attach_loop s' data_buffer rs'
      | Raise e => Raised e
      end
  end.

(** The handler applied to a sequence of packets, one call each. *)
Fixpoint deliver (s : St) (packets : list bytes) : outcome St :=
  match packets with
  | [] => Ok s
  | p :: ps => bind (handler s p) (fun s' => deliver s' ps)
  end.

(** [data + b'\0'] of [_send_packet], for a sequence of packets. *)
Definition wire (packets : list bytes) : bytes :=
  concat (List.map (fun p => p ++ [NUL]) packets).

End ReceiveLoop.

(** *** The packet handler *)

Section Handler.

(** Attributes of the controlling terminal (what [termios.tcgetattr]
    returns), and what prompt_toolkit's [raw_mode] and [cooked_mode]
    turn them into. *)
Variable termios : Type.
Variable raw_attrs cooked_attrs : termios -> termios.

Inductive mode : Type := raw_mode | cooked_mode.

(** A [raw_mode(fd)] or [cooked_mode(fd)] object after [__enter__]:
    it remembers the attributes it found. *)
Record context_manager : Type :=
  { cm_mode : mode; attrs_before : termios }.

Definition apply_mode (m : mode) (t : termios) : termios :=
  match m with
  | raw_mode => raw_attrs t
  | cooked_mode => cooked_attrs t
  end.

(** [cm = m(sys.stdin.fileno()); cm.__enter__()] *)
Definition __enter__ (m : mode) (t : termios) : context_manager * termios :=
  ({| cm_mode := m; attrs_before := t |}, apply_mode m t).

(** [cm.__exit__()] *)
Definition __exit__ (cm : context_manager) (t : termios) : termios :=
  attrs_before cm.

(** [l.pop()] on a non-empty list: the list without its last element,
    and that element. *)
Definition pop (A : Type) (l : list A) : option (list A * A) :=
  match rev l with
  | [] => None
  | x :: r => Some (rev r, x)
  end.

(** A decoded packet: [packet['cmd']] and [packet['data']]. *)
Record packet : Type := { cmd : string; data : string }.

(** [json.loads(data_buffer.decode('utf-8'))]; it raises on input that
    is not UTF-8 encoded JSON. *)
Variable json_loads : bytes -> outcome packet.

Record Client : Type :=
  { _mode_context_managers : list context_manager;
    tty : termios;                (* attributes of [sys.stdin] *)
    stdout : list string;         (* texts written to [sys.stdout] *)
    sigtstp : nat }.              (* SIGTSTP signals sent to itself *)

(** The body of [_process] after decoding. *)
Definition _process_packet (self : Client) (p : packet) : Client :=
  if String.eqb (cmd p) "out" then
    {| _mode_context_managers := _mode_context_managers self;
       tty := tty self;
       stdout := stdout self ++ [data p];
       sigtstp := sigtstp self |}
  else if String.eqb (cmd p) "suspend" then
    {| _mode_context_managers := _mode_context_managers self;
       tty := tty self;
       stdout := stdout self;
       sigtstp := S (sigtstp self) |}
  else if String.eqb (cmd p) "mode" then
    let action := data p in
    if String.eqb action "raw" then
      let (cm, t) := __enter__ raw_mode (tty self) in
      {| _mode_context_managers := _mode_context_managers self ++ [cm];
         tty := t;
         stdout := stdout self;
         sigtstp := sigtstp self |}
    else if String.eqb action "cooked" then
      let (cm, t) := __enter__ cooked_mode (tty self) in
      {| _mode_context_managers := _mode_context_managers self ++ [cm];
         tty := t;
         stdout := stdout self;
         sigtstp := sigtstp self |}
    else if String.eqb action "restore" then
      match pop (_mode_context_managers self) with
      | Some (rest, cm) =>
          {| _mode_context_managers := rest;
             tty := __exit__ cm (tty self);
             stdout := stdout self;
             sigtstp := sigtstp self |}
      | None => self
      end
    else self
  else self.

Definition _process (self : Client) (data_buffer : bytes) : outcome Client :=
  bind (json_loads data_buffer) (fun p => Ok (_process_packet self p)).

End Handler.

End client.

(** ** [pymux/process.py] *)

Module process.

Definition fd := Z.

(** The calls on the operating system and the event loop that the
    modelled methods make. *)
Inductive syscall : Type :=
| os_write (master : fd) (data : bytes)
| os_close (master : fd)
| remove_reader (master : fd)
| os_kill (pid : Z) (signal : Z).

(** The flags of [self.screen] that this file reads. *)
Record BetterScreen : Type :=
  { bracketed_paste_enabled : bool;
    sgr_mouse_support_enabled : bool;
    urxvt_mouse_support_enabled : bool;
    mouse_support_enabled : bool }.

Record Process : Type :=
  { pid : option Z;
    is_terminated : bool;
    master : option fd;
    screen : BetterScreen }.

(** *** [write_input] *)

Definition paste_start : unicode := ESC :: u "[200~".
Definition paste_end : unicode := ESC :: u "[201~".

(** The value of [data] after the bracketed-paste test. *)
Definition paste_wrap (self : Process) (data : unicode) (paste : bool)
  : unicode :=
  if paste && bracketed_paste_enabled (screen self)
  then paste_start ++ data ++ paste_end
  else data.

(** What [os.write] does on one call: it returns the number of bytes
    written, or raises [OSError] with an errno. *)
Inductive write_answer : Type :=
| Written (n : nat)
| Failed (errno : Z).

(** The [while self.master is not None] loop.  [os k] is the answer to the
    [k]-th call of [os.write].  The result is how the loop ends, [None]
    when it is still running after [fuel] turns, and the system calls made
    so far.  The argument [data.encode('utf-8')] is evaluated inside the
    [try] before [os.write] is called; what it raises is no [OSError] and
    leaves the method. *)
Fixpoint write_loop (fuel : nat) (os : nat -> write_answer) (k : nat)
    (m : option fd) (data : unicode) : option (outcome unit) * list syscall :=
  match m with
  | None => (Some (Ok tt), [])
  | Some f =>
      match fuel with
      | O => (None, [])
      | S fuel' =>
          match encode data with
          | Raise e => (Some (Raise e), [])
          | Ok encoded =>
              match os k with
              | Written _ => (Some (Ok tt), [os_write f encoded])
              | Failed errno =>
                  if errno =? 4 then
                    let (r, calls) := write_loop fuel' os (S k) m data in
                    (r, os_write f encoded :: calls)
                  else (Some (Ok tt), [os_write f encoded])
              end
          end
      end
  end.

Definition write_input (fuel : nat) (os : nat -> write_answer)
    (self : Process) (data : unicode) (paste : bool)
  : option (outcome unit) * list syscall :=
  write_loop fuel os 0 (master self) (paste_wrap self data paste).

(** *** The [done] callback of [_waitpid] *)

(** [done] runs on the main thread once [os.waitpid] has returned.  The
    call of [self.done_callback()] that ends it belongs to the owner of
    the process and is left out. *)

Definition done (self : Process) : outcome (Process * list syscall) :=
  match master self with
  | None => Raise TypeError          (* [os.close(None)] *)
  | Some f =>
      Ok ({| pid := pid self;
             is_terminated := true;
             master := None;
             screen := screen self |},
          [os_close f; remove_reader f])
  end.

(** *** [send_signal] *)

(** Truth value of [self.pid]: [None] and [0] are false. *)
Definition pid_is_true (p : option Z) : bool :=
  match p with
  | None => false
  | Some n => negb (n =? 0)
  end.

(** What [os.kill] does if it is called: [None] when it returns, an errno
    when it raises [OSError]. *)
Definition kill_outcome (kill_answer : option Z) : outcome unit :=
  match kill_answer with
  | None => Ok tt
  | Some errno => Raise (OSError errno)
  end.

Definition send_signal (kill_answer : option Z) (self : Process)
    (signal : Z) : outcome unit * list syscall :=
  if pid_is_true (pid self) && negb (is_terminated self) then
    match pid self with
    | Some n => (kill_outcome kill_answer, [os_kill n signal])
    | None => (Ok tt, [])
    end
  else (Ok tt, []).

(** Who receives the signal of [os.kill(pid, sig)], as kill(2) defines
    it. *)
Inductive recipient : Type :=
| the_process (pid : Z)
| the_process_group (pgid : Z)
| the_callers_group
| every_process.

Definition kill_recipient (pid : Z) : recipient :=
  if 0 <? pid then the_process pid
  else if pid =? 0 then the_callers_group
  else if pid =? -1 then every_process
  else the_process_group (- pid).

Definition recipients (calls : list syscall) : list (recipient * Z) :=
  flat_map (fun c => match c with
                     | os_kill p s => [(kill_recipient p, s)]
                     | _ => []
                     end) calls.

(** *** The child: [from_command] and [_in_child] *)

(** [s.split(sep)] for a one-character separator. *)
Fixpoint split (sep : ascii) (s : string) : list string :=
  match s with
  | EmptyString => [EmptyString]
  | String c rest =>
      if Ascii.eqb c sep then EmptyString :: split sep rest
      else match split sep rest with
           | [] => [String c EmptyString]
           | w :: ws => String c w :: ws
           end
  end.

Definition startswith_slash (s : string) : bool :=
  match s with
  | String c _ => Ascii.eqb c "/"
  | EmptyString => false
  end.

Fixpoint endswith_slash (s : string) : bool :=
  match s with
  | EmptyString => false
  | String c EmptyString => Ascii.eqb c "/"
  | String _ rest => endswith_slash rest
  end.

(** [os.path.join(a, b)] of posixpath. *)
Definition os_path_join (a b : string) : string :=
  if startswith_slash b then b
  else if String.eqb a "" || endswith_slash a then (a ++ b)%string
  else (a ++ "/" ++ b)%string.

(** What the file system answers about a path: [os.path.exists],
    [os.access(path, os.X_OK)], and the errno [os.execv] raises with when
    it cannot replace the process image ([None] when it can). *)
Record file_status : Type :=
  { os_path_exists : bool;
    os_access_X_OK : bool;
    os_execv_errno : option Z }.

Record child_world : Type :=
  { PATH : option string;                   (* [os.environ['PATH']] *)
    file : string -> file_status;
    before_exec_func : option (outcome unit) }.  (* its result, if given *)

(** How a call made in the child ends: the process image is replaced
    (a successful [os.execv] does not return), or the call returns or
    raises. *)
Inductive exec_result : Type :=
| Replaced (path : string) (argv : list string)
| Finished (r : outcome unit).

(** The [for p in ...] loop of the closure [execv]. *)
Fixpoint execv_search (w : child_world) (command : list string)
    (dirs : list string) : exec_result :=
  match dirs with
  | [] => Finished (Ok tt)
  | p :: dirs' =>
      match command with
      | [] => Finished (Raise IndexError)         (* [command[0]] *)
      | c0 :: _ =>
          let path := os_path_join p c0 in
          if os_path_exists (file w path) && os_access_X_OK (file w path)
          then match os_execv_errno (file w path) with
               | None => Replaced path command
               | Some errno => Finished (Raise (OSError errno))
               end
          else execv_search w command dirs'
      end
  end.

(** The closure [execv] that [from_command] passes as [exec_func]. *)
Definition execv (w : child_world) (command : list string) : exec_result :=
  match before_exec_func w with
  | Some (Raise e) => Finished (Raise e)
  | _ =>
      match PATH w with
      | None => Finished (Raise KeyError)
      | Some path => execv_search w command (split ":" path)
      end
  end.

(** How the forked child ends. *)
Inductive child_end : Type :=
| runs_image (path : string) (argv : list string)
| os__exit (status : Z).

(** The [try: ... except Exception: ... os._exit(1)] block of
    [_in_child] and the [os._exit(0)] after it, for the result of
    [self.exec_func()].  What precedes the block (closing the master,
    taking the slave as controlling terminal and as descriptors 0 to 2)
    and [_close_file_descriptors] are taken to return. *)
Definition _in_child (exec_func : exec_result) : child_end :=
  match exec_func with
  | Replaced path argv => runs_image path argv
  | Finished (Raise _) => os__exit 1
  | Finished (Ok _) => os__exit 0
  end.

(** The child of a process made by [from_command]. *)
Definition from_command_child (w : child_world) (command : list string)
  : child_end :=
  _in_child (execv w command).

(** *** Histories of calls on one [Process] *)

(** The calls the event loop makes on a process, each with the answers
    the operating system gives during it. *)
Inductive call : Type :=
| call_write_input (fuel : nat) (os : nat -> write_answer)
                   (data : unicode) (paste : bool)
| call_done
| call_send_signal (kill_answer : option Z) (signal : Z).

(** The system calls of a history, in order.  A call that raises leaves the
    process as it was; after a [write_input] that does not return nothing
    else runs on the thread. *)
Fixpoint run (self : Process) (cs : list call) : list syscall :=
  match cs with
  | [] => []
  | call_write_input fuel os data paste :: cs' =>
      match write_input fuel os self data paste with
      | (Some _, calls) => calls ++ run self cs'
      | (None, calls) => calls
      end
  | call_done :: cs' =>
      match done self with
      | Ok (self', calls) => calls ++ run self' cs'
      | Raise _ => run self cs'
      end
  | call_send_signal kill_answer signal :: cs' =>
      snd (send_signal kill_answer self signal) ++ run self cs'
  end.

Definition is_os_write (c : syscall) : bool :=
  match c with os_write _ _ => true | _ => false end.

Definition is_os_close (c : syscall) : bool :=
  match c with os_close _ => true | _ => false end.

End process.

(** ** [pymux/layout.py] *)

Module layout.

Import process.

(** *** [PaneContainer.mouse_handler] *)

Inductive MouseEventTypes : Type :=
| MOUSE_DOWN | MOUSE_UP | SCROLL_UP | SCROLL_DOWN.

Record MouseEvent : Type :=
  { position_x : Z; position_y : Z; event_type : MouseEventTypes }.

(** The table of the SGR branch. *)
Definition sgr_table (t : MouseEventTypes) : unicode * unicode :=
  match t with
  | MOUSE_DOWN => (u "0", u "M")
  | MOUSE_UP => (u "0", u "m")
  | SCROLL_UP => (u "64", u "M")
  | SCROLL_DOWN => (u "65", u "M")
  end.

(** The table shared by the urxvt and the legacy branch. *)
Definition ev_table (t : MouseEventTypes) : Z :=
  match t with
  | MOUSE_DOWN => 32
  | MOUSE_UP => 35
  | SCROLL_UP => 96
  | SCROLL_DOWN => 97
  end.

(** [six.unichr(c)]: one character, [ValueError] outside the code
    space. *)
Definition unichr (c : Z) : outcome unicode :=
  if (0 <=? c) && (c <? 1114112) then Ok [c] else Raise ValueError.

(** What the handler does besides returning. *)
Inductive mouse_action : Type :=
| set_active_pane                      (* [active_window.active_pane = self.pane] *)
| call_write_input (data : unicode)    (* [self.process.write_input(data)] *)
| no_action.

(** [mouse_handler]; [has_focus] is the value of [self.has_focus(cli)]. *)
Definition mouse_handler (has_focus : bool) (scr : BetterScreen)
    (mouse_event : MouseEvent) : outcome mouse_action :=
  let x := position_x mouse_event in
  let y := position_y mouse_event in
  if negb has_focus then Ok set_active_pane
  else if sgr_mouse_support_enabled scr then
    let (ev, m) := sgr_table (event_type mouse_event) in
    Ok (call_write_input
          (ESC :: u "[<" ++ ev ++ u ";" ++ str_of_Z (x + 1) ++ u ";"
               ++ str_of_Z (y + 1) ++ m))
  else if urxvt_mouse_support_enabled scr then
    let ev := ev_table (event_type mouse_event) in
    Ok (call_write_input
          (ESC :: u "[" ++ str_of_Z ev ++ u ";" ++ str_of_Z (x + 1) ++ u ";"
               ++ str_of_Z (y + 1) ++ u "M"))
  else if mouse_support_enabled scr then
    if (x <? 96) && (y <? 96) then
      let ev := ev_table (event_type mouse_event) in
      bind (unichr ev) (fun cev =>
      bind (unichr (x + 33)) (fun cx =>
      bind (unichr (y + 33)) (fun cy =>
      Ok (call_write_input (ESC :: u "[M" ++ cev ++ cx ++ cy)))))
    else Ok no_action
  else Ok no_action.

(** The system calls of a mouse event on the pane of process [p]: the
    handler, then [write_input] (with [paste=False]) when it is called. *)
Definition mouse_event_calls (fuel : nat) (os : nat -> write_answer)
    (has_focus : bool) (p : Process) (mouse_event : MouseEvent)
  : option (outcome unit) * list syscall :=
  match mouse_handler has_focus (screen p) mouse_event with
  | Raise e => (Some (Raise e), [])
  | Ok (call_write_input data) => write_input fuel os p data false
  | Ok _ => (Some (Ok tt), [])
  end.

(** *** Focus movement *)

Record WritePosition : Type :=
  { xpos : Z; ypos : Z; width : Z; height : Z }.

(** Panes are compared by identity. *)
Definition Pane := nat.

(** The dict [pane_write_positions], as its items in iteration order. *)
Definition write_positions := list (Pane * WritePosition).

(** [d[k]] *)
Fixpoint getitem (d : write_positions) (k : Pane) : outcome WritePosition :=
  match d with
  | [] => Raise KeyError
  | (pane, wp) :: d' => if Nat.eqb pane k then Ok wp else getitem d' k
  end.

(** [d[k] = wp] *)
Fixpoint setitem (d : write_positions) (k : Pane) (wp : WritePosition)
  : write_positions :=
  match d with
  | [] => [(k, wp)]
  | (pane, wp') :: d' =>
      if Nat.eqb pane k then (pane, wp) :: d'
      else (pane, wp') :: setitem d' k wp
  end.

(** The active window: its active pane and the panes of its tree. *)
Record Window : Type :=
  { active_pane : Pane; panes : list Pane }.

Record Pymux : Type :=
  { active_window : Window;                   (* [arrangement.active_window] *)
    pane_write_positions : write_positions }. (* of [layout_manager] *)

(** [window.active_pane = pane] *)
Definition set_active_pane_of (pymux : Pymux) (pane : Pane) : Pymux :=
  {| active_window :=
       {| active_pane := pane; panes := panes (active_window pymux) |};
     pane_write_positions := pane_write_positions pymux |}.

(** The test of the loop of [_move_focus]. *)
Definition contains (wp : WritePosition) (x y : Z) : bool :=
  ((xpos wp <=? x) && (x <? xpos wp + width wp))
  && ((ypos wp <=? y) && (y <? ypos wp + height wp)).

(** The loop of [_move_focus]: the first item whose box has the point. *)
Fixpoint pane_at (d : write_positions) (x y : Z) : option Pane :=
  match d with
  | [] => None
  | (pane, wp) :: d' => if contains wp x y then Some pane else pane_at d' x y
  end.

Definition _move_focus (pymux : Pymux)
    (get_x get_y : WritePosition -> Z) : outcome Pymux :=
  let window := active_window pymux in
  bind (getitem (pane_write_positions pymux) (active_pane window))
    (fun write_pos =>
       let x := get_x write_pos in
       let y := get_y write_pos in
       match pane_at (pane_write_positions pymux) x y with
       | Some pane => Ok (set_active_pane_of pymux pane)
       | None => Ok pymux
       end).

Definition focus_left (pymux : Pymux) : outcome Pymux :=
  _move_focus pymux (fun wp => xpos wp - 2) (fun wp => ypos wp).

Definition focus_right (pymux : Pymux) : outcome Pymux :=
  _move_focus pymux (fun wp => xpos wp + width wp + 1) (fun wp => ypos wp).

Definition focus_down (pymux : Pymux) : outcome Pymux :=
  _move_focus pymux (fun wp => xpos wp) (fun wp => ypos wp + height wp + 1).

Definition focus_up (pymux : Pymux) : outcome Pymux :=
  _move_focus pymux (fun wp => xpos wp) (fun wp => ypos wp - 1).

Inductive direction : Type := Left | Right | Up | Down.

Definition move_focus (d : direction) (pymux : Pymux) : outcome Pymux :=
  match d with
  | Left => focus_left pymux
  | Right => focus_right pymux
  | Up => focus_up pymux
  | Down => focus_down pymux
  end.

(** The probe point of each direction, from the box of the active pane. *)
Definition probe (d : direction) (wp : WritePosition) : Z * Z :=
  match d with
  | Left => (xpos wp - 2, ypos wp)
  | Right => (xpos wp + width wp + 1, ypos wp)
  | Up => (xpos wp, ypos wp - 1)
  | Down => (xpos wp, ypos wp + height wp + 1)
  end.

(** The state [LayoutManager.__init__] and the start of every render pass
    leave the geometry in: [self.pane_write_positions = {}]. *)
Definition no_write_positions : write_positions := [].

(** The guarded lookup of [HighlightBorders.write_to_screen]:
<<
      try:
          pane_wp = self.layout_manager.pane_write_positions[active_pane]
      except KeyError:
          pass
      else:
          self._highlight_active_pane(screen, pane_wp, write_position)
>>
    [Some wp] when the highlight is drawn for [wp]. *)
Definition highlight_lookup (pymux : Pymux) : outcome (option WritePosition) :=
  match getitem (pane_write_positions pymux)
                (active_pane (active_window pymux)) with
  | Ok pane_wp => Ok (Some pane_wp)
  | Raise KeyError => Ok None
  | Raise e => Raise e
  end.

End layout.

(** ** [pymux/commands/commands.py] *)

Module commands.

Section Commands.

(** [LayoutTypes._ALL] of [pymux.arrangement]. *)
Variable LayoutTypes_ALL : list string.

(** The windows of [pymux.arrangement] and [Window.select_layout]. *)
Variable Window : Type.
Variable Window_select_layout : Window -> string -> Window.

Record Pymux : Type :=
  { get_active_window : option Window;   (* [arrangement.get_active_window(cli)] *)
    message : option string }.

(** Modelled from the spec: [Pymux.show_message] is not among the
    sources; the spec has it surface a transient status message, and
    [MessageToolbar] of [layout.py] displays [pymux.message]. *)
Definition show_message (pymux : Pymux) (msg : string) : Pymux :=
  {| get_active_window := get_active_window pymux;
     message := Some msg |}.

(** The variables docopt returns: [variables[key]]. *)
Definition variables := string -> option string.

(** [docopt.docopt(doc, parameters, help=False)]: [None] when it exits
    with [SystemExit]. *)
Variable docopt : string -> list string -> option variables.

(** A handler returns the state it leaves and how it ended. *)
Definition result : Type := Pymux * outcome unit.
Definition handler : Type := Pymux -> list string -> result.

Definition nl : string := String (ascii_of_nat 10) EmptyString.

(** The [command_wrapper] that the decorator [cmd(name, options)]
    registers for [func]. *)
Definition command_wrapper (name options : string)
    (func : Pymux -> variables -> result) : handler :=
  fun pymux parameters =>
    match docopt ("Usage:" ++ nl ++ "    " ++ name ++ " " ++ options)%string
                 parameters with
    | None =>
        (pymux,
         Raise (CommandException ("Usage: " ++ name ++ " " ++ options)%string))
    | Some received_options => func pymux received_options
    end.

(** [layout_type in LayoutTypes._ALL] *)
Definition in_ALL (layout_type : string) : bool :=
  existsb (String.eqb layout_type) LayoutTypes_ALL.

Definition select_layout (pymux : Pymux) (vars : variables) : result :=
  match vars "<layout-type>"%string with
  | None => (pymux, Raise KeyError)
  | Some layout_type =>
      if in_ALL layout_type then
        match get_active_window pymux with
        | Some w =>
            ({| get_active_window := Some (Window_select_layout w layout_type);
                message := message pymux |}, Ok tt)
        | None => (pymux, Raise AttributeError)
        end
      else (pymux, Raise (CommandException "Invalid layout type."))
  end.

(** The handlers registered by the other [@cmd] decorators. *)
Variable other_handlers : string -> option handler.

(** The dict [COMMANDS_TO_HANDLERS] once the module is loaded. *)
Definition COMMANDS_TO_HANDLERS (command : string) : option handler :=
  if String.eqb command "select-layout"
  then Some (command_wrapper "select-layout" "<layout-type>" select_layout)
  else other_handlers command.

Definition call_command_handler (command : string) (pymux : Pymux)
    (parameters : list string) : result :=
  match COMMANDS_TO_HANDLERS command with
  | None =>
      (show_message pymux ("Invalid command: " ++ command)%string, Ok tt)
  | Some h =>
      match h pymux parameters with
      | (pymux', Raise (CommandException msg)) =>
          (show_message pymux' msg, Ok tt)
      | r => r
      end
  end.

End Commands.

End commands.

(** ** Vocabulary of the statements, and sample inputs *)

(** The handler that only records the packets it is given. *)
Definition record_packet (log : list bytes) (p : bytes) : outcome (list bytes) :=
  Ok (log ++ [p]).

(** The decoded packet [{'cmd': 'mode', 'data': action}]. *)
Definition mode_packet (action : string) : client.packet :=
  {| client.cmd := "mode"; client.data := action |}.

(** A pane with an open master whose screen has bracketed paste on. *)
Definition pasting_process : process.Process :=
  {| process.pid := Some 4321;
     process.is_terminated := false;
     process.master := Some 5;
     process.screen :=
       {| process.bracketed_paste_enabled := true;
          process.sgr_mouse_support_enabled := false;
          process.urxvt_mouse_support_enabled := false;
          process.mouse_support_enabled := false |} |}.

(** The first two writes are interrupted, the third goes through. *)
Definition interrupted_twice (k : nat) : process.write_answer :=
  if (k <? 2)%nat then process.Failed 4 else process.Written 0.

(** [os.write] succeeds at once. *)
Definition write_succeeds (k : nat) : process.write_answer :=
  process.Written 0.

(** The process of [pasting_process] after [done] has run. *)
Definition reaped_process : process.Process :=
  match process.done pasting_process with
  | Ok (self', _) => self'
  | Raise _ => pasting_process
  end.

(** The reading of the specification that has the signal go to the process group
    of the child. *)
Definition signal_goes_to_group (kill_answer : option Z)
    (self : process.Process) (signal : Z) : Prop :=
  forall n,
    process.pid self = Some n -> 0 < n ->
    process.is_terminated self = false ->
    process.recipients (snd (process.send_signal kill_answer self signal)) =
    [(process.the_process_group n, signal)].

(** A text of one code point, the surrogate U+D800, as [json.loads] gives
    for the six characters backslash, u, d, 8, 0, 0 between quotes. *)
Definition lone_surrogate : unicode := [55296].

(** The reading of the specification that has every payload written: on an open
    master, once [os.write] is no longer interrupted, [write_input] has
    returned without raising and each of its writes carried the same
    bytes. *)
Definition every_payload_is_written (self : process.Process)
    (data : unicode) (paste : bool) : Prop :=
  forall (f : process.fd) (os : nat -> process.write_answer) (n fuel : nat),
    process.master self = Some f ->
    (forall j, (j < n)%nat -> os j = process.Failed 4) ->
    os n <> process.Failed 4 ->
    (n < fuel)%nat ->
    exists encoded,
      process.write_input fuel os self data paste =
      (Some (Ok tt), repeat (process.os_write f encoded) (S n)).

(** A world in which no file exists. *)
Definition empty_world : process.child_world :=
  {| process.PATH := Some "/usr/bin:/bin"%string;
     process.file := fun _ =>
       {| process.os_path_exists := false;
          process.os_access_X_OK := false;
          process.os_execv_errno := Some 2 |};
     process.before_exec_func := None |}.

(** A geometry that still holds the box of a pane, 7, that is not among
    the panes 0 and 1 of the active window. *)
Definition stale_geometry : layout.Pymux :=
  {| layout.active_window :=
       {| layout.active_pane := 0%nat; layout.panes := [0%nat; 1%nat] |};
     layout.pane_write_positions :=
       [(0%nat, {| layout.xpos := 0; layout.ypos := 0;
                   layout.width := 40; layout.height := 24 |});
        (7%nat, {| layout.xpos := 41; layout.ypos := 0;
                   layout.width := 39; layout.height := 24 |})] |}.

(** Only the legacy reporting on. *)
Definition legacy_only (scr : process.BetterScreen) : Prop :=
  process.sgr_mouse_support_enabled scr = false /\
  process.urxvt_mouse_support_enabled scr = false /\
  process.mouse_support_enabled scr = true.

(** A focused pane whose process asked for the legacy mouse reporting
    only. *)
Definition legacy_mouse_process : process.Process :=
  {| process.pid := Some 4321;
     process.is_terminated := false;
     process.master := Some 5;
     process.screen :=
       {| process.bracketed_paste_enabled := false;
          process.sgr_mouse_support_enabled := false;
          process.urxvt_mouse_support_enabled := false;
          process.mouse_support_enabled := true |} |}.

(** The usage text docopt is given for [select-layout]. *)
Definition select_layout_usage : string :=
  ("Usage:" ++ commands.nl ++ "    select-layout <layout-type>")%string.

(** Five layout names, a window that is its layout name, and a docopt
    that takes exactly one positional argument. *)
Definition sample_layouts : list string :=
  ["even-horizontal"; "even-vertical"; "main-horizontal"; "main-vertical";
   "tiled"]%string.

Definition one_argument (doc : string) (parameters : list string)
  : option commands.variables :=
  match parameters with
  | [a] => Some (fun key => if String.eqb key "<layout-type>"
                            then Some a else None)
  | _ => None
  end.

Definition sample_pymux : commands.Pymux string :=
  {| commands.get_active_window := Some "tiled"%string;
     commands.message := None |}.

(** ** [pymux/client.py], the sending side *)

Module client_send.

(** The values the client hands to [json.dumps].  A dict is the list of
    its items in iteration order; its keys are texts. *)
#[warnings="-register-all"]
Inductive value : Type :=
| Null
| Bool (b : bool)
| Int (n : Z)
| Str (s : unicode)
| List (l : list value)
| Dict (items : list (unicode * value)).

Definition hexdigit (d : Z) : Z := if d <? 10 then 48 + d else 87 + d.

(** ['{0:04x}'.format(n)] for [n] below 65536. *)
Definition hex4 (n : Z) : unicode :=
  [hexdigit ((n / 4096) mod 16); hexdigit ((n / 256) mod 16);
   hexdigit ((n / 16) mod 16); hexdigit (n mod 16)].

(** What [json.dumps] (with [ensure_ascii], its default) writes for one
    character of a text: the short escapes, the character itself when it
    is between space and tilde, and [\uXXXX] for the rest, a surrogate
    pair above the basic plane. *)
Definition escape_char (c : Z) : unicode :=
  if c =? 34 then [92; 34]
  else if c =? 92 then [92; 92]
  else if c =? 8 then [92; 98]
  else if c =? 12 then [92; 102]
  else if c =? 10 then [92; 110]
  else if c =? 13 then [92; 114]
  else if c =? 9 then [92; 116]
  else if (32 <=? c) && (c <=? 126) then [c]
  else if c <? 65536 then 92 :: 117 :: hex4 c
  else
    let n := c - 65536 in
    (92 :: 117 :: hex4 (Z.lor 55296 (Z.land (Z.shiftr n 10) 1023)))
    ++ (92 :: 117 :: hex4 (Z.lor 56320 (Z.land n 1023))).

Definition dumps_str (s : unicode) : unicode :=
  [34] ++ flat_map escape_char s ++ [34].

(** [json.dumps(v)] with the default separators [', '] and [': ']. *)
Fixpoint dumps (v : value) : unicode :=
  match v with
  | Null => u "null"
  | Bool true => u "true"
  | Bool false => u "false"
  | Int n => str_of_Z n
  | Str s => dumps_str s
  | List l =>
      let fix elements (l : list value) : unicode :=
        match l with
        | [] => []
        | [x] => dumps x
        | x :: l' => dumps x ++ u ", " ++ elements l'
        end in
      u "[" ++ elements l ++ u "]"
  | Dict items =>
      let fix members (items : list (unicode * value)) : unicode :=
        match items with
        | [] => []
        | [(k, x)] => dumps_str k ++ u ": " ++ dumps x
        | (k, x) :: items' =>
            dumps_str k ++ u ": " ++ dumps x ++ u ", " ++ members items'
        end in
      u "{" ++ members items ++ u "}"
  end.

(** [_send_packet]: the bytes given to [self.socket.send].  The text of
    [json.dumps] is ASCII, so its encoding does not raise. *)
Definition _send_packet (data : value) : bytes :=
  encode_utf8 (dumps data) ++ [client.NUL].

(** The packets of [run_command], [attach], [_process_stdin] and
    [_send_size], as the dicts the source builds. *)
Definition run_command_packet (command : unicode) (pane_id : value) : value :=
  Dict [(u "cmd", Str (u "run-command"));
        (u "data", Str command);
        (u "pane_id", pane_id)].

Definition start_gui_packet (detach_other_clients : bool) : value :=
  Dict [(u "cmd", Str (u "start-gui"));
        (u "detach-others", Bool detach_other_clients);
        (u "data", Str [])].

Definition stdin_packet (data : unicode) : value :=
  Dict [(u "cmd", Str (u "in")); (u "data", Str data)].

Definition size_packet (rows cols : Z) : value :=
  Dict [(u "cmd", Str (u "size")); (u "data", List [Int rows; Int cols])].

(** What the client does that sends. *)
Inductive send : Type :=
| run_command (command : unicode) (pane_id : option Z)
| attach_start (rows cols : Z) (detach_other_clients : bool)
| _process_stdin (data : unicode)
| _send_size (rows cols : Z).

Definition pane_id_value (pane_id : option Z) : value :=
  match pane_id with
  | None => Null
  | Some n => Int n
  end.

(** The packets of one step, in the order they are sent: [attach] sends
    the size and then the start-gui packet. *)
Definition packets_of (s : send) : list value :=
  match s with
  | run_command command pane_id =>
      [run_command_packet command (pane_id_value pane_id)]
  | attach_start rows cols detach =>
      [size_packet rows cols; start_gui_packet detach]
  | _process_stdin data => [stdin_packet data]
  | _send_size rows cols => [size_packet rows cols]
  end.

(** The bytes a run of steps puts on the socket. *)
Definition sent (steps : list send) : bytes :=
  concat (List.map _send_packet (flat_map packets_of steps)).

(** Between space and tilde. *)
Definition printable (c : Z) : Prop := 32 <= c <= 126.

(** The bodies a run of ['out'] packets and of mode changes is processed
    as: the handler applied in order. *)
Definition process_packets (termios : Type)
    (raw_attrs cooked_attrs : termios -> termios)
    (self : client.Client termios) (ps : list client.packet)
  : client.Client termios :=
  fold_left (client._process_packet raw_attrs cooked_attrs) ps self.

Definition mode_name (m : client.mode) : string :=
  match m with
  | client.raw_mode => "raw"
  | client.cooked_mode => "cooked"
  end.

(** The client after texts have been written to its terminal. *)
Definition wrote (termios : Type) (self : client.Client termios)
    (texts : list string) : client.Client termios :=
  {| client._mode_context_managers := client._mode_context_managers self;
     client.tty := client.tty self;
     client.stdout := client.stdout self ++ texts;
     client.sigtstp := client.sigtstp self |}.

End client_send.

(** ** [pymux/process.py], the other methods *)

Module process_more.

Import process.

(** *** Methods guarded by [self.master is not None] *)

(** What a method does to the world: a call of the first part, or one of
    the calls of [set_size], [get_name] and [connect_reader]. *)
Inductive effect : Type :=
| sys (c : syscall)
| set_terminal_size (master : fd) (a b : Z)   (* [set_terminal_size(fd, a, b)] *)
| screen_resize (lines columns : Z)           (* [self.screen.resize(...)] *)
| os_tcgetpgrp (master : fd)                  (* in [get_name_for_fd] *)
| add_reader (master : fd).                   (* in [connect_reader] *)

(** [set_size(width, height)] *)
Definition set_size (self : Process) (width height : Z) : list effect :=
  match master self with
  | Some f => [set_terminal_size f height width; screen_resize height width]
  | None => [screen_resize height width]
  end.

(** [get_name()], on Linux: [get_name_for_fd] starts with
    [os.tcgetpgrp(fd)]. *)
Definition get_name (self : Process) : list effect :=
  match master self with
  | Some f => [os_tcgetpgrp f]
  | None => []
  end.

(** [connect_reader()] of [_process_pty_output]. *)
Definition connect_reader (self : Process) : list effect :=
  match master self with
  | Some f => [add_reader f]
  | None => []
  end.

(** The methods the event loop may call on a process. *)
Inductive method : Type :=
| m_write_input (fuel : nat) (os : nat -> write_answer)
                (data : unicode) (paste : bool)
| m_done
| m_send_signal (kill_answer : option Z) (signal : Z)
| m_set_size (width height : Z)
| m_get_name
| m_connect_reader.

(** The effects of a history of method calls, in order; as in [run], a
    call that raises leaves the process as it was and a [write_input]
    that does not return ends the history. *)
Fixpoint run_methods (self : Process) (ms : list method) : list effect :=
  match ms with
  | [] => []
  | m_write_input fuel os data paste :: ms' =>
      match write_input fuel os self data paste with
      | (Some _, calls) => List.map sys calls ++ run_methods self ms'
      | (None, calls) => List.map sys calls
      end
  | m_done :: ms' =>
      match done self with
      | Ok (self', calls) => List.map sys calls ++ run_methods self' ms'
      | Raise _ => run_methods self ms'
      end
  | m_send_signal kill_answer signal :: ms' =>
      List.map sys (snd (send_signal kill_answer self signal))
      ++ run_methods self ms'
  | m_set_size width height :: ms' =>
      set_size self width height ++ run_methods self ms'
  | m_get_name :: ms' => get_name self ++ run_methods self ms'
  | m_connect_reader :: ms' => connect_reader self ++ run_methods self ms'
  end.

(** An effect that uses a descriptor of the pty or signals the child. *)
Definition touches_child (e : effect) : bool :=
  match e with
  | sys (os_write _ _) | sys (os_close _) | sys (os_kill _ _) => true
  | set_terminal_size _ _ _ | os_tcgetpgrp _ | add_reader _ => true
  | sys (remove_reader _) | screen_resize _ _ => false
  end.

(** The state [done] leaves. *)
Definition reaped (self : Process) : Prop :=
  master self = None /\ is_terminated self = true.

(** An [os.close]. *)
Definition is_close (e : effect) : bool :=
  match e with
  | sys (os_close _) => true
  | _ => false
  end.

(** *** The PATH search of [from_command] *)

(** The test of the loop of [execv] on one candidate. *)
Definition usable (w : child_world) (path : string) : bool :=
  os_path_exists (file w path) && os_access_X_OK (file w path).

(** What running the candidate [path] gives. *)
Definition try_execv (w : child_world) (path : string)
    (command : list string) : exec_result :=
  match os_execv_errno (file w path) with
  | None => Replaced path command
  | Some errno => Finished (Raise (OSError errno))
  end.

Definition has_colon (s : string) : bool :=
  existsb (Ascii.eqb ":") (list_ascii_of_string s).

(** *** [create_copy_document] *)

Section CopyDocument.

(** The tokens of pygments, and [Token] itself. *)
Variable TokenType : Type.
Variable Token : TokenType.

(** A [Char] of prompt_toolkit's screen. *)
Record Char : Type :=
  { char : unicode; token : TokenType; width : Z }.

(** [Screen.data_buffer]: a defaultdict of rows, each a defaultdict of
    cells; both as the list of their items.  Reading a missing row gives
    an empty row, reading a missing cell the default [Char]:
    [Background.create_screen] and [PaneWindow.write_to_screen] of
    [layout.py] read rows and cells they never stored. *)
Definition Row := list (Z * Char).
Definition DataBuffer := list (Z * Row).

Variable default_char : Char.

Fixpoint lookup (A : Type) (d : list (Z * A)) (k : Z) : option A :=
  match d with
  | [] => None
  | (k', a) :: d' => if k' =? k then Some a else lookup d' k
  end.

(** [data_buffer[row_index]] *)
Definition getrow (data_buffer : DataBuffer) (row_index : Z) : Row :=
  match lookup data_buffer row_index with
  | Some row => row
  | None => []
  end.

(** [row[x]] *)
Definition getcell (row : Row) (x : Z) : Char :=
  match lookup row x with
  | Some c => c
  | None => default_char
  end.

(** [min(keys)] and [max(keys)]; both raise [ValueError] when there is no
    key. *)
Definition min_key (keys : list Z) : outcome Z :=
  match keys with
  | [] => Raise ValueError
  | k :: ks => Ok (fold_left Z.min ks k)
  end.

Definition max_key (keys : list Z) : outcome Z :=
  match keys with
  | [] => Raise ValueError
  | k :: ks => Ok (fold_left Z.max ks k)
  end.

(** [range(a, b)] *)
Definition range (a b : Z) : list Z :=
  List.map (fun i => a + Z.of_nat i) (seq 0 (Z.to_nat (b - a))).

(** The loop [for x in char_iter]: the cells it appends.  After a cell of
    width 2 it calls [next(char_iter)], which skips the next column, or
    raises [StopIteration] (here [OtherException]) when there is none. *)
Fixpoint walk_row (row : Row) (columns : list Z) : outcome (list Char) :=
  match columns with
  | [] => Ok []
  | x :: rest =>
      let c := getcell row x in
      if width c =? 2 then
        match rest with
        | [] => Raise OtherException
        | _ :: rest' => bind (walk_row row rest') (fun cs => Ok (c :: cs))
        end
      else bind (walk_row row rest) (fun cs => Ok (c :: cs))
  end.

Definition newline : unicode := [10].

(** The loop over the rows: [text] and [token_list] after it. *)
Fixpoint walk_rows (data_buffer : DataBuffer) (row_indexes : list Z)
    (text : list unicode) (token_list : list (TokenType * unicode))
  : outcome (list unicode * list (TokenType * unicode)) :=
  match row_indexes with
  | [] => Ok (text, token_list)
  | row_index :: rest =>
      let row := getrow data_buffer row_index in
      bind (max_key (List.map fst row)) (fun max_column =>
      bind (walk_row row (range 0 (max_column + 1))) (fun cs =>
      walk_rows data_buffer rest
        (text ++ List.map char cs ++ [newline])
        (token_list ++ List.map (fun c => (token c, char c)) cs
                    ++ [(Token, newline)])))
  end.

(** [create_copy_document]: the text of the document (the [''.join(text)]
    given to [Document]) and the token list.  The cursor position, which
    [Document.translate_row_col_to_index] computes, is left out. *)
Definition create_copy_document (data_buffer : DataBuffer)
  : outcome (unicode * list (TokenType * unicode)) :=
  bind (min_key (List.map fst data_buffer)) (fun first_row =>
  bind (max_key (List.map fst data_buffer)) (fun last_row =>
  bind (walk_rows data_buffer (range first_row (last_row + 1)) [] [])
    (fun r =>
       let (text, token_list) := r in
       Ok (concat (removelast text), removelast token_list)))).

(** The text of one row: its cells from column 0 to its last column, the
    cell after each cell of width 2 left out. *)
Fixpoint row_cells (row : Row) (columns : list Z) : list Char :=
  match columns with
  | [] => []
  | x :: rest =>
      let c := getcell row x in
      if width c =? 2 then
        match rest with
        | [] => [c]
        | _ :: rest' => c :: row_cells row rest'
        end
      else c :: row_cells row rest
  end.

(** [sep.join(parts)] *)
Fixpoint join (sep : unicode) (parts : list unicode) : unicode :=
  match parts with
  | [] => []
  | [p] => p
  | p :: ps => p ++ sep ++ join sep ps
  end.

(** The text of the row at [row_index]. *)
Definition row_text (data_buffer : DataBuffer) (row_index : Z) : unicode :=
  let row := getrow data_buffer row_index in
  match max_key (List.map fst row) with
  | Ok max_column =>
      concat (List.map char (row_cells row (range 0 (max_column + 1))))
  | Raise _ => []
  end.

(** A row on which the loop over the cells cannot finish: it has no cell,
    or the loop raises on it. *)
Definition bad_row (data_buffer : DataBuffer) (row_index : Z) : Prop :=
  let row := getrow data_buffer row_index in
  match max_key (List.map fst row) with
  | Ok max_column =>
      exists e, walk_row row (range 0 (max_column + 1)) = Raise e
  | Raise _ => True
  end.

End CopyDocument.

End process_more.

(** A world with an executable [/bin/ls] and a [/usr/bin/ls] that is not
    executable. *)
Definition ls_world : process.child_world :=
  {| process.PATH := Some "/usr/local/bin:/usr/bin:/bin"%string;
     process.file := fun path =>
       if String.eqb path "/bin/ls" then
         {| process.os_path_exists := true;
            process.os_access_X_OK := true;
            process.os_execv_errno := None |}
       else if String.eqb path "/usr/bin/ls" then
         {| process.os_path_exists := true;
            process.os_access_X_OK := false;
            process.os_execv_errno := Some 13 |}
       else
         {| process.os_path_exists := false;
            process.os_access_X_OK := false;
            process.os_execv_errno := Some 2 |};
     process.before_exec_func := None |}.

(** Cells for sample screens: a narrow and a wide one, with tokens
    numbered. *)
Definition narrow (c : Z) : process_more.Char nat :=
  {| process_more.char := [c]; process_more.token := 1%nat;
     process_more.width := 1 |}.

Definition wide (c : Z) : process_more.Char nat :=
  {| process_more.char := [c]; process_more.token := 1%nat;
     process_more.width := 2 |}.

(** Row 0 holds a wide character at column 0 and [A] at column 2, row 1
    holds [b]. *)
Definition two_rows : process_more.DataBuffer nat :=
  [(0, [(0, wide 20013); (2, narrow 65)]); (1, [(0, narrow 98)])].

(** Rows 0 and 2 were written, row 1 never was. *)
Definition blank_line_between : process_more.DataBuffer nat :=
  [(0, [(0, narrow 97)]); (2, [(0, narrow 98)])].

(** ** [pymux/layout.py], rendering and the layout tree *)

Module layout_more.

Import layout.

(** *** The geometry of a render pass *)

(** One render pass: [HighlightBorders.write_to_screen] clears
    [pane_write_positions], then each [TracePaneWritePosition] that is
    written stores the position of its pane. *)
Definition render_pass (written : list (Pane * WritePosition))
  : write_positions :=
  fold_left (fun d item => setitem d (fst item) (snd item)) written
            no_write_positions.

(** The last position written for a pane. *)
Fixpoint last_written (written : list (Pane * WritePosition)) (pane : Pane)
  : option WritePosition :=
  match written with
  | [] => None
  | (p, wp) :: rest =>
      match last_written rest pane with
      | Some wp' => Some wp'
      | None => if Nat.eqb p pane then Some wp else None
      end
  end.

(** The state after a render pass of a window. *)
Definition rendered (window : Window) (written : list (Pane * WritePosition))
  : Pymux :=
  {| active_window := window; pane_write_positions := render_pass written |}.

(** A focus move followed by another. *)
Definition then_move (r : outcome Pymux) (d : direction) : outcome Pymux :=
  bind r (move_focus d).

(** *** The split tree and the containers built for it *)

(** A split of [pymux.arrangement]: a pane, or an [HSplit] or [VSplit]
    (lists) of splits. *)
#[warnings="-register-all"]
Inductive split : Type :=
| A_Pane (pane : Pane)
| A_HSplit (items : list split)
| A_VSplit (items : list split).

(** The prompt_toolkit containers [_create_split] builds: splits, the
    traced container of a pane ([_create_container_for_process]) and the
    vertical line. *)
#[warnings="-register-all"]
Inductive container : Type :=
| C_HSplit (children : list container)
| C_VSplit (children : list container)
| C_TracePaneWritePosition (pane : Pane) (zoom : bool)
| C_vertical_line.

(** The containers of the items of a [VSplit], with the line the loop of
    [_create_split] appends after every item but the last. *)
Fixpoint with_lines (content : list container) : list container :=
  match content with
  | [] => []
  | [c] => [c]
  | c :: content' => c :: C_vertical_line :: with_lines content'
  end.

(** The body of the loop of [_create_split]: the container of one item. *)
Fixpoint create_item (item : split) : container :=
  match item with
  | A_Pane pane => C_TracePaneWritePosition pane false
  | A_HSplit items => C_HSplit (List.map create_item items)
  | A_VSplit items => C_VSplit (with_lines (List.map create_item items))
  end.

(** [_create_split(pymux, split)]; the assertion fails on a pane. *)
Definition _create_split (s : split) : outcome container :=
  match s with
  | A_Pane _ => Raise OtherException      (* AssertionError *)
  | _ => Ok (create_item s)
  end.

(** The content [LayoutManager.update] puts into the body. *)
Definition update (zoom : bool) (active : Pane) (root : split)
  : outcome container :=
  if zoom then Ok (C_TracePaneWritePosition active true)
  else _create_split root.

(** The panes of a split, left to right. *)
Fixpoint leaves (s : split) : list Pane :=
  match s with
  | A_Pane pane => [pane]
  | A_HSplit items => flat_map leaves items
  | A_VSplit items => flat_map leaves items
  end.

(** The panes whose position a container traces, in writing order. *)
Fixpoint traced (c : container) : list Pane :=
  match c with
  | C_HSplit children => flat_map traced children
  | C_VSplit children => flat_map traced children
  | C_TracePaneWritePosition pane _ => [pane]
  | C_vertical_line => []
  end.

(** The vertical lines of a container, and the places for them in a
    split: one between any two neighbours of a [VSplit]. *)
Fixpoint lines (c : container) : nat :=
  match c with
  | C_HSplit children => list_sum (List.map lines children)
  | C_VSplit children => list_sum (List.map lines children)
  | C_TracePaneWritePosition _ _ => 0
  | C_vertical_line => 1
  end.

Fixpoint gaps (s : split) : nat :=
  match s with
  | A_Pane _ => 0
  | A_HSplit items => list_sum (List.map gaps items)
  | A_VSplit items => list_sum (List.map gaps items) + (List.length items - 1)
  end.

(** A container laid out as a split is.  A pane is laid out as its traced
    container, not zoomed.  An [HSplit] is laid out as an [HSplit] whose
    children are its items laid out, in order, and nothing else.  A
    [VSplit] is laid out as a [VSplit] whose children at the places 0, 2,
    4, ... are its items laid out, in order, and whose children at the
    places 1, 3, ... are vertical lines; the children end with the last
    item. *)
#[warnings="-register-all"]
Inductive laid_out : split -> container -> Prop :=
| laid_out_pane (pane : Pane) :
    laid_out (A_Pane pane) (C_TracePaneWritePosition pane false)
| laid_out_hsplit (items : list split) (children : list container) :
    Forall2 laid_out items children ->
    laid_out (A_HSplit items) (C_HSplit children)
| laid_out_vsplit (items : list split) (cs children : list container) :
    Forall2 laid_out items cs ->
    List.length children = (2 * List.length items - 1)%nat ->
    (forall i, (i < List.length items)%nat ->
               nth_error children (2 * i) = nth_error cs i) ->
    (forall i, (i + 1 < List.length items)%nat ->
               nth_error children (2 * i + 1) = Some C_vertical_line) ->
    laid_out (A_VSplit items) (C_VSplit children).

(** *** The reverse-video pass of [PaneWindow.write_to_screen] *)

(** An element of a token tuple. *)
Inductive element : Type :=
| E_str (s : string)
| E_bool (b : bool)
| E_None.

(** Truth value of an element. *)
Definition truth (e : element) : bool :=
  match e with
  | E_str s => negb (String.eqb s "")
  | E_bool b => b
  | E_None => false
  end.

(** A [Char] of the screen: its character and its token, [None] or a
    tuple. *)
Record Char : Type := { char : unicode; token : option (list element) }.

(** [screen.data_buffer]: reading [data_buffer[y][x]] gives a [Char] for
    every [y] and [x]. *)
Definition data_buffer := Z -> Z -> Char.

(** [row[x] = c] in row [y]. *)
Definition setcell (b : data_buffer) (y x : Z) (c : Char) : data_buffer :=
  fun y' x' => if (y' =? y) && (x' =? x) then c else b y' x'.

(** [token[-1] = not token[-1]] *)
Fixpoint invert_last (t : list element) : list element :=
  match t with
  | [] => []
  | [e] => [E_bool (negb (truth e))]
  | e :: t' => e :: invert_last t'
  end.

Definition is_C (t : list element) : bool :=
  match t with
  | E_str s :: _ => String.eqb s "C"
  | _ => false
  end.

(** [x in xs] *)
Definition member (x : Z) (xs : list Z) : bool := existsb (Z.eqb x) xs.

Section ReverseVideo.

(** [DEFAULT_TOKEN] of [pymux.screen]. *)
Variable DEFAULT_TOKEN : list element.

(** [list(char.token or DEFAULT_TOKEN)] *)
Definition token_list (c : Char) : list element :=
  match token c with
  | None | Some [] => DEFAULT_TOKEN
  | Some t => t
  end.

(** The body of the inner loop: what [row[x]] is afterwards. *)
Definition reverse_cell (c : Char) : Char :=
  let t := token_list c in
  if is_C t then {| char := char c; token := Some (invert_last t) |} else c.

(** [range(a, a + n)] *)
Definition range (a n : Z) : list Z :=
  List.map (fun i => a + Z.of_nat i) (seq 0 (Z.to_nat n)).

(** The two loops over the write position, when the process has reverse
    video on for the whole screen. *)
Definition reverse_video (has_reverse_video : bool) (wp : WritePosition)
    (b : data_buffer) : data_buffer :=
  if has_reverse_video then
    fold_left
      (fun b y =>
         fold_left (fun b x => setcell b y x (reverse_cell (b y x)))
                   (range (xpos wp) (width wp)) b)
      (range (ypos wp) (height wp)) b
  else b.

(** A token on which the pass can be undone: a non-empty tuple that is
    not a ['C'] tuple, or a ['C'] tuple of at least two elements whose
    last one is a boolean. *)
Definition reversible (c : Char) : Prop :=
  exists t, token c = Some t /\ t <> [] /\
    (is_C t = true -> exists r b, t = r ++ [E_bool b] /\ r <> []).

End ReverseVideo.

End layout_more.

(** Two boxes as [_create_split] has a [VSplit] laid out: [b] to the right
    of [a], one column (the vertical line) between them. *)
Definition side_by_side (a b : layout.WritePosition) : Prop :=
  layout.ypos b = layout.ypos a /\
  layout.xpos b = layout.xpos a + layout.width a + 1 /\
  1 <= layout.width a /\ 1 <= layout.width b /\
  1 <= layout.height a /\ 1 <= layout.height b.

(** Two boxes as an [HSplit] is laid out: [b] right below [a], its title
    bar in its first row. *)
Definition stacked (a b : layout.WritePosition) : Prop :=
  layout.xpos b = layout.xpos a /\
  layout.ypos b = layout.ypos a + layout.height a /\
  1 <= layout.width a /\ 1 <= layout.width b /\
  1 <= layout.height a /\ 1 <= layout.height b.

(** A window with panes [pa] and [pb], [active] being the active one, and
    a geometry that holds their two boxes. *)
Definition two_panes (pa pb active : layout.Pane)
    (geometry : layout.write_positions) : layout.Pymux :=
  {| layout.active_window :=
       {| layout.active_pane := active; layout.panes := [pa; pb] |};
     layout.pane_write_positions := geometry |}.

(** The two orders a dict of two items can be iterated in. *)
Definition holds_both (geometry : layout.write_positions)
    (pa pb : layout.Pane) (a b : layout.WritePosition) : Prop :=
  geometry = [(pa, a); (pb, b)] \/ geometry = [(pb, b); (pa, a)].

(** Boxes of an 80 by 24 body: a left and a right half, and an upper and
    a lower half. *)
Definition left_half : layout.WritePosition :=
  {| layout.xpos := 0; layout.ypos := 0;
     layout.width := 40; layout.height := 24 |}.

Definition right_half : layout.WritePosition :=
  {| layout.xpos := 41; layout.ypos := 0;
     layout.width := 39; layout.height := 24 |}.

Definition upper_half : layout.WritePosition :=
  {| layout.xpos := 0; layout.ypos := 0;
     layout.width := 80; layout.height := 12 |}.

Definition lower_half : layout.WritePosition :=
  {| layout.xpos := 0; layout.ypos := 12;
     layout.width := 80; layout.height := 12 |}.

(** ** [pymux/commands/commands.py], the other commands *)

Module commands_more.

Import commands.

Section Handlers.

Variable LayoutTypes_ALL : list string.
Variable Window : Type.
Variable Window_select_layout : Window -> string -> Window.

(** The other methods of a window that the handlers call. *)
Variable select_next_layout select_previous_layout : Window -> Window.
Variable set_chosen_name : Window -> string -> Window.
Variable change_size_for_active_pane :
  Window -> forall (up right down left : Z), Window.

Variable docopt : string -> list string -> option variables.

(** [int(s)] on a non-empty text: [None] when it raises [ValueError]. *)
Variable py_int : string -> option Z.

Definition with_window (pymux : Pymux Window) (w : Window) : Pymux Window :=
  {| get_active_window := Some w; message := message pymux |}.

(** [next-layout] and [previous-layout]: guarded by [if pane:], which a
    window passes and [None] does not. *)
Definition next_layout (pymux : Pymux Window) (vars : variables)
  : result Window :=
  match get_active_window pymux with
  | Some pane => (with_window pymux (select_next_layout pane), Ok tt)
  | None => (pymux, Ok tt)
  end.

Definition previous_layout (pymux : Pymux Window) (vars : variables)
  : result Window :=
  match get_active_window pymux with
  | Some pane => (with_window pymux (select_previous_layout pane), Ok tt)
  | None => (pymux, Ok tt)
  end.

(** [rename-window]: the attribute is set on what [get_active_window]
    returns. *)
Definition rename_window (pymux : Pymux Window) (vars : variables)
  : result Window :=
  match vars "<name>"%string with
  | None => (pymux, Raise KeyError)
  | Some name =>
      match get_active_window pymux with
      | Some w => (with_window pymux (set_chosen_name w name), Ok tt)
      | None => (pymux, Raise AttributeError)
      end
  end.

(** [int(variables[key] or 0)]: an absent option (docopt gives [None])
    and the empty text count as 0. *)
Definition int_or_0 (vars : variables) (key : string) : option Z :=
  match vars key with
  | None => Some 0
  | Some s => if String.eqb s "" then Some 0 else py_int s
  end.

(** [resize-pane] *)
Definition resize_pane (pymux : Pymux Window) (vars : variables)
  : result Window :=
  match int_or_0 vars "<left>", int_or_0 vars "<right>",
        int_or_0 vars "<up>", int_or_0 vars "<down>" with
  | Some left_, Some right_, Some up_, Some down_ =>
      match get_active_window pymux with
      | Some w =>
          (with_window pymux
             (change_size_for_active_pane w up_ right_ down_ left_), Ok tt)
      | None => (pymux, Ok tt)
      end
  | _, _, _, _ => (pymux, Raise (CommandException "Expecting an integer."))
  end.

(** The entries of [COMMANDS_TO_HANDLERS] for these commands. *)
Definition window_handlers (command : string) : option (handler Window) :=
  if String.eqb command "next-layout" then
    Some (command_wrapper docopt "next-layout" "" next_layout)
  else if String.eqb command "previous-layout" then
    Some (command_wrapper docopt "previous-layout" "" previous_layout)
  else if String.eqb command "rename-window" then
    Some (command_wrapper docopt "rename-window" "<name>" rename_window)
  else if String.eqb command "resize-pane" then
    Some (command_wrapper docopt "resize-pane"
            "[(-L <left>)] [(-U <up>)] [(-D <down>)] [(-R <right>)]"
            resize_pane)
  else None.

(** [call_command_handler] with these entries and [select-layout]. *)
Definition call (command : string) (pymux : Pymux Window)
    (parameters : list string) : result Window :=
  call_command_handler LayoutTypes_ALL Window_select_layout docopt
    window_handlers command pymux parameters.

(** The text docopt is given for a command. *)
Definition usage_doc (name options : string) : string :=
  ("Usage:" ++ nl ++ "    " ++ name ++ " " ++ options)%string.

End Handlers.

(** *** [send-signal] *)

Section Signals.

Import process.

(** The numbers of the [signal] module. *)
Variable SIGKILL SIGTERM SIGUSR1 SIGUSR2 SIGHUP : Z.

(** [SIGNALS.get(name)] *)
Definition SIGNALS (name : string) : option Z :=
  if String.eqb name "kill" then Some SIGKILL
  else if String.eqb name "term" then Some SIGTERM
  else if String.eqb name "usr1" then Some SIGUSR1
  else if String.eqb name "usr2" then Some SIGUSR2
  else if String.eqb name "hup" then Some SIGHUP
  else None.

(** The handler of [send-signal]; [active] is the process of
    [get_active_pane(cli)], if there is a pane. *)
Definition send_signal_command (kill_answer : option Z)
    (active : option Process) (vars : variables)
  : outcome unit * list syscall :=
  match vars "<signal>"%string with
  | None => (Raise KeyError, [])
  | Some name =>
      match SIGNALS name with
      | Some value =>
          if value =? 0 then (Raise (CommandException "Invalid signal"), [])
          else match active with
               | Some p => send_signal kill_answer p value
               | None => (Raise AttributeError, [])
               end
      | None => (Raise (CommandException "Invalid signal"), [])
      end
  end.

Definition known_signal (name : string) : Prop :=
  In name ["kill"; "term"; "usr1"; "usr2"; "hup"]%string.

End Signals.

End commands_more.

(** A screen whose cells all carry the same ['C'] token. *)
Definition plain_screen : layout_more.data_buffer :=
  fun _ _ =>
    {| layout_more.char := [97];
       layout_more.token :=
         Some [layout_more.E_str "C"; layout_more.E_str "red";
               layout_more.E_bool false] |}.

(** A docopt that takes the parameters as the values of the keys given,
    in order, and rejects any other number of parameters. *)
Fixpoint bind_keys (keys : list string) (parameters : list string)
  : option commands.variables :=
  match keys, parameters with
  | [], [] => Some (fun _ => None)
  | k :: keys', p :: parameters' =>
      match bind_keys keys' parameters' with
      | Some vars =>
          Some (fun key => if String.eqb key k then Some p else vars key)
      | None => None
      end
  | _, _ => None
  end.

(** A docopt for the samples: one text after [select-layout] and
    [rename-window], four amounts after [resize-pane], nothing after the
    other commands. *)
Definition sample_docopt (doc : string) (parameters : list string)
  : option commands.variables :=
  if String.eqb doc (commands_more.usage_doc "select-layout" "<layout-type>")
  then bind_keys ["<layout-type>"%string] parameters
  else if String.eqb doc (commands_more.usage_doc "rename-window" "<name>")
  then bind_keys ["<name>"%string] parameters
  else if String.eqb doc
            (commands_more.usage_doc "resize-pane"
               "[(-L <left>)] [(-U <up>)] [(-D <down>)] [(-R <right>)]")
  then bind_keys ["<left>"; "<up>"; "<down>"; "<right>"]%string parameters
  else bind_keys [] parameters.

(** An [int] for the samples: it reads ["5"] and nothing else. *)
Definition sample_int (s : string) : option Z :=
  if String.eqb s "5" then Some 5 else None.

(** A session without a window. *)
Definition no_window : commands.Pymux string :=
  {| commands.get_active_window := None; commands.message := None |}.

(** ** [pymux/layout.py], the background *)

Module background.

Import layout_more.

(** [Token.Background] of pygments, a tuple of one name. *)
Definition Token_Background : list element := [E_str "Background"].

Definition default_char : Char :=
  {| char := [32]; token := Some Token_Background |}.

Definition dot : Char :=
  {| char := [46]; token := Some Token_Background |}.

(** [Screen(default_char, initial_width=width)]: every cell reads as the
    default character. *)
Definition Screen : data_buffer := fun _ _ => default_char.

(** [Background.create_screen(cli, width, height)] *)
Definition create_screen (width height : Z) : data_buffer :=
  fold_left
    (fun screen y =>
       fold_left
         (fun screen x =>
            if (x + y) mod 2 =? 0 then setcell screen y x dot else screen)
         (range 0 width) screen)
    (range 0 height) Screen.

End background.

(* ===================================================================== *)
(** * Part II: the properties                                             *)
(* ===================================================================== *)

(** ** Framing of the client's receive loop *)

Section Framing.

Import client.

Variable St : Type.
Variable handler : St -> bytes -> outcome St.
Variable process_stdin : St -> outcome St.
Variable reset_terminal : St -> St.

Local Abbreviation drain := (drain handler).
Local Abbreviation deliver := (deliver handler).
Local Abbreviation attach_loop :=
  (attach_loop handler process_stdin reset_terminal).

(** One turn of the inner loop. *)
Lemma drain_unfold (s : St) (buf : bytes) :
  drain s buf =
  match index buf with
  | None => Ok (s, buf)
  | Some pos =>
      match handler s (firstn pos buf) with
      | Ok s' => drain s' (skipn (S pos) buf)
      | Raise e => Raise e
      end
  end.
Proof.
  funelim (client.drain handler s buf).
  all: match goal with E : index _ = _ |- _ => rewrite E end.
  all: try match goal with E : handler _ _ = _ |- _ => rewrite E end.
  all: reflexivity.
Qed.

Lemma index_some_app (buf c : bytes) (pos : nat) :
  index buf = Some pos -> index (buf ++ c) = Some pos.
Proof.
  revert pos; induction buf as [|b rest IH]; simpl; intros pos H.
  - discriminate.
  - destruct (Byte.eqb b NUL); [assumption|].
    destruct (index rest) as [q|]; [|discriminate].
    rewrite (IH q eq_refl). assumption.
Qed.

Lemma index_packet (p rest : bytes) :
  nul_free p -> index (p ++ NUL :: rest) = Some (List.length p).
Proof.
  unfold nul_free. induction p as [|b p IH]; simpl; intros H.
  - reflexivity.
  - destruct (Byte.eqb b NUL) eqn:E.
    + apply Byte.byte_dec_bl in E. exfalso. apply H. left. assumption.
    + rewrite IH; [reflexivity|]. intros Hin. apply H. right. assumption.
Qed.

(** Data that arrives later does not change what the loop has already
    done with the buffer. *)
Lemma drain_app (c buf : bytes) :
  forall s,
    drain s (buf ++ c) =
    match drain s buf with
    | Ok (s', buf') => drain s' (buf' ++ c)
    | Raise e => Raise e
    end.
Proof.
  induction buf as [buf IH]
    using (well_founded_induction
             (Wf_nat.well_founded_ltof _ (@List.length byte))).
  intros s. rewrite (drain_unfold s buf).
  destruct (index buf) as [pos|] eqn:E; [|reflexivity].
  pose proof (index_lt _ E) as Hlt.
  rewrite (drain_unfold s (buf ++ c)), (index_some_app _ c E).
  rewrite firstn_app, skipn_app.
  replace (pos - List.length buf)%nat with 0%nat by lia.
  replace (S pos - List.length buf)%nat with 0%nat by lia.
  simpl firstn. simpl (skipn 0 c). rewrite app_nil_r.
  destruct (handler s (firstn pos buf)) as [s'|e]; [|reflexivity].
  apply IH. unfold Wf_nat.ltof. rewrite List.length_skipn. lia.
Qed.

(** When the inner loop is left, the buffer holds no delimiter. *)
Lemma drain_leaves_no_nul (buf : bytes) :
  forall s s' buf', drain s buf = Ok (s', buf') -> index buf' = None.
Proof.
  induction buf as [buf IH]
    using (well_founded_induction
             (Wf_nat.well_founded_ltof _ (@List.length byte))).
  intros s s' buf'. rewrite drain_unfold.
  destruct (index buf) as [pos|] eqn:E.
  - pose proof (index_lt _ E) as Hlt.
    destruct (handler s (firstn pos buf)) as [s1|e]; [|discriminate].
    apply IH. unfold Wf_nat.ltof. rewrite List.length_skipn. lia.
  - intros H. injection H as <- <-. assumption.
Qed.

(** The loop on a stream of whole packets calls the handler once per
    packet, in order, and goes on with what follows them. *)
Lemma drain_wire (packets : list bytes) :
  Forall nul_free packets ->
  forall s rest,
    drain s (wire packets ++ rest) =
    bind (deliver s packets) (fun s' => drain s' rest).
Proof.
  induction 1 as [|p ps Hp _ IH]; intros s rest.
  - reflexivity.
  - unfold wire. simpl. rewrite <- !app_assoc. simpl.
    rewrite drain_unfold, (index_packet _ Hp).
    rewrite firstn_app, Nat.sub_diag, firstn_all. simpl firstn.
    rewrite app_nil_r.
    replace (skipn (S (List.length p)) (p ++ NUL :: _))
      with (wire ps ++ rest).
    + destruct (handler s p) as [s'|e]; simpl; [apply IH|reflexivity].
    + rewrite skipn_app, skipn_all2 by lia.
      replace (S (List.length p) - List.length p)%nat with 1%nat by lia.
      reflexivity.
Qed.

(** The outer loop on non-empty reads is the inner loop on their
    concatenation. *)
Lemma attach_loop_chunks (chunks : list bytes) :
  Forall (fun c => c <> []) chunks ->
  forall s buf,
    index buf = None ->
    attach_loop s buf (List.map (@SocketReadable) chunks) =
    match drain s (buf ++ concat chunks) with
    | Ok (s', buf') => Waiting s' buf'
    | Raise e => Raised _ e
    end.
Proof.
  induction 1 as [|c cs Hc _ IH]; intros s buf Hbuf.
  - simpl. rewrite app_nil_r, drain_unfold, Hbuf. reflexivity.
  - simpl. destruct c as [|b c]; [contradiction|].
    rewrite app_assoc.
    rewrite (drain_app (concat cs) (buf ++ b :: c) s).
    destruct (drain s (buf ++ b :: c)) as [[s' buf']|e] eqn:E; [|reflexivity].
    apply IH. apply (drain_leaves_no_nul _ _ E).
Qed.

Lemma attach_loop_wire (packets chunks : list bytes) (s : St) :
  Forall nul_free packets ->
  Forall (fun c => c <> []) chunks ->
  concat chunks = wire packets ->
  attach_loop s [] (List.map (@SocketReadable) chunks) =
  match deliver s packets with
  | Ok s' => Waiting s' []
  | Raise e => Raised _ e
  end.
Proof.
  intros Hp Hc Heq.
  rewrite (attach_loop_chunks Hc s []) by reflexivity.
  simpl app. rewrite Heq, <- (app_nil_r (wire packets)).
  rewrite (drain_wire Hp s []).
  destruct (deliver s packets) as [s'|e]; simpl; [|reflexivity].
  rewrite drain_unfold. reflexivity.
Qed.

(** C3. Let packets be sent as records without NUL bytes, each followed
    by one NUL byte, and let the resulting byte stream reach the client
    cut into any sequence of non-empty reads.  Then the receive loop of
    [attach] hands its packet handler exactly those packets, one call
    each and in order, whatever the cuts are: it ends up waiting with an
    empty buffer in the state the handler reaches on the packets, or
    raises what the handler raises on them. *)
Theorem attach_framing (packets chunks : list bytes) (s : St) :
  Forall nul_free packets ->
  Forall (fun c => c <> []) chunks ->
  concat chunks = wire packets ->
  attach_loop s [] (List.map (@SocketReadable) chunks) =
  match deliver s packets with
  | Ok s' => Waiting s' []
  | Raise e => Raised _ e
  end.
Proof.
  intros Hp Hc Heq. apply attach_loop_wire; assumption.
Qed.

(** Two ways of cutting the same stream cannot be told apart. *)
Corollary attach_loop_cut_independent (packets c1 c2 : list bytes) (s : St) :
  Forall nul_free packets ->
  Forall (fun c => c <> []) c1 ->
  Forall (fun c => c <> []) c2 ->
  concat c1 = wire packets ->
  concat c2 = wire packets ->
  attach_loop s [] (List.map (@SocketReadable) c1) =
  attach_loop s [] (List.map (@SocketReadable) c2).
Proof.
  intros Hp H1 H2 E1 E2.
  rewrite (attach_loop_wire s Hp H1 E1), (attach_loop_wire s Hp H2 E2).
  reflexivity.
Qed.

(** A zero-length read ends the loop, whatever is in the buffer. *)
Lemma attach_loop_eof (s : St) (buf : bytes) (rs : list readable) :
  attach_loop s buf (SocketReadable [] :: rs) = Returned (reset_terminal s).
Proof. reflexivity. Qed.

End Framing.

Lemma attach_framing_witness :
  let packets := [[x7b; x7d]; [x5b; x31; x5d]] in
  let chunks := [[x7b]; [x7d; x00; x5b; x31]; [x5d; x00]] in
  Forall client.nul_free packets /\
  Forall (fun c : bytes => c <> []) chunks /\
  concat chunks = client.wire packets /\
  client.attach_loop record_packet (fun s => Ok s) (fun s => s) [] []
    (List.map (@client.SocketReadable) chunks)
  = client.Waiting packets [].
Proof.
  intros packets chunks.
  assert (Hp : Forall client.nul_free packets).
  { repeat constructor; unfold client.nul_free, client.NUL; simpl;
      intuition discriminate. }
  assert (Hc : Forall (fun c : bytes => c <> []) chunks).
  { repeat constructor; discriminate. }
  assert (He : concat chunks = client.wire packets) by reflexivity.
  split; [exact Hp|]. split; [exact Hc|]. split; [exact He|].
  exact (attach_framing record_packet (fun s => Ok s) (fun s => s)
           [] Hp Hc He).
Defined.

(** ** The mode stack of the client *)

Section ModeStack.

Import client.

Variable termios : Type.
Variable raw_attrs cooked_attrs : termios -> termios.

Local Abbreviation _process_packet := (_process_packet raw_attrs cooked_attrs).

Lemma pop_app_last (A : Type) (l : list A) (x : A) :
  pop (l ++ [x]) = Some (l, x).
Proof.
  unfold pop. rewrite rev_app_distr. simpl. rewrite rev_involutive.
  reflexivity.
Qed.

(** C6. A ['mode'] packet with data ['raw'] (['cooked']) enters raw
    (cooked) mode on the terminal, remembering the attributes found, and
    puts that context on top of the stack; with data ['restore'] and a
    context on the stack it takes the most recently pushed context off
    and exits it, which puts back the attributes the context found.
    Hence a push followed by a restore leaves the client as it was. *)
Theorem mode_packet_is_a_stack :
  forall (stack : list (context_manager termios)) (t : termios)
         (out : list string) (n : nat),
    let self := {| _mode_context_managers := stack; tty := t;
                   stdout := out; sigtstp := n |} in
    _process_packet self (mode_packet "raw") =
      {| _mode_context_managers :=
           stack ++ [{| cm_mode := raw_mode; attrs_before := t |}];
         tty := raw_attrs t; stdout := out; sigtstp := n |}
    /\ _process_packet self (mode_packet "cooked") =
      {| _mode_context_managers :=
           stack ++ [{| cm_mode := cooked_mode; attrs_before := t |}];
         tty := cooked_attrs t; stdout := out; sigtstp := n |}
    /\ (forall (cm : context_manager termios) (t' : termios),
          _process_packet
            {| _mode_context_managers := stack ++ [cm]; tty := t';
               stdout := out; sigtstp := n |} (mode_packet "restore") =
          {| _mode_context_managers := stack; tty := attrs_before cm;
             stdout := out; sigtstp := n |})
    /\ _process_packet (_process_packet self (mode_packet "raw"))
         (mode_packet "restore") = self
    /\ _process_packet (_process_packet self (mode_packet "cooked"))
         (mode_packet "restore") = self.
Proof.
  intros stack t out n self.
  assert (R : forall (cm : context_manager termios) (t' : termios),
             _process_packet
               {| _mode_context_managers := stack ++ [cm]; tty := t';
                  stdout := out; sigtstp := n |} (mode_packet "restore") =
             {| _mode_context_managers := stack; tty := attrs_before cm;
                stdout := out; sigtstp := n |}).
  { intros cm t'. unfold client._process_packet. simpl.
    rewrite pop_app_last. reflexivity. }
  repeat split.
  - exact R.
  - change (_process_packet self (mode_packet "raw"))
      with {| _mode_context_managers :=
                stack ++ [{| cm_mode := raw_mode; attrs_before := t |}];
              tty := raw_attrs t; stdout := out; sigtstp := n |}.
    apply R.
  - change (_process_packet self (mode_packet "cooked"))
      with {| _mode_context_managers :=
                stack ++ [{| cm_mode := cooked_mode; attrs_before := t |}];
              tty := cooked_attrs t; stdout := out; sigtstp := n |}.
    apply R.
Qed.

(** C9. A ['mode'] packet with data ['restore'] that finds the stack of
    contexts empty changes nothing: the stack stays empty, the terminal
    attributes stay as they are, and the handler returns. *)
Theorem restore_on_empty_stack (self : Client termios) :
  _mode_context_managers self = [] ->
  _process_packet self (mode_packet "restore") = self.
Proof.
  intros H. unfold client._process_packet. simpl. rewrite H. reflexivity.
Qed.

End ModeStack.

Lemma restore_on_empty_stack_witness :
  let self := {| client._mode_context_managers := [];
                 client.tty := 7%nat;
                 client.stdout := [];
                 client.sigtstp := 0%nat |} in
  client._mode_context_managers self = [] /\
  client._process_packet (fun t => S t) (fun t => t) self
    (mode_packet "restore") = self.
Proof.
  intros self. split; [reflexivity|].
  exact (restore_on_empty_stack (fun t => S t) (fun t => t) self eq_refl).
Defined.

(** ** Writing to the pane's process *)

Section WriteInput.

Import process.

Lemma paste_wrap_wrapped (self : Process) (data : unicode) :
  bracketed_paste_enabled (screen self) = true ->
  paste_wrap self data true = paste_start ++ data ++ paste_end.
Proof. intros H. unfold paste_wrap. rewrite H. reflexivity. Qed.

Lemma paste_wrap_plain (self : Process) (data : unicode) (paste : bool) :
  paste && bracketed_paste_enabled (screen self) = false ->
  paste_wrap self data paste = data.
Proof. intros H. unfold paste_wrap. rewrite H. reflexivity. Qed.

(** The markers are never empty, so a wrapped payload differs from the
    payload. *)
Lemma wrapped_differs (data : unicode) :
  paste_start ++ data ++ paste_end <> data.
Proof.
  intros H. apply (f_equal (@List.length Z)) in H.
  rewrite !length_app in H. simpl in H. lia.
Qed.

(** What [existsb is_surrogate] decides. *)
Lemma no_surrogate (data : unicode) :
  (forall c, In c data -> ~ 55296 <= c <= 57343) ->
  existsb is_surrogate data = false.
Proof.
  intros H. destruct (existsb is_surrogate data) eqn:E; [|reflexivity].
  apply existsb_exists in E. destruct E as [c [Hin Hc]].
  exfalso. apply (H c Hin). unfold is_surrogate in Hc.
  apply andb_true_iff in Hc. destruct Hc as [H1 H2].
  apply Z.leb_le in H1. apply Z.leb_le in H2. lia.
Qed.

Lemma some_surrogate (data : unicode) :
  (exists c, In c data /\ 55296 <= c <= 57343) ->
  existsb is_surrogate data = true.
Proof.
  intros [c [Hin Hc]]. apply existsb_exists. exists c. split; [assumption|].
  unfold is_surrogate. apply andb_true_iff.
  split; apply Z.leb_le; lia.
Qed.

(** The markers hold no surrogate: a wrapped payload holds one exactly
    when the payload does. *)
Lemma paste_wrap_surrogate (self : Process) (data : unicode) (paste : bool) :
  existsb is_surrogate (paste_wrap self data paste) =
  existsb is_surrogate data.
Proof.
  unfold paste_wrap.
  destruct (paste && bracketed_paste_enabled (screen self)); [|reflexivity].
  rewrite !existsb_app.
  replace (existsb is_surrogate paste_start) with false by reflexivity.
  replace (existsb is_surrogate paste_end) with false by reflexivity.
  rewrite orb_false_r. reflexivity.
Qed.

(** The loop writes once per interrupted call and once more. *)
Lemma write_loop_retries (os : nat -> write_answer) (f : fd) (data : unicode) :
  existsb is_surrogate data = false ->
  forall (n fuel k : nat),
    (forall j, (j < n)%nat -> os (k + j)%nat = Failed 4) ->
    os (k + n)%nat <> Failed 4 ->
    (n < fuel)%nat ->
    write_loop fuel os k (Some f) data =
    (Some (Ok tt), repeat (os_write f (encode_utf8 data)) (S n)).
Proof.
  intros He.
  induction n as [|n IH]; intros fuel k Hint Hend Hfuel.
  - destruct fuel as [|fuel]; [lia|]. cbn [write_loop repeat].
    unfold encode. rewrite He.
    rewrite Nat.add_0_r in Hend.
    destruct (os k) as [w|errno]; [reflexivity|].
    destruct (errno =? 4) eqn:E; [|reflexivity].
    apply Z.eqb_eq in E. subst. contradiction.
  - destruct fuel as [|fuel]; [lia|].
    cbn [write_loop]. unfold encode at 1. rewrite He.
    pose proof (Hint 0%nat ltac:(lia)) as H0. rewrite Nat.add_0_r in H0.
    rewrite H0. cbn [Z.eqb Pos.eqb].
    rewrite (IH fuel (S k)).
    + reflexivity.
    + intros j Hj. replace (S k + j)%nat with (k + S j)%nat by lia.
      apply Hint. lia.
    + replace (S k + n)%nat with (k + S n)%nat by lia. assumption.
    + lia.
Qed.

(** A payload with a surrogate leaves the loop on its first turn, before
    any call of [os.write]. *)
Lemma write_loop_raises (os : nat -> write_answer) (f : fd) (data : unicode)
    (fuel k : nat) :
  existsb is_surrogate data = true ->
  write_loop (S fuel) os k (Some f) data = (Some (Raise ValueError), []).
Proof. intros He. cbn [write_loop]. unfold encode. rewrite He. reflexivity. Qed.

(** A descriptor that answers every write with errno 4 keeps the loop
    running: no amount of fuel makes it return. *)
Lemma write_loop_interrupted_forever (os : nat -> write_answer) (f : fd)
    (data : unicode) :
  existsb is_surrogate data = false ->
  (forall j, os j = Failed 4) ->
  forall fuel k, fst (write_loop fuel os k (Some f) data) = None.
Proof.
  intros He H. induction fuel as [|fuel IH]; intros k; [reflexivity|].
  cbn [write_loop]. unfold encode at 1. rewrite He.
  rewrite H. cbn [Z.eqb Pos.eqb].
  specialize (IH (S k)).
  destruct (write_loop fuel os (S k) (Some f) data) as [r calls].
  exact IH.
Qed.

(** C4. [write_input] wraps the payload in the markers ESC[200~ and
    ESC[201~ exactly when [paste] is true and the screen has bracketed
    paste enabled, and leaves it as it is otherwise.  On an open master,
    if the first [n] calls of [os.write] fail with errno 4 and the next
    one does not, a payload without surrogates is written [n + 1] times,
    UTF-8 encoded and the same each time, and [write_input] returns
    without raising; a payload that holds a surrogate (a code point from
    U+D800 to U+DFFF) is never written: [write_input] raises the
    [UnicodeEncodeError] of [data.encode('utf-8')] before the first call of
    [os.write]. *)
Theorem write_input_paste_and_retry (self : Process) (data : unicode)
    (paste : bool) (f : fd) (os : nat -> write_answer) (n fuel : nat) :
  master self = Some f ->
  (forall j, (j < n)%nat -> os j = Failed 4) ->
  os n <> Failed 4 ->
  (n < fuel)%nat ->
  (paste_wrap self data paste = paste_start ++ data ++ paste_end
     <-> (paste = true /\ bracketed_paste_enabled (screen self) = true))
  /\ (~ (paste = true /\ bracketed_paste_enabled (screen self) = true)
      -> paste_wrap self data paste = data)
  /\ ((forall c, In c data -> ~ 55296 <= c <= 57343) ->
      write_input fuel os self data paste =
      (Some (Ok tt),
       repeat (os_write f (encode_utf8 (paste_wrap self data paste))) (S n)))
  /\ ((exists c, In c data /\ 55296 <= c <= 57343) ->
      write_input fuel os self data paste = (Some (Raise ValueError), [])).
Proof.
  intros Hm Hint Hend Hfuel. split; [|split; [|split]].
  - split.
    + intros H. unfold paste_wrap in H.
      destruct paste; destruct (bracketed_paste_enabled (screen self));
        simpl in H; try (split; reflexivity);
        symmetry in H; apply wrapped_differs in H; contradiction.
    + intros [-> Hb]. apply paste_wrap_wrapped. assumption.
  - intros H. apply paste_wrap_plain.
    destruct paste; destruct (bracketed_paste_enabled (screen self));
      try reflexivity. exfalso. apply H. split; reflexivity.
  - intros Hd. unfold write_input. rewrite Hm.
    apply write_loop_retries; try assumption.
    rewrite paste_wrap_surrogate. apply no_surrogate. assumption.
  - intros Hd. unfold write_input. rewrite Hm.
    destruct fuel as [|fuel]; [lia|].
    apply write_loop_raises.
    rewrite paste_wrap_surrogate. apply some_surrogate. assumption.
Qed.

(** With the payload [lone_surrogate] the method raises and writes
    nothing, on a descriptor that would take the write at once. *)
Lemma write_input_lone_surrogate :
  ~ every_payload_is_written pasting_process lone_surrogate false.
Proof.
  intros H.
  destruct (H 5 write_succeeds 0%nat 1%nat) as [encoded E].
  - reflexivity.
  - intros j Hj. lia.
  - discriminate.
  - lia.
  - vm_compute in E. discriminate.
Qed.

End WriteInput.

Lemma write_input_paste_and_retry_witness :
  process.master pasting_process = Some 5 /\
  (forall j, (j < 2)%nat -> interrupted_twice j = process.Failed 4) /\
  interrupted_twice 2 <> process.Failed 4 /\
  (2 < 3)%nat /\
  (forall c, In c (u "ls") -> ~ 55296 <= c <= 57343) /\
  process.write_input 3 interrupted_twice pasting_process (u "ls") true =
  (Some (Ok tt),
   repeat (process.os_write 5
             [x1b; x5b; x32; x30; x30; x7e; x6c; x73;
              x1b; x5b; x32; x30; x31; x7e]) 3).
Proof.
  assert (H1 : process.master pasting_process = Some 5) by reflexivity.
  assert (H2 : forall j, (j < 2)%nat ->
                         interrupted_twice j = process.Failed 4).
  { intros j Hj. unfold interrupted_twice.
    destruct (Nat.ltb_spec j 2); [reflexivity|lia]. }
  assert (H3 : interrupted_twice 2 <> process.Failed 4) by discriminate.
  assert (H4 : (2 < 3)%nat) by lia.
  assert (H5 : forall c, In c (u "ls") -> ~ 55296 <= c <= 57343).
  { intros c [<-|[<-|[]]]; vm_compute; intros [H _]; apply H; reflexivity. }
  split; [exact H1|]. split; [exact H2|]. split; [exact H3|].
  split; [exact H4|]. split; [exact H5|].
  exact (proj1 (proj2 (proj2 (write_input_paste_and_retry pasting_process
                                (u "ls") true interrupted_twice
                                H1 H2 H3 H4))) H5).
Defined.

(** ** After the master is closed *)

Section ClosedMaster.

Import process.

(** [done] closes the descriptor once and clears the field. *)
Lemma done_clears_master (self self' : Process) (calls : list syscall) :
  done self = Ok (self', calls) ->
  master self' = None /\ is_terminated self' = true /\
  exists f, master self = Some f /\ calls = [os_close f; remove_reader f].
Proof.
  unfold done. destruct (master self) as [f|] eqn:E; [|discriminate].
  intros H. injection H as <- <-. simpl. repeat split. exists f. split; reflexivity.
Qed.

Lemma write_input_closed (self : Process) :
  master self = None ->
  forall fuel os data paste,
    write_input fuel os self data paste = (Some (Ok tt), []).
Proof.
  intros H fuel os data paste. unfold write_input. rewrite H.
  destruct fuel; reflexivity.
Qed.

(** With the master cleared, a history makes no write and no close. *)
Lemma run_closed (cs : list call) :
  forall self,
    master self = None ->
    Forall (fun c => is_os_write c = false /\ is_os_close c = false)
           (run self cs).
Proof.
  induction cs as [|c cs IH]; intros self H; simpl.
  - constructor.
  - destruct c as [fuel os data paste| |answer signal].
    + rewrite (write_input_closed self H). simpl. apply IH. assumption.
    + unfold done. rewrite H. apply IH. assumption.
    + apply Forall_app. split; [|apply IH; assumption].
      unfold send_signal.
      destruct (pid_is_true (pid self) && negb (is_terminated self));
        [|constructor].
      destruct (pid self); simpl; repeat constructor.
Qed.

(** The writes of one [write_input] are writes only. *)
Lemma write_loop_only_writes (os : nat -> write_answer) (m : option fd)
    (data : unicode) :
  forall fuel k,
    Forall (fun c => is_os_close c = false)
           (snd (write_loop fuel os k m data)).
Proof.
  destruct m as [f|]; [|intros [|fuel] k; constructor].
  induction fuel as [|fuel IH]; intros k; [constructor|].
  cbn [write_loop]. destruct (encode data) as [encoded|e]; [|constructor].
  destruct (os k) as [w|errno].
  - repeat constructor.
  - destruct (errno =? 4); [|repeat constructor].
    specialize (IH (S k)).
    destruct (write_loop fuel os (S k) (Some f) data) as [r calls].
    simpl in *. constructor; [reflexivity|assumption].
Qed.

Lemma split_at_absent (A : Type) (P : A -> Prop) (t r pre post : list A) (x : A) :
  Forall P t -> ~ P x ->
  t ++ r = pre ++ x :: post ->
  exists pre', pre = t ++ pre' /\ r = pre' ++ x :: post.
Proof.
  revert pre. induction t as [|a t IH]; intros pre Ht Hx H.
  - exists pre. split; [reflexivity|assumption].
  - inversion Ht as [|? ? Ha Ht']; subst.
    destruct pre as [|b pre]; simpl in H.
    + injection H as -> _. contradiction.
    + injection H as -> H.
      destruct (IH pre Ht' Hx H) as [pre' [-> ->]].
      exists pre'. split; reflexivity.
Qed.

(** In every history of calls on a process, whatever the operating
    system answers, no [os.write] follows an [os.close]. *)
Lemma no_write_follows_close (cs : list call) :
  forall self pre post f,
    run self cs = pre ++ os_close f :: post ->
    Forall (fun c => is_os_write c = false) post.
Proof.
  induction cs as [|c cs IH]; intros self pre post f H; simpl in H.
  - destruct pre; discriminate.
  - destruct c as [fuel os data paste| |answer signal].
    + pose proof (write_loop_only_writes os (master self)
                    (paste_wrap self data paste) fuel 0) as Hw.
      fold (write_input fuel os self data paste) in Hw.
      destruct (write_input fuel os self data paste) as [[r|] calls];
        simpl in Hw.
      * destruct (@split_at_absent _ (fun c => is_os_close c = false)
                    calls (run self cs) pre post (os_close f) Hw)
          as [pre' [_ Hr]]; [discriminate|exact H|].
        exact (IH _ _ _ _ Hr).
      * exfalso. rewrite <- (app_nil_r calls) in H.
        destruct (@split_at_absent _ (fun c => is_os_close c = false)
                    calls [] pre post (os_close f) Hw)
          as [pre' [_ Hr]]; [discriminate|exact H|].
        destruct pre'; discriminate.
    + destruct (done self) as [[self' calls]|e] eqn:E.
      * destruct (done_clears_master _ E) as [Hm [_ [g [_ ->]]]].
        pose proof (run_closed cs self' Hm) as Hc.
        destruct pre as [|a pre]; simpl in H.
        -- injection H as _ <-. constructor; [reflexivity|].
           eapply Forall_impl; [|exact Hc]. intros ? [? _]. assumption.
        -- injection H as _ H. destruct pre as [|b pre]; simpl in H.
           ++ discriminate.
           ++ injection H as _ H. rewrite H in Hc.
              apply Forall_app in Hc. destruct Hc as [_ Hc].
              inversion Hc as [|? ? _ Hpost]; subst.
              eapply Forall_impl; [|exact Hpost]. intros ? [? _]. assumption.
      * exact (IH _ _ _ _ H).
    + assert (Hk : Forall (fun c => is_os_close c = false)
                     (snd (send_signal answer self signal))).
      { unfold send_signal.
        destruct (pid_is_true (pid self) && negb (is_terminated self));
          [|constructor].
        destruct (pid self); simpl; repeat constructor. }
      destruct (@split_at_absent _ (fun c => is_os_close c = false)
                  _ (run self cs) pre post (os_close f) Hk)
        as [pre' [_ Hr]]; [discriminate|exact H|].
      exact (IH _ _ _ _ Hr).
Qed.

(** C5. Once the master field is [None], as [done] leaves it when the
    child has terminated, every call of [write_input], whatever the
    payload, the paste flag and the answers of the operating system, makes
    no system call at all (so no [os.write]) and returns without
    raising; and no history of calls that follows makes a write. *)
Theorem write_input_after_close (self : Process) :
  master self = None ->
  (forall fuel os data paste,
      write_input fuel os self data paste = (Some (Ok tt), []))
  /\ (forall cs, Forall (fun c => is_os_write c = false) (run self cs)).
Proof.
  intros H. split.
  - apply write_input_closed. assumption.
  - intros cs. eapply Forall_impl; [|exact (run_closed cs self H)].
    intros ? [? _]. assumption.
Qed.

End ClosedMaster.

Lemma write_input_after_close_witness :
  process.done pasting_process =
    Ok (reaped_process, [process.os_close 5; process.remove_reader 5]) /\
  process.master reaped_process = None /\
  process.write_input 3 interrupted_twice reaped_process (u "ls") true =
    (Some (Ok tt), []).
Proof.
  split; [reflexivity|].
  assert (H : process.master reaped_process = None) by reflexivity.
  split; [exact H|].
  exact (proj1 (write_input_after_close reaped_process H)
           3%nat interrupted_twice (u "ls") true).
Defined.

(** ** Signals *)

Section SendSignal.

Import process.

Lemma send_signal_running (kill_answer : option Z) (self : Process)
    (signal n : Z) :
  pid self = Some n -> n <> 0 -> is_terminated self = false ->
  send_signal kill_answer self signal =
  (kill_outcome kill_answer, [os_kill n signal]).
Proof.
  intros Hp Hn Ht. unfold send_signal. rewrite Hp, Ht. simpl.
  destruct (Z.eqb_spec n 0); [contradiction|reflexivity].
Qed.

Lemma send_signal_idle (kill_answer : option Z) (self : Process) (signal : Z) :
  is_terminated self = true \/ pid self = None ->
  send_signal kill_answer self signal = (Ok tt, []).
Proof.
  intros [H|H]; unfold send_signal; rewrite H.
  - rewrite andb_false_r. reflexivity.
  - reflexivity.
Qed.

(** C8, amended. For every signal value: while the process has a pid
    (a positive number, as [fork] gives the parent) and is not flagged as
    terminated, [send_signal] makes exactly one call [os.kill(pid, signal)],
    whose recipient is the child process itself and not a process group,
    and raises only if that call does; if the process is flagged as
    terminated or was never started it makes no call and returns. *)
Theorem send_signal_reaches_the_child (kill_answer : option Z)
    (self : Process) (signal : Z) :
  (forall n, pid self = Some n -> 0 < n -> is_terminated self = false ->
     send_signal kill_answer self signal =
       (kill_outcome kill_answer, [os_kill n signal])
     /\ recipients (snd (send_signal kill_answer self signal)) =
        [(the_process n, signal)])
  /\ (is_terminated self = true \/ pid self = None ->
      send_signal kill_answer self signal = (Ok tt, [])).
Proof.
  split.
  - intros n Hp Hn Ht.
    rewrite (@send_signal_running kill_answer self signal n Hp) by (assumption || lia).
    split; [reflexivity|]. unfold recipients, kill_recipient. simpl.
    destruct (Z.ltb_spec 0 n); [reflexivity|lia].
  - apply send_signal_idle.
Qed.

End SendSignal.

Lemma send_signal_reaches_the_child_witness :
  (process.pid pasting_process = Some 4321 /\ 0 < 4321 /\
   process.is_terminated pasting_process = false /\
   process.send_signal None pasting_process 15 =
     (Ok tt, [process.os_kill 4321 15]) /\
   process.recipients (snd (process.send_signal None pasting_process 15)) =
     [(process.the_process 4321, 15)])
  /\ (process.is_terminated reaped_process = true /\
      process.send_signal None reaped_process 15 = (Ok tt, [])).
Proof.
  assert (Hp : process.pid pasting_process = Some 4321) by reflexivity.
  assert (Hn : 0 < 4321) by lia.
  assert (Ht : process.is_terminated pasting_process = false) by reflexivity.
  assert (Hr : process.is_terminated reaped_process = true) by reflexivity.
  split.
  - split; [exact Hp|]. split; [exact Hn|]. split; [exact Ht|].
    exact (proj1 (send_signal_reaches_the_child None pasting_process 15)
             4321 Hp Hn Ht).
  - split; [exact Hr|].
    exact (proj2 (send_signal_reaches_the_child None reaped_process 15)
             (or_introl Hr)).
Defined.

(** C8, as stated, fails: on a running child with pid 4321 the signal 15
    goes to process 4321, not to a process group. *)
Lemma send_signal_not_to_group :
  ~ signal_goes_to_group None pasting_process 15.
Proof.
  intros H. specialize (H 4321 eq_refl ltac:(lia) eq_refl).
  vm_compute in H. discriminate.
Qed.

(** ** The child of [from_command] *)

Section Child.

Import process.

(** When no directory of PATH holds an executable file of that name the
    closure returns, and the child leaves with status 0. *)
Lemma execv_search_not_found (w : child_world) (c0 : string)
    (args dirs : list string) :
  (forall p, In p dirs ->
     os_path_exists (file w (os_path_join p c0))
     && os_access_X_OK (file w (os_path_join p c0)) = false) ->
  execv_search w (c0 :: args) dirs = Finished (Ok tt).
Proof.
  induction dirs as [|p dirs IH]; intros H; simpl.
  - reflexivity.
  - rewrite (H p (or_introl eq_refl)). apply IH.
    intros q Hq. apply H. right. assumption.
Qed.

Lemma not_located_exits_0 (w : child_world) (path c0 : string)
    (args : list string) :
  before_exec_func w = None ->
  PATH w = Some path ->
  (forall p, In p (split ":" path) ->
     os_path_exists (file w (os_path_join p c0))
     && os_access_X_OK (file w (os_path_join p c0)) = false) ->
  from_command_child w (c0 :: args) = os__exit 0.
Proof.
  intros Hb Hp H. unfold from_command_child, execv. rewrite Hb, Hp.
  rewrite execv_search_not_found by assumption. reflexivity.
Qed.

(** When the first candidate found cannot be executed, [os.execv] raises
    and the child leaves with status 1. *)
Lemma not_executable_exits_1 (w : child_world) (c0 : string)
    (args : list string) (p : string) (errno : Z) :
  before_exec_func w = None ->
  PATH w = Some p ->
  split ":" p = [p] ->
  os_path_exists (file w (os_path_join p c0)) = true ->
  os_access_X_OK (file w (os_path_join p c0)) = true ->
  os_execv_errno (file w (os_path_join p c0)) = Some errno ->
  from_command_child w (c0 :: args) = os__exit 1.
Proof.
  intros Hb Hp Hs He Ha Hx. unfold from_command_child, execv.
  rewrite Hb, Hp, Hs. simpl. rewrite He, Ha, Hx. reflexivity.
Qed.

End Child.

(** C2. The child of [from_command] for a command that is in no directory
    of PATH: the specification has it leave with a non-zero status; the code makes
    it leave with status 0. *)
Theorem missing_command_exits_0 :
  process.split ":" "/usr/bin:/bin" = ["/usr/bin"; "/bin"]%string /\
  process.execv empty_world ["no-such-command"%string] =
    process.Finished (Ok tt) /\
  process.from_command_child empty_world ["no-such-command"%string] =
    process.os__exit 0.
Proof.
  split; [reflexivity|]. split; reflexivity.
Qed.

(** ** Focus movement *)

Section MoveFocus.

Import layout.

Lemma pane_at_some (d : write_positions) (x y : Z) (pane : Pane) :
  pane_at d x y = Some pane ->
  exists wp, In (pane, wp) d /\ contains wp x y = true.
Proof.
  induction d as [|[q wp] d IH]; simpl; intros H.
  - discriminate.
  - destruct (contains wp x y) eqn:E.
    + injection H as ->. exists wp. split; [left; reflexivity|assumption].
    + destruct (IH H) as [wp' [Hin Hc]]. exists wp'.
      split; [right; assumption|assumption].
Qed.

Lemma pane_at_none (d : write_positions) (x y : Z) :
  pane_at d x y = None ->
  forall pane wp, In (pane, wp) d -> contains wp x y = false.
Proof.
  induction d as [|[q wp] d IH]; simpl; intros H pane wp' Hin.
  - contradiction.
  - destruct (contains wp x y) eqn:E; [discriminate|].
    destruct Hin as [Heq|Hin].
    + injection Heq as _ <-. assumption.
    + exact (IH H pane wp' Hin).
Qed.

Lemma move_focus_probe (d : direction) (pymux : Pymux) :
  move_focus d pymux =
  _move_focus pymux (fun wp => fst (probe d wp)) (fun wp => snd (probe d wp)).
Proof. destruct d; reflexivity. Qed.

(** What does hold: when the geometry has a box for the active
    pane, the move returns; it leaves everything as it is when no box has
    the probe point, and otherwise makes active a pane of the geometry
    whose box has the probe point. *)
Lemma move_focus_with_geometry (d : direction) (pymux : Pymux)
    (write_pos : WritePosition) :
  getitem (pane_write_positions pymux) (active_pane (active_window pymux))
    = Ok write_pos ->
  let (x, y) := probe d write_pos in
  (move_focus d pymux = Ok pymux /\
   forall pane wp, In (pane, wp) (pane_write_positions pymux) ->
                   contains wp x y = false)
  \/ (exists pane wp,
        In (pane, wp) (pane_write_positions pymux) /\
        contains wp x y = true /\
        move_focus d pymux = Ok (set_active_pane_of pymux pane)).
Proof.
  intros H. rewrite move_focus_probe. unfold _move_focus. rewrite H. simpl.
  destruct (probe d write_pos) as [x y]. simpl.
  destruct (pane_at (pane_write_positions pymux) x y) as [pane|] eqn:E.
  - right. destruct (pane_at_some _ _ _ E) as [wp [Hin Hc]].
    exists pane, wp. repeat split; assumption.
  - left. split; [reflexivity|]. exact (pane_at_none _ _ _ E).
Qed.

(** The pane made active is one of the geometry, whether or not it is one
    of the window. *)
Lemma move_focus_within_geometry (d : direction) (pymux pymux' : Pymux) :
  move_focus d pymux = Ok pymux' ->
  pymux' = pymux \/
  In (active_pane (active_window pymux'))
     (List.map fst (pane_write_positions pymux)).
Proof.
  rewrite move_focus_probe. unfold _move_focus.
  destruct (getitem _ _) as [wp|e]; simpl; [|discriminate].
  destruct (pane_at _ _ _) as [pane|] eqn:E; intros H; injection H as <-.
  - right. destruct (pane_at_some _ _ _ E) as [wp' [Hin _]].
    simpl. apply (in_map fst) in Hin. exact Hin.
  - left. reflexivity.
Qed.

(** C1. Before the first render pass, and whenever the geometry has no
    box for the active pane, the move in any direction raises [KeyError]
    where the specification has it leave the focus unchanged; the highlight of
    the active pane guards the same lookup and goes on. *)
Theorem move_focus_raises_without_geometry :
  forall (d : direction) (window : Window),
    let pymux := {| active_window := window;
                    pane_write_positions := no_write_positions |} in
    move_focus d pymux = Raise KeyError /\
    highlight_lookup pymux = Ok None.
Proof.
  intros d window pymux. split; [destruct d|]; reflexivity.
Qed.

End MoveFocus.

Lemma move_focus_selects_stale_pane :
  exists pymux',
    layout.move_focus layout.Right stale_geometry = Ok pymux' /\
    layout.active_pane (layout.active_window pymux') = 7%nat /\
    ~ In 7%nat (layout.panes (layout.active_window pymux')).
Proof.
  eexists. split; [reflexivity|]. split; [reflexivity|].
  simpl. intros [H|[H|[]]]; discriminate.
Qed.

(** ** Mouse events on a focused pane *)

Section Mouse.

Import process layout.

(** SGR reporting wins over urxvt reporting, which wins over the legacy
    reporting. *)
Lemma mouse_handler_precedence (scr : BetterScreen) (e : MouseEvent) :
  (sgr_mouse_support_enabled scr = true ->
   mouse_handler true scr e =
   Ok (call_write_input
         (ESC :: u "[<" ++ fst (sgr_table (event_type e)) ++ u ";"
              ++ str_of_Z (position_x e + 1) ++ u ";"
              ++ str_of_Z (position_y e + 1)
              ++ snd (sgr_table (event_type e)))))
  /\ (sgr_mouse_support_enabled scr = false ->
      urxvt_mouse_support_enabled scr = true ->
      mouse_handler true scr e =
      Ok (call_write_input
            (ESC :: u "[" ++ str_of_Z (ev_table (event_type e)) ++ u ";"
                 ++ str_of_Z (position_x e + 1) ++ u ";"
                 ++ str_of_Z (position_y e + 1) ++ u "M"))).
Proof.
  split.
  - intros H. unfold mouse_handler. simpl. rewrite H.
    destruct (sgr_table (event_type e)); reflexivity.
  - intros H1 H2. unfold mouse_handler. simpl. rewrite H1, H2. reflexivity.
Qed.

(** Beyond column or row 95 the event is dropped. *)
Lemma legacy_mouse_dropped (scr : BetterScreen) (e : MouseEvent) :
  legacy_only scr ->
  96 <= position_x e \/ 96 <= position_y e ->
  mouse_handler true scr e = Ok no_action.
Proof.
  intros [H1 [H2 H3]] H. unfold mouse_handler. simpl. rewrite H1, H2, H3.
  replace ((position_x e <? 96) && (position_y e <? 96)) with false;
    [reflexivity|].
  symmetry. apply andb_false_iff.
  destruct H; [left|right]; apply Z.ltb_ge; assumption.
Qed.

(** Below 96 the handler hands [write_input] six characters. *)
Lemma legacy_mouse_text (scr : BetterScreen) (e : MouseEvent) :
  legacy_only scr ->
  0 <= position_x e < 96 -> 0 <= position_y e < 96 ->
  mouse_handler true scr e =
  Ok (call_write_input
        [ESC; 91; 77; ev_table (event_type e);
         position_x e + 33; position_y e + 33]).
Proof.
  intros [H1 [H2 H3]] Hx Hy. unfold mouse_handler. simpl.
  rewrite H1, H2, H3.
  replace ((position_x e <? 96) && (position_y e <? 96)) with true.
  - unfold unichr.
    replace ((0 <=? ev_table (event_type e))
             && (ev_table (event_type e) <? 1114112)) with true
      by (destruct (event_type e); reflexivity).
    replace ((0 <=? position_x e + 33) && (position_x e + 33 <? 1114112))
      with true by (symmetry; apply andb_true_iff; split;
                    [apply Z.leb_le|apply Z.ltb_lt]; lia).
    replace ((0 <=? position_y e + 33) && (position_y e + 33 <? 1114112))
      with true by (symmetry; apply andb_true_iff; split;
                    [apply Z.leb_le|apply Z.ltb_lt]; lia).
    reflexivity.
  - symmetry. apply andb_true_iff. split; apply Z.ltb_lt; lia.
Qed.

Lemma utf8_single_byte (c : Z) :
  0 <= c < 128 -> utf8_encode_char c = [byte_of_Z c].
Proof.
  intros H. unfold utf8_encode_char.
  destruct (Z.ltb_spec c 128); [reflexivity|lia].
Qed.

(** Up to column and row 94 the pane's process is sent six bytes: ESC,
    '[', 'M', the event byte and one byte for each coordinate. *)
Lemma legacy_mouse_bytes (fuel : nat) (os : nat -> write_answer)
    (p : Process) (f : fd) (e : MouseEvent) :
  legacy_only (screen p) ->
  master p = Some f ->
  os 0%nat <> Failed 4 ->
  0 <= position_x e < 95 -> 0 <= position_y e < 95 ->
  mouse_event_calls (S fuel) os true p e =
  (Some (Ok tt),
   [os_write f [x1b; x5b; x4d;
                byte_of_Z (ev_table (event_type e));
                byte_of_Z (position_x e + 33);
                byte_of_Z (position_y e + 33)]]).
Proof.
  intros Hl Hm Hos Hx Hy. unfold mouse_event_calls.
  rewrite (legacy_mouse_text e Hl) by lia.
  unfold write_input, paste_wrap. simpl andb. cbv iota. rewrite Hm.
  cbn [write_loop].
  assert (E : encode_utf8 [ESC; 91; 77; ev_table (event_type e);
                           position_x e + 33; position_y e + 33]
              = [x1b; x5b; x4d; byte_of_Z (ev_table (event_type e));
                 byte_of_Z (position_x e + 33);
                 byte_of_Z (position_y e + 33)]).
  { unfold encode_utf8. cbn [flat_map].
    rewrite (@utf8_single_byte (position_x e + 33)) by lia.
    rewrite (@utf8_single_byte (position_y e + 33)) by lia.
    rewrite (@utf8_single_byte (ev_table (event_type e)))
      by (destruct (event_type e); simpl; lia).
    reflexivity. }
  unfold encode. rewrite no_surrogate, E.
  2:{ intros c [<-|[<-|[<-|[<-|[<-|[<-|[]]]]]]];
        try (destruct (event_type e); vm_compute; intros [H _]; apply H;
             reflexivity);
        unfold ESC; lia. }
  destruct (os 0%nat) as [w|errno]; [reflexivity|].
  destruct (Z.eqb_spec errno 4); [subst; contradiction|reflexivity].
Qed.

End Mouse.

(** C10. A press at column 95, row 0 on a focused pane in legacy mouse
    reporting passes the test [x < 96 and y < 96]; the handler gives
    [write_input] the characters ESC [ M, chr(32), chr(128), chr(33), and
    what reaches the process is seven bytes, the column taking the two
    bytes C2 80 of its UTF-8 encoding, where the specification has the single
    byte
    chr(95 + 33). *)
Theorem legacy_mouse_column_95_is_two_bytes :
  let e := {| layout.position_x := 95; layout.position_y := 0;
              layout.event_type := layout.MOUSE_DOWN |} in
  layout.mouse_handler true (process.screen legacy_mouse_process) e =
    Ok (layout.call_write_input [27; 91; 77; 32; 128; 33]) /\
  layout.mouse_event_calls 1 write_succeeds true legacy_mouse_process e =
    (Some (Ok tt),
     [process.os_write 5 [x1b; x5b; x4d; x20; xc2; x80; x21]]).
Proof.
  split; reflexivity.
Qed.

(** ** The [select-layout] command *)

Section SelectLayout.

Import commands.

Variable LayoutTypes_ALL : list string.
Variable Window : Type.
Variable Window_select_layout : Window -> string -> Window.
Variable docopt : string -> list string -> option variables.
Variable other_handlers : string -> option (handler Window).

Local Abbreviation call_command_handler :=
  (call_command_handler LayoutTypes_ALL Window_select_layout docopt
     other_handlers).

Lemma in_ALL_false (layout_type : string) :
  ~ In layout_type LayoutTypes_ALL ->
  in_ALL LayoutTypes_ALL layout_type = false.
Proof.
  intros H. unfold in_ALL.
  destruct (existsb (String.eqb layout_type) LayoutTypes_ALL) eqn:E;
    [|reflexivity].
  apply existsb_exists in E. destruct E as [x [Hin Heq]].
  apply String.eqb_eq in Heq. subst. contradiction.
Qed.

(** C7. When [select-layout] is given a layout name that is not in
    [LayoutTypes._ALL], the handler raises [CommandException], which
    [call_command_handler] turns into the message ['Invalid layout
    type.']: the call returns without raising, the active window (and so
    its layout) is what it was, and only the message has changed. *)
Theorem select_layout_invalid_name (pymux : Pymux Window)
    (parameters : list string) (vars : variables) (layout_type : string) :
  docopt select_layout_usage parameters = Some vars ->
  vars "<layout-type>"%string = Some layout_type ->
  ~ In layout_type LayoutTypes_ALL ->
  call_command_handler "select-layout" pymux parameters =
    (show_message pymux "Invalid layout type.", Ok tt)
  /\ get_active_window
       (fst (call_command_handler "select-layout" pymux parameters)) =
     get_active_window pymux
  /\ message (fst (call_command_handler "select-layout" pymux parameters)) =
     Some "Invalid layout type."%string.
Proof.
  intros Hd Hv Hn.
  assert (E : call_command_handler "select-layout" pymux parameters =
              (show_message pymux "Invalid layout type.", Ok tt)).
  { unfold commands.call_command_handler, COMMANDS_TO_HANDLERS. simpl.
    unfold command_wrapper.
    change ("Usage:" ++ nl ++ "    " ++ "select-layout" ++ " " ++ "<layout-type>")%string
      with select_layout_usage.
    rewrite Hd. unfold select_layout. rewrite Hv.
    rewrite (in_ALL_false _ Hn). reflexivity. }
  rewrite E. repeat split.
Qed.

End SelectLayout.

Lemma select_layout_invalid_name_witness :
  one_argument select_layout_usage ["spiral"%string] =
    Some (fun key => if String.eqb key "<layout-type>"
                     then Some "spiral"%string else None) /\
  ~ In "spiral"%string sample_layouts /\
  commands.call_command_handler sample_layouts (fun _ l => l) one_argument
    (fun _ => None) "select-layout" sample_pymux ["spiral"%string] =
  ({| commands.get_active_window := Some "tiled"%string;
      commands.message := Some "Invalid layout type."%string |}, Ok tt).
Proof.
  assert (Hd : one_argument select_layout_usage ["spiral"%string] =
               Some (fun key => if String.eqb key "<layout-type>"
                                then Some "spiral"%string else None))
    by reflexivity.
  assert (Hn : ~ In "spiral"%string sample_layouts).
  { simpl. intuition discriminate. }
  split; [exact Hd|]. split; [exact Hn|].
  exact (proj1 (@select_layout_invalid_name sample_layouts string
                  (fun _ l => l) one_argument (fun _ => None) sample_pymux
                  ["spiral"%string] _ "spiral"%string Hd eq_refl Hn)).
Defined.

(* ===================================================================== *)
(** * Part III: further properties of the sources                         *)
(* ===================================================================== *)

(** ** What the client sends *)

Section Sending.

Import client client_send.

Lemma hexdigit_printable (d : Z) : 0 <= d < 16 -> printable (hexdigit d).
Proof.
  intros H. unfold hexdigit, printable.
  destruct (Z.ltb_spec d 10); lia.
Qed.

Lemma hex4_printable (n : Z) : Forall printable (hex4 n).
Proof.
  unfold hex4.
  repeat constructor; apply hexdigit_printable; apply Z.mod_pos_bound; lia.
Qed.

Lemma escape_char_printable (c : Z) : Forall printable (escape_char c).
Proof.
  unfold escape_char.
  destruct (c =? 34); [repeat constructor; unfold printable; lia|].
  destruct (c =? 92); [repeat constructor; unfold printable; lia|].
  destruct (c =? 8); [repeat constructor; unfold printable; lia|].
  destruct (c =? 12); [repeat constructor; unfold printable; lia|].
  destruct (c =? 10); [repeat constructor; unfold printable; lia|].
  destruct (c =? 13); [repeat constructor; unfold printable; lia|].
  destruct (c =? 9); [repeat constructor; unfold printable; lia|].
  destruct ((32 <=? c) && (c <=? 126)) eqn:E.
  - apply andb_true_iff in E. destruct E as [H1 H2].
    apply Z.leb_le in H1, H2. repeat constructor; unfold printable; lia.
  - destruct (c <? 65536).
    + constructor; [unfold printable; lia|].
      constructor; [unfold printable; lia|]. apply hex4_printable.
    + apply Forall_app. split;
        (constructor; [unfold printable; lia|];
         constructor; [unfold printable; lia|]; apply hex4_printable).
Qed.

Lemma dumps_str_printable (s : unicode) : Forall printable (dumps_str s).
Proof.
  unfold dumps_str. apply Forall_app. split.
  - repeat constructor; unfold printable; lia.
  - apply Forall_app. split.
    + induction s as [|c s IH]; simpl; [constructor|].
      apply Forall_app. split; [apply escape_char_printable|exact IH].
    + repeat constructor; unfold printable; lia.
Qed.

Lemma uint_printable (d : Decimal.uint) :
  Forall printable (u (NilEmpty.string_of_uint d)).
Proof.
  induction d; simpl;
    [constructor
    |constructor; [unfold printable, ord; simpl; lia|assumption]..].
Qed.

Lemma str_of_Z_printable (n : Z) : Forall printable (str_of_Z n).
Proof.
  destruct n as [|p|p]; simpl.
  - repeat constructor; unfold printable, ord; simpl; lia.
  - apply uint_printable.
  - constructor; [unfold printable, ord; simpl; lia|apply uint_printable].
Qed.

Lemma dumps_printable : forall v : value, Forall printable (dumps v).
Proof.
  fix IH 1. intros [ |[|]|n|s|l|items].
  - repeat constructor; unfold printable, ord; simpl; lia.
  - repeat constructor; unfold printable, ord; simpl; lia.
  - repeat constructor; unfold printable, ord; simpl; lia.
  - apply str_of_Z_printable.
  - apply dumps_str_printable.
  - cbn [dumps]. apply Forall_app. split;
      [repeat constructor; unfold printable, ord; simpl; lia|].
    apply Forall_app. split;
      [|repeat constructor; unfold printable, ord; simpl; lia].
    induction l as [|x l IHl]; [constructor|].
    destruct l as [|y l]; [apply IH|].
    apply Forall_app. split; [apply IH|].
    apply Forall_app. split;
      [repeat constructor; unfold printable, ord; simpl; lia|exact IHl].
  - cbn [dumps]. apply Forall_app. split;
      [repeat constructor; unfold printable, ord; simpl; lia|].
    apply Forall_app. split;
      [|repeat constructor; unfold printable, ord; simpl; lia].
    induction items as [|[k x] items IHi]; [constructor|].
    destruct items as [|ky items].
    + apply Forall_app. split; [apply dumps_str_printable|].
      apply Forall_app. split;
        [repeat constructor; unfold printable, ord; simpl; lia|apply IH].
    + apply Forall_app. split; [apply dumps_str_printable|].
      apply Forall_app. split;
        [repeat constructor; unfold printable, ord; simpl; lia|].
      apply Forall_app. split; [apply IH|].
      apply Forall_app. split;
        [repeat constructor; unfold printable, ord; simpl; lia|exact IHi].
Qed.

Lemma byte_of_Z_not_nul (c : Z) : printable c -> byte_of_Z c <> NUL.
Proof.
  unfold printable, byte_of_Z, NUL. intros H.
  rewrite Z.mod_small by lia.
  destruct (Byte.of_N (Z.to_N c)) as [b|] eqn:E.
  - intros ->. apply Byte.to_of_N in E. simpl in E. lia.
  - apply Byte.of_N_None_iff in E. lia.
Qed.

(** Printable ASCII is encoded one byte per character, none of them
    NUL. *)
Lemma encode_printable (s : unicode) :
  Forall printable s ->
  encode_utf8 s = List.map byte_of_Z s /\ nul_free (encode_utf8 s).
Proof.
  unfold nul_free. induction 1 as [|c s Hc _ [IH1 IH2]]; simpl.
  - split; [reflexivity|intros []].
  - assert (E : utf8_encode_char c = [byte_of_Z c]).
    { unfold utf8_encode_char, printable in *.
      destruct (Z.ltb_spec c 128); [reflexivity|lia]. }
    rewrite E. simpl. split.
    + f_equal. exact IH1.
    + intros [H|H].
      * exact (byte_of_Z_not_nul Hc H).
      * exact (IH2 H).
Qed.

Lemma sent_is_wire (steps : list send) :
  sent steps =
  wire (List.map (fun v => encode_utf8 (dumps v)) (flat_map packets_of steps)).
Proof.
  unfold sent, wire. rewrite map_map. reflexivity.
Qed.

(** X1. Whatever the command text, the keystrokes or the sizes are (a NUL
    character among the keystrokes included), each packet the client
    sends is a text of printable ASCII followed by one NUL byte, and that
    NUL is the only one: the bytes of a run of sends are the packets, each
    with its terminator, and no packet body holds a NUL. *)
Theorem sent_packets_are_framed (steps : list send) :
  let packets := flat_map packets_of steps in
  sent steps = wire (List.map (fun v => encode_utf8 (dumps v)) packets)
  /\ Forall (fun v => Forall printable (dumps v)) packets
  /\ Forall nul_free (List.map (fun v => encode_utf8 (dumps v)) packets).
Proof.
  intros packets. split; [apply sent_is_wire|]. split.
  - apply Forall_forall. intros v _. apply dumps_printable.
  - apply Forall_map, Forall_forall. intros v _.
    apply encode_printable, dumps_printable.
Qed.

End Sending.

(** ** More on the receive loop *)

Lemma index_nul_free (p : bytes) : client.nul_free p -> client.index p = None.
Proof.
  unfold client.nul_free. induction p as [|b p IH]; simpl; intros H.
  - reflexivity.
  - destruct (Byte.eqb b client.NUL) eqn:E.
    + apply Byte.byte_dec_bl in E. exfalso. apply H. left. assumption.
    + rewrite IH; [reflexivity|]. intros Hin. apply H. right. assumption.
Qed.

(** A buffer without NUL is left as it is, and the handler is not
    called. *)
Lemma drain_nul_free (St : Type) (handler : St -> bytes -> outcome St)
    (s : St) (buf : bytes) :
  client.nul_free buf -> client.drain handler s buf = Ok (s, buf).
Proof.
  intros H. rewrite drain_unfold, (@index_nul_free buf H). reflexivity.
Qed.

Section ReceiveMore.

Import client client_send.

Variable St : Type.
Variable handler : St -> bytes -> outcome St.
Variable process_stdin : St -> outcome St.
Variable reset_terminal : St -> St.

Local Abbreviation drain := (drain handler).
Local Abbreviation deliver := (deliver handler).
Local Abbreviation attach_loop :=
  (attach_loop handler process_stdin reset_terminal).

(** The loop on whole packets followed by the start of another one. *)
Lemma attach_loop_partial (packets chunks : list bytes) (partial : bytes)
    (s : St) :
  Forall nul_free packets ->
  nul_free partial ->
  Forall (fun c => c <> []) chunks ->
  concat chunks = wire packets ++ partial ->
  attach_loop s [] (List.map (@SocketReadable) chunks) =
  match deliver s packets with
  | Ok s' => Waiting s' partial
  | Raise e => Raised _ e
  end.
Proof.
  intros Hp Hpart Hc Heq.
  rewrite (attach_loop_chunks handler process_stdin reset_terminal Hc s [])
    by reflexivity.
  simpl app. rewrite Heq. rewrite (drain_wire handler Hp s partial).
  destruct (deliver s packets) as [s'|e]; cbn [bind]; [|reflexivity].
  rewrite (@drain_nul_free St handler s' partial Hpart). reflexivity.
Qed.

(** The loop on a run of [select] results followed by another run. *)
Lemma attach_loop_app (rs1 rs2 : list readable) :
  forall s buf,
    attach_loop s buf (rs1 ++ rs2) =
    match attach_loop s buf rs1 with
    | Waiting s' buf' => attach_loop s' buf' rs2
    | Returned s' => Returned s'
    | Raised _ e => Raised _ e
    end.
Proof.
  induction rs1 as [|r rs1 IH]; intros s buf; simpl.
  - reflexivity.
  - destruct r as [data|].
    + destruct data as [|b data]; [reflexivity|].
      destruct (client.drain handler s (buf ++ b :: data)) as [[s' buf']|e];
        [apply IH|reflexivity].
    + destruct (process_stdin s) as [s'|e]; [apply IH|reflexivity].
Qed.

(** X2. Bytes that follow the last NUL stay in the buffer: when the stream
    read so far is a run of whole packets followed by the beginning of
    another one, then, however the stream is cut into reads, the handler
    has been called on the whole packets only, and the loop waits with
    exactly the unfinished bytes in its buffer. *)
Theorem unfinished_packet_is_buffered (packets chunks : list bytes)
    (partial : bytes) (s : St) :
  Forall nul_free packets ->
  nul_free partial ->
  Forall (fun c => c <> []) chunks ->
  concat chunks = wire packets ++ partial ->
  attach_loop s [] (List.map (@SocketReadable) chunks) =
  match deliver s packets with
  | Ok s' => Waiting s' partial
  | Raise e => Raised _ e
  end.
Proof.
  intros. apply attach_loop_partial; assumption.
Qed.

(** X3. When the connection is closed (a read of no bytes), [attach]
    resets the terminal and returns: the unfinished bytes in the buffer
    never reach the handler, and whatever [select] would report
    afterwards is not looked at. *)
Theorem close_drops_unfinished_packet (packets chunks : list bytes)
    (partial : bytes) (later : list readable) (s : St) :
  Forall nul_free packets ->
  nul_free partial ->
  Forall (fun c => c <> []) chunks ->
  concat chunks = wire packets ++ partial ->
  attach_loop s []
    (List.map (@SocketReadable) chunks ++ SocketReadable [] :: later) =
  match deliver s packets with
  | Ok s' => Returned (reset_terminal s')
  | Raise e => Raised _ e
  end.
Proof.
  intros Hp Hpart Hc Heq.
  rewrite attach_loop_app, (attach_loop_partial s Hp Hpart Hc Heq).
  destruct (deliver s packets) as [s'|e]; reflexivity.
Qed.

(** X4. What the client sends comes back as it was sent: a loop that
    frames on NUL as [attach] does, reading the bytes of any run of sends
    in any cut into non-empty reads, calls its handler once on the JSON
    text of each packet, in the order of sending. *)
Theorem sent_packets_are_received (steps : list send) (chunks : list bytes)
    (s : St) :
  Forall (fun c => c <> []) chunks ->
  concat chunks = sent steps ->
  attach_loop s [] (List.map (@SocketReadable) chunks) =
  match deliver s (List.map (fun v => encode_utf8 (dumps v))
                            (flat_map packets_of steps)) with
  | Ok s' => Waiting s' []
  | Raise e => Raised _ e
  end.
Proof.
  intros Hc Heq. rewrite sent_is_wire in Heq.
  apply attach_loop_wire; try assumption.
  apply Forall_map, Forall_forall. intros v _.
  apply encode_printable, dumps_printable.
Qed.

End ReceiveMore.

Lemma unfinished_packet_is_buffered_witness :
  let packets := [[x7b; x7d]] in
  let partial := [x5b] in
  let chunks := [[x7b]; [x7d; x00; x5b]] in
  Forall client.nul_free packets /\
  client.nul_free partial /\
  Forall (fun c : bytes => c <> []) chunks /\
  concat chunks = client.wire packets ++ partial /\
  client.attach_loop record_packet (fun s => Ok s) (fun s => s) [] []
    (List.map (@client.SocketReadable) chunks)
  = client.Waiting packets partial.
Proof.
  intros packets partial chunks.
  assert (Hp : Forall client.nul_free packets).
  { repeat constructor; unfold client.nul_free, client.NUL; simpl;
      intuition discriminate. }
  assert (Hq : client.nul_free partial).
  { unfold client.nul_free, client.NUL; simpl; intuition discriminate. }
  assert (Hc : Forall (fun c : bytes => c <> []) chunks).
  { repeat constructor; discriminate. }
  assert (He : concat chunks = client.wire packets ++ partial) by reflexivity.
  split; [exact Hp|]. split; [exact Hq|]. split; [exact Hc|].
  split; [exact He|].
  exact (unfinished_packet_is_buffered record_packet (fun s => Ok s)
           (fun s => s) [] Hp Hq Hc He).
Defined.

Lemma close_drops_unfinished_packet_witness :
  let packets := [[x7b; x7d]] in
  let partial := [x5b] in
  let chunks := [[x7b]; [x7d; x00; x5b]] in
  let later := [client.SocketReadable [x5d; x00]] in
  Forall client.nul_free packets /\
  client.nul_free partial /\
  Forall (fun c : bytes => c <> []) chunks /\
  concat chunks = client.wire packets ++ partial /\
  client.attach_loop record_packet (fun s => Ok s) (fun s => s) [] []
    (List.map (@client.SocketReadable) chunks
     ++ client.SocketReadable [] :: later)
  = client.Returned packets.
Proof.
  intros packets partial chunks later.
  assert (Hp : Forall client.nul_free packets).
  { repeat constructor; unfold client.nul_free, client.NUL; simpl;
      intuition discriminate. }
  assert (Hq : client.nul_free partial).
  { unfold client.nul_free, client.NUL; simpl; intuition discriminate. }
  assert (Hc : Forall (fun c : bytes => c <> []) chunks).
  { repeat constructor; discriminate. }
  assert (He : concat chunks = client.wire packets ++ partial) by reflexivity.
  split; [exact Hp|]. split; [exact Hq|]. split; [exact Hc|].
  split; [exact He|].
  exact (close_drops_unfinished_packet record_packet (fun s => Ok s)
           (fun s => s) later [] Hp Hq Hc He).
Defined.

Lemma sent_packets_are_received_witness :
  let steps := [client_send._send_size 24 80;
                client_send._process_stdin [0; 97]] in
  let stream := client_send.sent steps in
  let chunks := [firstn 9 stream; skipn 9 stream] in
  Forall (fun c : bytes => c <> []) chunks /\
  concat chunks = stream /\
  client.attach_loop record_packet (fun s => Ok s) (fun s => s) [] []
    (List.map (@client.SocketReadable) chunks)
  = client.Waiting
      [encode_utf8
         (u "{" ++ [34] ++ u "cmd" ++ [34] ++ u ": " ++ [34] ++ u "size"
          ++ [34] ++ u ", " ++ [34] ++ u "data" ++ [34] ++ u ": [24, 80]}");
       encode_utf8
         (u "{" ++ [34] ++ u "cmd" ++ [34] ++ u ": " ++ [34] ++ u "in"
          ++ [34] ++ u ", " ++ [34] ++ u "data" ++ [34] ++ u ": " ++ [34]
          ++ [92] ++ u "u0000a" ++ [34] ++ u "}")] [].
Proof.
  intros steps stream chunks.
  assert (Hc : Forall (fun c : bytes => c <> []) chunks).
  { repeat constructor; vm_compute; discriminate. }
  assert (He : concat chunks = stream) by (vm_compute; reflexivity).
  split; [exact Hc|]. split; [exact He|].
  exact (sent_packets_are_received record_packet (fun s => Ok s)
           (fun s => s) steps [] Hc He).
Defined.

(** ** The handler on runs of packets *)

Section PacketRuns.

Import client client_send.

Variable termios : Type.
Variable raw_attrs cooked_attrs : termios -> termios.
Variable json_loads : bytes -> outcome packet.
Variable process_stdin : Client termios -> outcome (Client termios).
Variable reset_terminal : Client termios -> Client termios.

Local Abbreviation _process_packet := (_process_packet raw_attrs cooked_attrs).
Local Abbreviation _process := (_process raw_attrs cooked_attrs json_loads).
Local Abbreviation process_packets := (process_packets raw_attrs cooked_attrs).

Lemma deliver_out (bodies : list bytes) (texts : list string) :
  Forall2 (fun b d => json_loads b = Ok {| cmd := "out"; data := d |})
          bodies texts ->
  forall self, deliver _process self bodies = Ok (wrote self texts).
Proof.
  induction 1 as [|b d bodies texts Hb _ IH]; intros self; simpl.
  - unfold wrote. rewrite app_nil_r. destruct self; reflexivity.
  - unfold client._process at 1. rewrite Hb. simpl.
    rewrite IH. unfold wrote. simpl. rewrite <- app_assoc. reflexivity.
Qed.

(** X5. The texts of ['out'] packets reach the terminal in the order the
    packets were sent, once each, however the stream is cut into reads;
    the mode stack and the terminal attributes are not touched. *)
Theorem out_packets_are_written_in_order (bodies chunks : list bytes)
    (texts : list string) (self : Client termios) :
  Forall2 (fun b d => json_loads b = Ok {| cmd := "out"; data := d |})
          bodies texts ->
  Forall nul_free bodies ->
  Forall (fun c => c <> []) chunks ->
  concat chunks = wire bodies ->
  attach_loop _process process_stdin reset_terminal self []
    (List.map (@SocketReadable) chunks)
  = Waiting (wrote self texts) [].
Proof.
  intros Hout Hp Hc Heq.
  rewrite (attach_loop_wire _process process_stdin reset_terminal
             self Hp Hc Heq).
  rewrite (deliver_out Hout). reflexivity.
Qed.

Lemma push_then_restore (m : mode) (self : Client termios) :
  _process_packet (_process_packet self (mode_packet (mode_name m)))
    (mode_packet "restore") = self.
Proof.
  destruct self as [stack t out n].
  destruct m; unfold client._process_packet; simpl;
    rewrite pop_app_last; reflexivity.
Qed.

Lemma restore_empty (self : Client termios) :
  _mode_context_managers self = [] ->
  _process_packet self (mode_packet "restore") = self.
Proof.
  intros H. unfold client._process_packet. simpl. rewrite H. reflexivity.
Qed.

Lemma nested_modes_balanced (ms : list mode) :
  forall self,
    process_packets self
      (List.map (fun m => mode_packet (mode_name m)) ms
       ++ repeat (mode_packet "restore") (List.length ms)) = self.
Proof.
  unfold client_send.process_packets.
  induction ms as [|m ms IH]; intros self.
  - reflexivity.
  - cbn [List.map List.length app repeat]. rewrite repeat_cons, app_assoc.
    cbn [fold_left]. rewrite fold_left_app. cbn [fold_left].
    rewrite IH. apply push_then_restore.
Qed.

(** X6. Mode changes nest: after any run of ['raw'] and ['cooked']
    packets, the same number of ['restore'] packets brings the client
    back to exactly the state before the run (stack, terminal attributes
    and all); and when the stack was empty before the run, any number of
    further ['restore'] packets changes nothing more. *)
Theorem mode_changes_nest (ms : list mode) (self : Client termios) :
  process_packets self
    (List.map (fun m => mode_packet (mode_name m)) ms
     ++ repeat (mode_packet "restore") (List.length ms)) = self
  /\ (_mode_context_managers self = [] ->
      forall k,
        process_packets self
          (List.map (fun m => mode_packet (mode_name m)) ms
           ++ repeat (mode_packet "restore") (List.length ms + k)) = self).
Proof.
  split; [apply nested_modes_balanced|].
  intros H k. rewrite repeat_app, app_assoc.
  unfold client_send.process_packets. rewrite fold_left_app.
  fold (process_packets self
          (List.map (fun m => mode_packet (mode_name m)) ms
           ++ repeat (mode_packet "restore") (List.length ms))).
  rewrite nested_modes_balanced.
  induction k as [|k IH]; [reflexivity|].
  cbn [repeat fold_left]. rewrite (restore_empty self H). exact IH.
Qed.

End PacketRuns.

Lemma out_packets_are_written_in_order_witness :
  let loads := fun b : bytes =>
                 Ok {| client.cmd := "out";
                       client.data := string_of_list_byte b |} in
  let self := {| client._mode_context_managers := [];
                 client.tty := 7%nat;
                 client.stdout := ["$ "%string];
                 client.sigtstp := 0%nat |} in
  let bodies := [[x6c; x73]; [x0a]] in
  let chunks := [[x6c]; [x73; x00; x0a; x00]] in
  Forall2 (fun b d => loads b = Ok {| client.cmd := "out"; client.data := d |})
          bodies (List.map string_of_list_byte bodies) /\
  Forall client.nul_free bodies /\
  Forall (fun c : bytes => c <> []) chunks /\
  concat chunks = client.wire bodies /\
  client.attach_loop (client._process (fun t => S t) (fun t => t) loads)
    (fun s => Ok s) (fun s => s) self []
    (List.map (@client.SocketReadable) chunks)
  = client.Waiting
      {| client._mode_context_managers := [];
         client.tty := 7%nat;
         client.stdout := ["$ "; "ls"; String "010" ""]%string;
         client.sigtstp := 0%nat |} [].
Proof.
  intros loads self bodies chunks.
  assert (H2 : Forall2 (fun b d => loads b =
                          Ok {| client.cmd := "out"; client.data := d |})
                 bodies (List.map string_of_list_byte bodies)).
  { repeat constructor. }
  assert (Hp : Forall client.nul_free bodies).
  { repeat constructor; unfold client.nul_free, client.NUL; simpl;
      intuition discriminate. }
  assert (Hc : Forall (fun c : bytes => c <> []) chunks).
  { repeat constructor; discriminate. }
  assert (He : concat chunks = client.wire bodies) by reflexivity.
  split; [exact H2|]. split; [exact Hp|]. split; [exact Hc|].
  split; [exact He|].
  exact (out_packets_are_written_in_order (fun t => S t) (fun t => t) loads
           (fun s => Ok s) (fun s => s) self H2 Hp Hc He).
Defined.

Lemma mode_changes_nest_witness :
  let self := {| client._mode_context_managers := [];
                 client.tty := 7%nat;
                 client.stdout := [];
                 client.sigtstp := 0%nat |} in
  let ms := [client.raw_mode; client.cooked_mode] in
  client._mode_context_managers self = [] /\
  client_send.process_packets (fun t => S t) (fun t => (t + 10)%nat) self
    (List.map (fun m => mode_packet (client_send.mode_name m)) ms
     ++ repeat (mode_packet "restore") (List.length ms + 3)) = self.
Proof.
  intros self ms. split; [reflexivity|].
  exact (proj2 (mode_changes_nest (fun t => S t) (fun t => (t + 10)%nat)
                  ms self) eq_refl 3%nat).
Defined.

(** ** The methods of a process after the child has been reaped *)

Section AfterDone.

Import process process_more.

Lemma done_reaps (self self' : Process) (calls : list syscall) :
  done self = Ok (self', calls) -> reaped self'.
Proof.
  intros H. destruct (done_clears_master _ H) as [H1 [H2 _]].
  split; assumption.
Qed.

Lemma run_methods_reaped (ms : list method) :
  forall self, reaped self ->
    Forall (fun e => touches_child e = false) (run_methods self ms).
Proof.
  induction ms as [|m ms IH]; intros self [Hm Ht]; simpl.
  - constructor.
  - destruct m as [fuel os data paste| |answer signal|w h| |].
    + rewrite (write_input_closed self Hm). simpl. apply IH. split; assumption.
    + unfold done. rewrite Hm. apply IH. split; assumption.
    + rewrite (send_signal_idle answer self signal (or_introl Ht)). simpl.
      apply IH. split; assumption.
    + unfold set_size. rewrite Hm. constructor; [reflexivity|].
      apply IH. split; assumption.
    + unfold get_name. rewrite Hm. apply IH. split; assumption.
    + unfold connect_reader. rewrite Hm. apply IH. split; assumption.
Qed.

Lemma map_sys_no_close (calls : list syscall) :
  Forall (fun c => is_os_close c = false) calls ->
  Forall (fun e => is_close e = false) (List.map sys calls).
Proof.
  induction 1 as [|c calls Hc _ IH]; simpl; constructor.
  - destruct c; simpl in *; congruence.
  - exact IH.
Qed.

Lemma send_signal_no_close (answer : option Z) (self : Process) (signal : Z) :
  Forall (fun c => is_os_close c = false)
         (snd (send_signal answer self signal)).
Proof.
  unfold send_signal.
  destruct (pid_is_true (pid self) && negb (is_terminated self));
    [|constructor].
  destruct (pid self); simpl; repeat constructor.
Qed.

(** The effects of one method other than [done] hold no [os.close]. *)
Lemma step_then_close (t r pre post : list effect) (f : fd) :
  Forall (fun e => is_close e = false) t ->
  t ++ r = pre ++ sys (os_close f) :: post ->
  exists pre', r = pre' ++ sys (os_close f) :: post.
Proof.
  intros Ht H.
  destruct (@split_at_absent _ (fun e => is_close e = false)
              t r pre post (sys (os_close f)) Ht)
    as [pre' [_ Hr]]; [discriminate|exact H|].
  exists pre'. exact Hr.
Qed.

(** X7. In every history of calls of [write_input], [done], [send_signal],
    [set_size], [get_name] and [connect_reader] on a process, whatever
    the operating system answers, nothing that follows the [os.close] of
    the master uses a descriptor of the pty or signals the child: no
    write, no window-size call, no [tcgetpgrp], no [add_reader], no
    second close and no [os.kill]. *)
Theorem nothing_touches_the_child_after_close (ms : list method) :
  forall (self : Process) (pre post : list effect) (f : fd),
    run_methods self ms = pre ++ sys (os_close f) :: post ->
    Forall (fun e => touches_child e = false) post.
Proof.
  induction ms as [|m ms IH]; intros self pre post f H; simpl in H.
  - destruct pre; discriminate.
  - destruct m as [fuel os data paste| |answer signal|w h| |].
    + pose proof (write_loop_only_writes os (master self)
                    (paste_wrap self data paste) fuel 0) as Hw.
      fold (write_input fuel os self data paste) in Hw.
      destruct (write_input fuel os self data paste) as [[r|] calls];
        simpl in Hw; apply map_sys_no_close in Hw.
      * destruct (@step_then_close _ _ _ _ _ Hw H) as [pre' Hr].
        exact (IH _ _ _ _ Hr).
      * exfalso. rewrite <- (app_nil_r (List.map sys calls)) in H.
        destruct (@step_then_close _ _ _ _ _ Hw H) as [pre' Hr].
        destruct pre'; discriminate.
    + destruct (done self) as [[self' calls]|e] eqn:E.
      * pose proof (run_methods_reaped ms (done_reaps _ E)) as Hc.
        destruct (done_clears_master _ E) as [_ [_ [g [_ ->]]]].
        simpl in H.
        destruct pre as [|a pre]; simpl in H.
        -- injection H as _ <-. constructor; [reflexivity|exact Hc].
        -- injection H as _ H. destruct pre as [|b pre]; simpl in H.
           ++ discriminate.
           ++ injection H as _ H. rewrite H in Hc.
              apply Forall_app in Hc. destruct Hc as [_ Hc].
              inversion Hc as [|? ? Hx _]. discriminate.
      * exact (IH _ _ _ _ H).
    + pose proof (map_sys_no_close (send_signal_no_close answer self signal))
        as Hk.
      destruct (@step_then_close _ _ _ _ _ Hk H) as [pre' Hr].
      exact (IH _ _ _ _ Hr).
    + assert (Hs : Forall (fun e => is_close e = false) (set_size self w h)).
      { unfold set_size. destruct (master self); repeat constructor. }
      destruct (@step_then_close _ _ _ _ _ Hs H) as [pre' Hr].
      exact (IH _ _ _ _ Hr).
    + assert (Hs : Forall (fun e => is_close e = false) (get_name self)).
      { unfold get_name. destruct (master self); repeat constructor. }
      destruct (@step_then_close _ _ _ _ _ Hs H) as [pre' Hr].
      exact (IH _ _ _ _ Hr).
    + assert (Hs : Forall (fun e => is_close e = false) (connect_reader self)).
      { unfold connect_reader. destruct (master self); repeat constructor. }
      destruct (@step_then_close _ _ _ _ _ Hs H) as [pre' Hr].
      exact (IH _ _ _ _ Hr).
Qed.

End AfterDone.

Lemma nothing_touches_the_child_after_close_witness :
  let ms := [process_more.m_set_size 80 24;
             process_more.m_done;
             process_more.m_write_input 3 interrupted_twice (u "ls") true;
             process_more.m_send_signal None 9;
             process_more.m_set_size 100 30;
             process_more.m_get_name;
             process_more.m_connect_reader] in
  let pre := [process_more.set_terminal_size 5 24 80;
              process_more.screen_resize 24 80] in
  let post := [process_more.sys (process.remove_reader 5);
               process_more.screen_resize 30 100] in
  process_more.run_methods pasting_process ms =
    pre ++ process_more.sys (process.os_close 5) :: post /\
  Forall (fun e => process_more.touches_child e = false) post.
Proof.
  intros ms pre post.
  assert (H : process_more.run_methods pasting_process ms =
              pre ++ process_more.sys (process.os_close 5) :: post)
    by reflexivity.
  split; [exact H|].
  exact (@nothing_touches_the_child_after_close ms pasting_process pre post
           5 H).
Defined.

(** ** The PATH search of the child *)

Section PathSearch.

Import process process_more.

Lemma split_not_nil (sep : ascii) (s : string) : split sep s <> [].
Proof.
  destruct s as [|c s]; simpl; [discriminate|].
  destruct (Ascii.eqb c sep); [discriminate|].
  destruct (split sep s); discriminate.
Qed.

Lemma execv_search_skips (w : child_world) (c0 : string) (args : list string)
    (before rest : list string) :
  (forall q, In q before -> usable w (os_path_join q c0) = false) ->
  execv_search w (c0 :: args) (before ++ rest) =
  execv_search w (c0 :: args) rest.
Proof.
  induction before as [|q before IH]; intros H; simpl.
  - reflexivity.
  - pose proof (H q (or_introl eq_refl)) as Hq. unfold usable in Hq.
    rewrite Hq. apply IH. intros q' Hq'. apply H. right. assumption.
Qed.

(** X8. The first directory of PATH, in order, that holds an existing
    executable file of the command's name decides: the child runs that
    file with the whole command as arguments, or, if [os.execv] fails on
    it, the closure raises and no later directory is tried. *)
Theorem first_usable_directory_decides (w : child_world) (c0 : string)
    (args before after : list string) (p : string) :
  (forall q, In q before -> usable w (os_path_join q c0) = false) ->
  usable w (os_path_join p c0) = true ->
  execv_search w (c0 :: args) (before ++ p :: after) =
  try_execv w (os_path_join p c0) (c0 :: args).
Proof.
  intros Hb Hp. rewrite execv_search_skips by assumption.
  simpl. unfold usable in Hp. rewrite Hp. reflexivity.
Qed.

Lemma os_path_join_absolute (p c0 : string) :
  startswith_slash c0 = true -> os_path_join p c0 = c0.
Proof. intros H. unfold os_path_join. rewrite H. reflexivity. Qed.

Lemma execv_search_absolute (w : child_world) (c0 : string)
    (args dirs : list string) :
  startswith_slash c0 = true ->
  dirs <> [] ->
  execv_search w (c0 :: args) dirs =
  if usable w c0 then try_execv w c0 (c0 :: args) else Finished (Ok tt).
Proof.
  intros Ha. induction dirs as [|p dirs IH]; intros Hd; [contradiction|].
  simpl. rewrite (os_path_join_absolute p c0 Ha).
  fold (usable w c0). destruct (usable w c0) eqn:E; [reflexivity|].
  destruct dirs as [|q dirs]; [reflexivity|].
  rewrite IH by discriminate. reflexivity.
Qed.

(** X9. A command given by an absolute path does not depend on the value
    of PATH, only on PATH being set: the child runs that very file if it
    exists and is executable (leaving with status 1 if [os.execv] fails),
    and leaves with status 0 otherwise. *)
Theorem absolute_command_ignores_path (w : child_world) (path c0 : string)
    (args : list string) :
  before_exec_func w = None ->
  PATH w = Some path ->
  startswith_slash c0 = true ->
  from_command_child w (c0 :: args) =
  if usable w c0 then
    match os_execv_errno (file w c0) with
    | None => runs_image c0 (c0 :: args)
    | Some _ => os__exit 1
    end
  else os__exit 0.
Proof.
  intros Hb Hp Ha. unfold from_command_child, execv. rewrite Hb, Hp.
  rewrite (@execv_search_absolute w c0 args _ Ha
             (@split_not_nil ":"%char path)).
  destruct (usable w c0); [|reflexivity].
  unfold try_execv. destruct (os_execv_errno (file w c0)); reflexivity.
Qed.

(** X10. The child leaves with status 1, and runs nothing, when
    [before_exec_func] raises, when PATH is not in the environment, and
    when the command is the empty list. *)
Theorem broken_launch_exits_1 (w : child_world) (command : list string) :
  (exists e, before_exec_func w = Some (Raise e))
  \/ PATH w = None
  \/ command = [] ->
  from_command_child w command = os__exit 1.
Proof.
  unfold from_command_child, execv.
  intros [[e H]|[H|H]].
  - rewrite H. reflexivity.
  - rewrite H. destruct (before_exec_func w) as [[?|?]|]; reflexivity.
  - subst command.
    destruct (before_exec_func w) as [[?|?]|]; try reflexivity;
      (destruct (PATH w) as [path|]; [|reflexivity];
       pose proof (@split_not_nil ":"%char path) as Hs;
       destruct (split ":" path); [contradiction|reflexivity]).
Qed.

Lemma split_cons (sep c : ascii) (s : string) :
  split sep (String c s) =
  if Ascii.eqb c sep then EmptyString :: split sep s
  else match split sep s with
       | [] => [String c EmptyString]
       | w :: ws => String c w :: ws
       end.
Proof. reflexivity. Qed.

(** X11. Splitting PATH at the colons loses nothing and leaves no colon:
    the directories tried, joined by colons, are the value of PATH, none
    of them contains a colon, and there is at least one (the empty one
    for an empty PATH). *)
Theorem path_split_round_trip (path : string) :
  String.concat ":" (split ":" path) = path
  /\ Forall (fun p => has_colon p = false) (split ":" path)
  /\ split ":" path <> [].
Proof.
  split; [|split; [|apply split_not_nil]].
  - induction path as [|c path IH]; [reflexivity|].
    rewrite split_cons.
    pose proof (@split_not_nil ":"%char path) as Hn.
    destruct (split ":" path) as [|w ws] eqn:E; [contradiction|].
    destruct (Ascii.eqb_spec c ":") as [->|Hc].
    + change (String ":" (String.concat ":" (w :: ws)) = String ":" path).
      rewrite IH. reflexivity.
    + destruct ws as [|w' ws].
      * change (String c (String.concat ":" [w]) = String c path).
        rewrite IH. reflexivity.
      * change (String c (String.concat ":" (w :: w' :: ws))
                = String c path).
        rewrite IH. reflexivity.
  - induction path as [|c path IH]; [repeat constructor|].
    rewrite split_cons.
    destruct (Ascii.eqb_spec c ":") as [->|Hc].
    + constructor; [reflexivity|exact IH].
    + pose proof (@split_not_nil ":"%char path) as Hn.
      destruct (split ":" path) as [|w ws] eqn:E; [contradiction|].
      inversion IH as [|? ? Hw Hws]; subst.
      constructor; [|exact Hws].
      unfold has_colon in *. cbn [list_ascii_of_string existsb].
      replace (Ascii.eqb ":" c) with false
        by (symmetry; apply Ascii.eqb_neq; congruence).
      exact Hw.
Qed.

End PathSearch.

Lemma first_usable_directory_decides_witness :
  let before := ["/usr/local/bin"; "/usr/bin"]%string in
  (forall q, In q before ->
     process_more.usable ls_world (process.os_path_join q "ls") = false) /\
  process_more.usable ls_world (process.os_path_join "/bin" "ls") = true /\
  process.execv_search ls_world ["ls"; "-l"]%string (before ++ ["/bin"%string])
  = process.Replaced "/bin/ls" ["ls"; "-l"]%string.
Proof.
  intros before.
  assert (Hb : forall q, In q before ->
                 process_more.usable ls_world (process.os_path_join q "ls")
                 = false).
  { intros q [<-|[<-|[]]]; reflexivity. }
  assert (Hp : process_more.usable ls_world (process.os_path_join "/bin" "ls")
               = true) by reflexivity.
  split; [exact Hb|]. split; [exact Hp|].
  exact (@first_usable_directory_decides ls_world "ls" ["-l"%string] before
           [] "/bin" Hb Hp).
Defined.

Lemma absolute_command_ignores_path_witness :
  process.before_exec_func ls_world = None /\
  process.PATH ls_world = Some "/usr/local/bin:/usr/bin:/bin"%string /\
  process.startswith_slash "/bin/ls" = true /\
  process.from_command_child ls_world ["/bin/ls"; "-l"]%string =
    process.runs_image "/bin/ls" ["/bin/ls"; "-l"]%string.
Proof.
  split; [reflexivity|]. split; [reflexivity|]. split; [reflexivity|].
  exact (@absolute_command_ignores_path ls_world _ "/bin/ls" ["-l"%string]
           eq_refl eq_refl eq_refl).
Defined.

Lemma broken_launch_exits_1_witness :
  process.from_command_child ls_world [] = process.os__exit 1.
Proof.
  exact (@broken_launch_exits_1 ls_world []
           (or_intror (or_intror eq_refl))).
Defined.

(** ** The document of copy mode *)

Section CopyDocumentFacts.

Import process_more.

Variable TokenType : Type.
Variable Token : TokenType.
Variable default_char : Char TokenType.

Local Abbreviation walk_row := (walk_row default_char).
Local Abbreviation row_cells := (row_cells default_char).
Local Abbreviation walk_rows := (walk_rows Token default_char).
Local Abbreviation create_copy_document :=
  (create_copy_document Token default_char).
Local Abbreviation row_text := (row_text default_char).
Local Abbreviation bad_row := (bad_row default_char).

Lemma in_range (a b i : Z) : In i (range a b) <-> a <= i < b.
Proof.
  unfold range. rewrite in_map_iff. split.
  - intros [n [<- Hn]]. apply in_seq in Hn. lia.
  - intros H. exists (Z.to_nat (i - a)). split; [lia|].
    apply in_seq. lia.
Qed.

Lemma range_snoc (a b : Z) : a <= b -> range a (b + 1) = range a b ++ [b].
Proof.
  intros H. unfold range.
  replace (Z.to_nat (b + 1 - a)) with (Z.to_nat (b - a) + 1)%nat by lia.
  rewrite seq_app, map_app. simpl. f_equal. f_equal. lia.
Qed.

(** When the loop over the cells of a row finishes, it has appended the
    cells of the row, the one after each wide cell left out. *)
Lemma walk_row_cells (row : Row TokenType) :
  forall (n : nat) (columns : list Z) (cs : list (Char TokenType)),
    (List.length columns <= n)%nat ->
    walk_row row columns = Ok cs -> cs = row_cells row columns.
Proof.
  induction n as [|n IH]; intros columns cs Hn H.
  - destruct columns; [|simpl in Hn; lia]. injection H as <-. reflexivity.
  - destruct columns as [|x rest]; [injection H as <-; reflexivity|].
    simpl in H |- *. simpl in Hn.
    destruct (width (getcell default_char row x) =? 2).
    + destruct rest as [|y rest']; [discriminate|]. simpl in Hn.
      destruct (process_more.walk_row default_char row rest') as [cs'|e] eqn:E;
        [|discriminate].
      injection H as <-. f_equal. apply (IH rest' cs'); [lia|exact E].
    + destruct (process_more.walk_row default_char row rest) as [cs'|e] eqn:E;
        [|discriminate].
      injection H as <-. f_equal. apply (IH rest cs'); [lia|exact E].
Qed.

(** A row whose only wide cell is its last one stops the loop with
    [StopIteration]. *)
Lemma walk_row_wide_last (row : Row TokenType) (m : Z) :
  0 <= m ->
  (forall x, 0 <= x < m -> width (getcell default_char row x) <> 2) ->
  width (getcell default_char row m) = 2 ->
  walk_row row (range 0 (m + 1)) = Raise OtherException.
Proof.
  intros Hm Hn Hw. rewrite range_snoc by lia.
  assert (G : forall l, (forall x, In x l -> 0 <= x < m) ->
                        walk_row row (l ++ [m]) = Raise OtherException).
  { induction l as [|x l IH]; intros Hl; simpl.
    - rewrite Hw. reflexivity.
    - pose proof (Hn x (Hl x (or_introl eq_refl))) as Hx.
      destruct (Z.eqb_spec (width (getcell default_char row x)) 2);
        [contradiction|].
      rewrite IH; [reflexivity|]. intros y Hy. apply Hl. right. exact Hy. }
  apply G. intros x Hx. apply in_range in Hx. lia.
Qed.

Lemma fold_min_le (ks : list Z) : forall k, fold_left Z.min ks k <= k.
Proof.
  induction ks as [|a ks IH]; intros k; simpl; [lia|].
  specialize (IH (Z.min k a)). lia.
Qed.

Lemma fold_max_ge (ks : list Z) : forall k, k <= fold_left Z.max ks k.
Proof.
  induction ks as [|a ks IH]; intros k; simpl; [lia|].
  specialize (IH (Z.max k a)). lia.
Qed.

Lemma min_le_max (keys : list Z) (a b : Z) :
  min_key keys = Ok a -> max_key keys = Ok b -> a <= b.
Proof.
  destruct keys as [|k ks]; [discriminate|]. simpl.
  intros Ha Hb. injection Ha as <-. injection Hb as <-.
  pose proof (fold_min_le ks k). pose proof (fold_max_ge ks k). lia.
Qed.

Lemma map_removelast (A B : Type) (f : A -> B) (l : list A) :
  List.map f (removelast l) = removelast (List.map f l).
Proof.
  induction l as [|a l IH]; [reflexivity|].
  destruct l as [|b l]; [reflexivity|].
  change (f a :: List.map f (removelast (b :: l))
          = f a :: removelast (List.map f (b :: l))).
  rewrite IH. reflexivity.
Qed.

Lemma concat_with_sep (sep : unicode) (parts : list unicode) :
  parts <> [] ->
  concat (List.map (fun p => p ++ sep) parts) = join sep parts ++ sep.
Proof.
  induction parts as [|p parts IH]; intros H; [contradiction|].
  destruct parts as [|q parts]; simpl.
  - rewrite app_nil_r. reflexivity.
  - simpl in IH. rewrite IH by discriminate.
    rewrite <- !app_assoc. reflexivity.
Qed.

(** What the loop over the rows has built when it finishes. *)
Lemma walk_rows_spec (data_buffer : DataBuffer TokenType) (rows : list Z) :
  forall text toks text' toks',
    walk_rows data_buffer rows text toks = Ok (text', toks') ->
    (List.map snd toks = text -> List.map snd toks' = text')
    /\ concat text' =
       concat text
       ++ concat (List.map (fun i => row_text data_buffer i ++ newline) rows)
    /\ (rows <> [] -> exists body, text' = body ++ [newline]).
Proof.
  induction rows as [|i rows IH]; intros text toks text' toks' H.
  - injection H as <- <-.
    split; [tauto|]. split; [|intros C; contradiction].
    cbn [List.map concat]. symmetry. apply app_nil_r.
  - cbn [process_more.walk_rows] in H.
    unfold process_more.row_text. cbn [List.map concat].
    destruct (max_key (List.map fst (getrow data_buffer i))) as [m|e];
      [|discriminate].
    cbn [bind] in H.
    destruct (process_more.walk_row default_char (getrow data_buffer i)
                (range 0 (m + 1))) as [cs|e] eqn:E; [|discriminate].
    cbn [bind] in H.
    pose proof (@walk_row_cells _ _ _ _ (le_n _) E) as Hcs.
    destruct (IH _ _ _ _ H) as [H1 [H2 H3]]. split; [|split].
    + intros Ht. apply H1. rewrite !map_app, map_map. simpl.
      rewrite Ht. reflexivity.
    + rewrite H2, !concat_app. cbn [concat]. rewrite app_nil_r.
      rewrite <- Hcs, <- !app_assoc. reflexivity.
    + intros _. destruct rows as [|j rows].
      * injection H as <- _. exists (text ++ List.map (@char _) cs).
        rewrite <- app_assoc. reflexivity.
      * apply H3. discriminate.
Qed.

(** X12. When [create_copy_document] returns, the text of the document
    is the texts of the rows from the first to the last row of the
    buffer, joined by newlines with none at the end, where the text of a
    row is the characters of its cells from column 0 to its last column,
    the cell after each cell of width 2 left out; and the characters of
    the token list, put together, are exactly that text. *)
Theorem copy_document_text (data_buffer : DataBuffer TokenType)
    (text : unicode) (tokens : list (TokenType * unicode)) :
  create_copy_document data_buffer = Ok (text, tokens) ->
  concat (List.map snd tokens) = text
  /\ exists first_row last_row,
       min_key (List.map fst data_buffer) = Ok first_row
       /\ max_key (List.map fst data_buffer) = Ok last_row
       /\ text = join newline
                   (List.map (row_text data_buffer)
                             (range first_row (last_row + 1))).
Proof.
  unfold process_more.create_copy_document.
  destruct (min_key (List.map fst data_buffer)) as [a|e] eqn:Ea;
    [|discriminate].
  destruct (max_key (List.map fst data_buffer)) as [b|e] eqn:Eb;
    [|discriminate].
  cbn [bind].
  destruct (process_more.walk_rows Token default_char data_buffer
              (range a (b + 1)) [] []) as [[text' toks']|e] eqn:E;
    [|discriminate].
  cbn [bind]. intros H. injection H as <- <-.
  pose proof (min_le_max _ Ea Eb) as Hab.
  destruct (walk_rows_spec _ _ _ _ E) as [H1 [H2 H3]].
  assert (Hne : range a (b + 1) <> []).
  { rewrite range_snoc by lia. intros C. apply app_eq_nil in C.
    destruct C as [_ C]. discriminate. }
  destruct (H3 Hne) as [body Hbody].
  split.
  - rewrite map_removelast, (H1 eq_refl). reflexivity.
  - exists a, b. split; [reflexivity|]. split; [reflexivity|].
    rewrite Hbody, removelast_last.
    rewrite Hbody, concat_app in H2. cbn [concat] in H2.
    rewrite app_nil_r, app_nil_l in H2.
    rewrite <- map_map with (f := row_text data_buffer)
                            (g := fun p => p ++ newline) in H2.
    rewrite concat_with_sep in H2.
    + apply app_inv_tail in H2. exact H2.
    + intros C. apply map_eq_nil in C. contradiction.
Qed.

Lemma walk_rows_bad (data_buffer : DataBuffer TokenType) (i : Z)
    (rows : list Z) :
  In i rows -> bad_row data_buffer i ->
  forall text toks, exists e, walk_rows data_buffer rows text toks = Raise e.
Proof.
  intros Hin Hbad. induction rows as [|j rows IH]; intros text toks;
    [contradiction|].
  cbn [process_more.walk_rows].
  destruct (max_key (List.map fst (getrow data_buffer j))) as [m|e] eqn:Em;
    [|exists e; reflexivity].
  cbn [bind].
  destruct (process_more.walk_row default_char (getrow data_buffer j)
              (range 0 (m + 1))) as [cs|e] eqn:E; [|exists e; reflexivity].
  cbn [bind]. destruct Hin as [->|Hin].
  - exfalso. unfold process_more.bad_row in Hbad. rewrite Em in Hbad.
    destruct Hbad as [e He]. rewrite E in He. discriminate.
  - apply IH. exact Hin.
Qed.

(** X13. [create_copy_document] raises [ValueError] on an empty buffer,
    and it raises whenever some row between the first and the last row
    of the buffer has no cell (a row never written is one) or has, as its
    only cell of width 2, the cell of its last column. *)
Theorem copy_document_raises (data_buffer : DataBuffer TokenType) :
  (data_buffer = [] -> create_copy_document data_buffer = Raise ValueError)
  /\ (forall first_row last_row i,
        min_key (List.map fst data_buffer) = Ok first_row ->
        max_key (List.map fst data_buffer) = Ok last_row ->
        first_row <= i <= last_row ->
        getrow data_buffer i = []
        \/ (exists m,
              max_key (List.map fst (getrow data_buffer i)) = Ok m
              /\ 0 <= m
              /\ (forall x, 0 <= x < m ->
                    width (getcell default_char (getrow data_buffer i) x) <> 2)
              /\ width (getcell default_char (getrow data_buffer i) m) = 2) ->
        exists e, create_copy_document data_buffer = Raise e).
Proof.
  split; [intros ->; reflexivity|].
  intros a b i Ea Eb Hi Hrow.
  assert (Hbad : bad_row data_buffer i).
  { unfold process_more.bad_row. destruct Hrow as [Hr|[m [Hm [H0 [Hn Hw]]]]].
    - rewrite Hr. exact I.
    - rewrite Hm. exists OtherException.
      apply walk_row_wide_last; assumption. }
  unfold process_more.create_copy_document. rewrite Ea, Eb. cbn [bind].
  destruct (@walk_rows_bad data_buffer i (range a (b + 1))
              (proj2 (in_range a (b + 1) i) ltac:(lia)) Hbad [] [])
    as [e He].
  rewrite He. exists e. reflexivity.
Qed.

End CopyDocumentFacts.

Lemma copy_document_text_witness :
  process_more.create_copy_document 0%nat (narrow 32) two_rows =
    Ok ([20013; 65; 10; 98],
        [(1%nat, [20013]); (1%nat, [65]); (0%nat, [10]); (1%nat, [98])]) /\
  concat (List.map snd
            [(1%nat, [20013]); (1%nat, [65]); (0%nat, [10]); (1%nat, [98])])
  = [20013; 65; 10; 98].
Proof.
  assert (H : process_more.create_copy_document 0%nat (narrow 32) two_rows =
              Ok ([20013; 65; 10; 98],
                  [(1%nat, [20013]); (1%nat, [65]); (0%nat, [10]);
                   (1%nat, [98])])) by reflexivity.
  split; [exact H|].
  exact (proj1 (@copy_document_text nat 0%nat (narrow 32) two_rows _ _ H)).
Defined.

Lemma copy_document_raises_witness :
  process_more.min_key (List.map fst blank_line_between) = Ok 0 /\
  process_more.max_key (List.map fst blank_line_between) = Ok 2 /\
  0 <= 1 <= 2 /\
  process_more.getrow blank_line_between 1 = [] /\
  exists e,
    process_more.create_copy_document 0%nat (narrow 32) blank_line_between
    = Raise e.
Proof.
  assert (Hi : 0 <= 1 <= 2) by lia.
  split; [reflexivity|]. split; [reflexivity|]. split; [exact Hi|].
  split; [reflexivity|].
  exact (proj2 (@copy_document_raises nat 0%nat (narrow 32)
                  blank_line_between)
           0 2 1 eq_refl eq_refl Hi (or_introl eq_refl)).
Defined.

(** ** The geometry of a render pass *)

Section RenderPass.

Import layout layout_more.

Lemma getitem_setitem_same (d : write_positions) (k : Pane)
    (wp : WritePosition) :
  getitem (setitem d k wp) k = Ok wp.
Proof.
  induction d as [|[p wp'] d IH]; simpl.
  - rewrite Nat.eqb_refl. reflexivity.
  - destruct (Nat.eqb p k) eqn:E; simpl; rewrite E; [reflexivity|exact IH].
Qed.

Lemma getitem_setitem_other (d : write_positions) (k k' : Pane)
    (wp : WritePosition) :
  k <> k' -> getitem (setitem d k wp) k' = getitem d k'.
Proof.
  intros Hk. induction d as [|[p wp'] d IH]; simpl.
  - destruct (Nat.eqb_spec k k'); [contradiction|reflexivity].
  - destruct (Nat.eqb_spec p k) as [->|Hp]; simpl.
    + destruct (Nat.eqb_spec k k'); [contradiction|reflexivity].
    + destruct (Nat.eqb p k'); [reflexivity|exact IH].
Qed.

Lemma keys_setitem (d : write_positions) (k : Pane) (wp : WritePosition)
    (p : Pane) :
  In p (List.map fst (setitem d k wp)) <-> p = k \/ In p (List.map fst d).
Proof.
  induction d as [|[q wp'] d IH]; simpl.
  - intuition.
  - destruct (Nat.eqb_spec q k) as [->|Hq]; simpl.
    + intuition.
    + rewrite IH. intuition.
Qed.

Lemma nodup_setitem (d : write_positions) (k : Pane) (wp : WritePosition) :
  NoDup (List.map fst d) -> NoDup (List.map fst (setitem d k wp)).
Proof.
  induction d as [|[q wp'] d IH]; simpl; intros H.
  - constructor; [intros []|constructor].
  - inversion H as [|? ? Hq Hd]; subst.
    destruct (Nat.eqb_spec q k) as [->|Hqk]; simpl.
    + constructor; assumption.
    + constructor; [|apply IH; assumption].
      rewrite keys_setitem. intros [->|Hin]; [congruence|contradiction].
Qed.

Lemma fold_setitem (written : list (Pane * WritePosition)) :
  forall (d : write_positions) (pane : Pane),
    getitem (fold_left (fun d item => setitem d (fst item) (snd item))
                       written d) pane =
    match last_written written pane with
    | Some wp => Ok wp
    | None => getitem d pane
    end.
Proof.
  induction written as [|[p wp] written IH]; intros d pane; simpl.
  - reflexivity.
  - rewrite IH. destruct (last_written written pane); [reflexivity|].
    destruct (Nat.eqb_spec p pane) as [->|Hp].
    + apply getitem_setitem_same.
    + apply getitem_setitem_other. assumption.
Qed.

Lemma fold_setitem_keys (written : list (Pane * WritePosition)) :
  forall (d : write_positions),
    NoDup (List.map fst d) ->
    NoDup (List.map fst
             (fold_left (fun d item => setitem d (fst item) (snd item))
                        written d))
    /\ forall p,
         In p (List.map fst
                 (fold_left (fun d item => setitem d (fst item) (snd item))
                            written d))
         <-> In p (List.map fst written) \/ In p (List.map fst d).
Proof.
  induction written as [|[q wp] written IH]; intros d Hd; simpl.
  - split; [assumption|]. intuition.
  - destruct (IH (setitem d q wp) (@nodup_setitem d q wp Hd)) as [H1 H2].
    split; [assumption|]. intros p. rewrite H2, keys_setitem. intuition.
Qed.

Lemma last_written_some (written : list (Pane * WritePosition)) (pane : Pane)
    (wp : WritePosition) :
  last_written written pane = Some wp -> In (pane, wp) written.
Proof.
  induction written as [|[p w] written IH]; simpl; intros H; [discriminate|].
  destruct (last_written written pane) as [w'|].
  - injection H as <-. right. apply IH. reflexivity.
  - destruct (Nat.eqb_spec p pane) as [->|]; [|discriminate].
    injection H as <-. left. reflexivity.
Qed.

Lemma last_written_in (written : list (Pane * WritePosition)) (pane : Pane) :
  In pane (List.map fst written) ->
  exists wp, last_written written pane = Some wp /\ In (pane, wp) written.
Proof.
  intros H.
  assert (G : exists wp, last_written written pane = Some wp).
  { induction written as [|[p w] written IH]; simpl in *; [contradiction|].
    destruct (last_written written pane) as [w'|] eqn:E.
    - exists w'. reflexivity.
    - destruct H as [<-|Hin].
      + rewrite Nat.eqb_refl. exists w. reflexivity.
      + destruct (IH Hin) as [w' Hw']. discriminate. }
  destruct G as [wp Hwp]. exists wp. split; [exact Hwp|].
  apply last_written_some. exact Hwp.
Qed.

(** X14. After a render pass the geometry holds, for each pane that was
    written, the position written last for it, and nothing else: looking
    up a pane that was not written raises [KeyError], and no pane has two
    entries. *)
Theorem render_pass_lookup (written : list (Pane * WritePosition)) :
  (forall pane,
     getitem (render_pass written) pane =
     match last_written written pane with
     | Some wp => Ok wp
     | None => Raise KeyError
     end)
  /\ (forall pane,
        In pane (List.map fst (render_pass written))
        <-> In pane (List.map fst written))
  /\ NoDup (List.map fst (render_pass written)).
Proof.
  unfold render_pass, no_write_positions.
  destruct (@fold_setitem_keys written []) as [H1 H2]; [constructor|].
  split; [|split].
  - intros pane. rewrite fold_setitem. reflexivity.
  - intros pane. rewrite H2. simpl. intuition.
  - exact H1.
Qed.

End RenderPass.

(** ** Moving the focus over a rendered window *)

Section FocusMoves.

Import layout layout_more.

Lemma contains_spec (wp : WritePosition) (x y : Z) :
  contains wp x y = true <->
  xpos wp <= x < xpos wp + width wp /\ ypos wp <= y < ypos wp + height wp.
Proof.
  unfold contains. rewrite !andb_true_iff, !Z.leb_le, !Z.ltb_lt. tauto.
Qed.

Lemma contains_false (wp : WritePosition) (x y : Z) :
  ~ (xpos wp <= x < xpos wp + width wp /\ ypos wp <= y < ypos wp + height wp)
  -> contains wp x y = false.
Proof.
  intros H. destruct (contains wp x y) eqn:E; [|reflexivity].
  apply contains_spec in E. contradiction.
Qed.

(** The probe point lies outside the box it is computed from. *)
Lemma probe_outside (d : direction) (wp : WritePosition) :
  contains wp (fst (probe d wp)) (snd (probe d wp)) = false.
Proof.
  apply contains_false. destruct d; simpl; lia.
Qed.

(** X15. After a render pass in which the active pane was written, a
    move in any direction returns without raising; it leaves the geometry
    and the panes of the window as they are, and the pane that is active
    afterwards is one that was written in that pass. *)
Theorem move_focus_after_render (d : direction) (window : Window)
    (written : list (Pane * WritePosition)) :
  In (active_pane window) (List.map fst written) ->
  exists pymux',
    move_focus d (rendered window written) = Ok pymux'
    /\ pane_write_positions pymux' = render_pass written
    /\ panes (active_window pymux') = panes window
    /\ In (active_pane (active_window pymux')) (List.map fst written).
Proof.
  intros Hin. destruct (last_written_in _ _ Hin) as [wp [Hwp _]].
  rewrite move_focus_probe. unfold _move_focus, rendered. simpl.
  unfold render_pass at 1. rewrite fold_setitem, Hwp. simpl.
  destruct (pane_at (render_pass written) (fst (probe d wp))
                    (snd (probe d wp))) as [pane|] eqn:E.
  - eexists. split; [reflexivity|]. simpl.
    split; [reflexivity|]. split; [reflexivity|].
    destruct (pane_at_some _ _ _ E) as [wp' [Hp _]].
    apply (in_map fst) in Hp. simpl in Hp.
    unfold render_pass, no_write_positions in Hp.
    destruct (@fold_setitem_keys written []) as [_ H2]; [constructor|].
    apply H2 in Hp. destruct Hp as [Hp|[]]. exact Hp.
  - eexists. split; [reflexivity|]. simpl.
    split; [reflexivity|]. split; [reflexivity|]. exact Hin.
Qed.

(** X16. When the geometry holds the active pane only, as after the
    render of a zoomed window, a move in any direction changes nothing:
    the probe point is never inside the box it starts from. *)
Theorem move_focus_alone_is_noop (d : direction) (window : Window)
    (wp : WritePosition) :
  contains wp (fst (probe d wp)) (snd (probe d wp)) = false
  /\ move_focus d (rendered window [(active_pane window, wp)]) =
     Ok (rendered window [(active_pane window, wp)]).
Proof.
  split; [apply probe_outside|].
  rewrite move_focus_probe. unfold _move_focus, rendered, render_pass. simpl.
  rewrite Nat.eqb_refl. simpl. rewrite probe_outside. reflexivity.
Qed.

Lemma getitem_two (geometry : write_positions) (pa pb : Pane)
    (a b : WritePosition) :
  pa <> pb -> holds_both geometry pa pb a b ->
  getitem geometry pa = Ok a /\ getitem geometry pb = Ok b.
Proof.
  intros Hne [->| ->]; simpl; rewrite !Nat.eqb_refl;
    destruct (Nat.eqb_spec pa pb); try contradiction;
    destruct (Nat.eqb_spec pb pa); try congruence; split; reflexivity.
Qed.

Lemma pane_at_two (geometry : write_positions) (pa pb : Pane)
    (a b : WritePosition) (x y : Z) :
  holds_both geometry pa pb a b ->
  (contains a x y = true -> contains b x y = false ->
   pane_at geometry x y = Some pa)
  /\ (contains a x y = false -> contains b x y = true ->
      pane_at geometry x y = Some pb)
  /\ (contains a x y = false -> contains b x y = false ->
      pane_at geometry x y = None).
Proof.
  intros [->| ->]; repeat split; intros Ha Hb; simpl;
    rewrite ?Ha, ?Hb, ?Ha; reflexivity.
Qed.

(** X17. With two panes side by side, one column between them, the move
    to the right from the left pane makes the right pane active, and the
    move to the left from there makes the left pane active again: the two
    moves together leave the state as it was. *)
Theorem right_then_left_round_trip (pa pb : Pane) (a b : WritePosition)
    (geometry : write_positions) :
  pa <> pb ->
  side_by_side a b ->
  holds_both geometry pa pb a b ->
  move_focus Right (two_panes pa pb pa geometry) =
    Ok (two_panes pa pb pb geometry)
  /\ then_move (move_focus Right (two_panes pa pb pa geometry)) Left =
     Ok (two_panes pa pb pa geometry).
Proof.
  intros Hne [Hy [Hx [Hwa [Hwb [Hha Hhb]]]]] Hg.
  destruct (getitem_two Hne Hg) as [Ga Gb].
  assert (R : move_focus Right (two_panes pa pb pa geometry) =
              Ok (two_panes pa pb pb geometry)).
  { unfold move_focus, focus_right, _move_focus, two_panes. simpl.
    rewrite Ga. simpl.
    destruct (pane_at_two (xpos a + width a + 1) (ypos a) Hg) as [_ [H _]].
    rewrite H; [reflexivity| |].
    - apply contains_false. lia.
    - apply contains_spec. lia. }
  split; [exact R|]. rewrite R. unfold then_move. simpl.
  unfold focus_left, _move_focus, two_panes. simpl. rewrite Gb. simpl.
  destruct (pane_at_two (xpos b - 2) (ypos b) Hg) as [H _].
  rewrite H; [reflexivity| |].
  - apply contains_spec. lia.
  - apply contains_false. lia.
Qed.

(** X18. With two panes one above the other, the move up from the lower
    pane makes the upper pane active; the move down from the upper pane
    makes the lower pane active when the lower pane is at least two rows
    high, and changes nothing when it is one row high (its title bar
    only): the probe point is two rows below the upper pane's last
    row. *)
Theorem up_and_down_between_stacked_panes (pa pb : Pane)
    (a b : WritePosition) (geometry : write_positions) :
  pa <> pb ->
  stacked a b ->
  holds_both geometry pa pb a b ->
  move_focus Up (two_panes pa pb pb geometry) =
    Ok (two_panes pa pb pa geometry)
  /\ (2 <= height b ->
      move_focus Down (two_panes pa pb pa geometry) =
        Ok (two_panes pa pb pb geometry))
  /\ (height b = 1 ->
      move_focus Down (two_panes pa pb pa geometry) =
        Ok (two_panes pa pb pa geometry)).
Proof.
  intros Hne [Hx [Hy [Hwa [Hwb [Hha Hhb]]]]] Hg.
  destruct (getitem_two Hne Hg) as [Ga Gb].
  split; [|split].
  - unfold move_focus, focus_up, _move_focus, two_panes. simpl.
    rewrite Gb. simpl.
    destruct (pane_at_two (xpos b) (ypos b - 1) Hg) as [H _].
    rewrite H; [reflexivity| |].
    + apply contains_spec. lia.
    + apply contains_false. lia.
  - intros H2. unfold move_focus, focus_down, _move_focus, two_panes. simpl.
    rewrite Ga. simpl.
    destruct (pane_at_two (xpos a) (ypos a + height a + 1) Hg) as [_ [H _]].
    rewrite H; [reflexivity| |].
    + apply contains_false. lia.
    + apply contains_spec. lia.
  - intros H1. unfold move_focus, focus_down, _move_focus, two_panes. simpl.
    rewrite Ga. simpl.
    destruct (pane_at_two (xpos a) (ypos a + height a + 1) Hg) as [_ [_ H]].
    rewrite H; [reflexivity| |]; apply contains_false; lia.
Qed.

End FocusMoves.

Lemma move_focus_after_render_witness :
  let window := {| layout.active_pane := 0%nat;
                   layout.panes := [0%nat; 1%nat] |} in
  let written := [(0%nat, left_half); (1%nat, right_half)] in
  In (layout.active_pane window) (List.map fst written) /\
  exists pymux',
    layout.move_focus layout.Right (layout_more.rendered window written)
    = Ok pymux'
    /\ layout.pane_write_positions pymux' = layout_more.render_pass written
    /\ layout.panes (layout.active_window pymux') = layout.panes window
    /\ In (layout.active_pane (layout.active_window pymux'))
          (List.map fst written).
Proof.
  intros window written.
  assert (H : In (layout.active_pane window) (List.map fst written))
    by (left; reflexivity).
  split; [exact H|].
  exact (@move_focus_after_render layout.Right window written H).
Defined.

Lemma right_then_left_round_trip_witness :
  let geometry := [(1%nat, right_half); (0%nat, left_half)] in
  0%nat <> 1%nat /\
  side_by_side left_half right_half /\
  holds_both geometry 0%nat 1%nat left_half right_half /\
  layout.move_focus layout.Right (two_panes 0%nat 1%nat 0%nat geometry) =
    Ok (two_panes 0%nat 1%nat 1%nat geometry) /\
  layout_more.then_move
    (layout.move_focus layout.Right (two_panes 0%nat 1%nat 0%nat geometry)) layout.Left =
    Ok (two_panes 0%nat 1%nat 0%nat geometry).
Proof.
  intros geometry.
  assert (Hne : 0%nat <> 1%nat) by discriminate.
  assert (Hs : side_by_side left_half right_half)
    by (unfold side_by_side; simpl; lia).
  assert (Hg : holds_both geometry 0%nat 1%nat left_half right_half)
    by (right; reflexivity).
  split; [exact Hne|]. split; [exact Hs|]. split; [exact Hg|].
  exact (@right_then_left_round_trip 0%nat 1%nat left_half right_half
           geometry Hne Hs Hg).
Defined.

Lemma up_and_down_between_stacked_panes_witness :
  let geometry := [(0%nat, upper_half); (1%nat, lower_half)] in
  0%nat <> 1%nat /\
  stacked upper_half lower_half /\
  holds_both geometry 0%nat 1%nat upper_half lower_half /\
  2 <= layout.height lower_half /\
  layout.move_focus layout.Up (two_panes 0%nat 1%nat 1%nat geometry) =
    Ok (two_panes 0%nat 1%nat 0%nat geometry) /\
  layout.move_focus layout.Down (two_panes 0%nat 1%nat 0%nat geometry) =
    Ok (two_panes 0%nat 1%nat 1%nat geometry).
Proof.
  intros geometry.
  assert (Hne : 0%nat <> 1%nat) by discriminate.
  assert (Hs : stacked upper_half lower_half)
    by (unfold stacked; simpl; lia).
  assert (Hg : holds_both geometry 0%nat 1%nat upper_half lower_half)
    by (left; reflexivity).
  assert (H2 : 2 <= layout.height lower_half) by (simpl; lia).
  split; [exact Hne|]. split; [exact Hs|]. split; [exact Hg|].
  split; [exact H2|].
  pose proof (@up_and_down_between_stacked_panes 0%nat 1%nat upper_half
                lower_half geometry Hne Hs Hg) as [Hup [Hdown _]].
  split; [exact Hup|exact (Hdown H2)].
Defined.

(** ** The containers of the layout tree *)

Section Containers.

Import layout layout_more.

Lemma list_sum_cons (a : nat) (l : list nat) :
  list_sum (a :: l) = (a + list_sum l)%nat.
Proof. reflexivity. Qed.

Lemma with_lines_traced (content : list container) :
  flat_map traced (with_lines content) = flat_map traced content.
Proof.
  induction content as [|c content IH]; [reflexivity|].
  destruct content as [|c' content]; [reflexivity|].
  change (traced c ++ flat_map traced (with_lines (c' :: content))
          = traced c ++ flat_map traced (c' :: content)).
  rewrite IH. reflexivity.
Qed.

Lemma with_lines_lines (content : list container) :
  list_sum (List.map lines (with_lines content)) =
  (list_sum (List.map lines content) + (List.length content - 1))%nat.
Proof.
  induction content as [|c content IH]; [reflexivity|].
  destruct content as [|c' content]; [simpl; lia|].
  change (lines c + (1 + list_sum (List.map lines (with_lines (c' :: content))))
          = lines c + list_sum (List.map lines (c' :: content))
            + (List.length (c :: c' :: content) - 1))%nat.
  rewrite IH. simpl. lia.
Qed.

Lemma create_item_spec :
  forall s : split,
    traced (create_item s) = leaves s /\ lines (create_item s) = gaps s.
Proof.
  fix IH 1. intros [pane|items|items].
  - split; reflexivity.
  - cbn [create_item traced leaves lines gaps].
    induction items as [|x items IHi]; [split; reflexivity|].
    destruct (IH x) as [Hx1 Hx2]. destruct IHi as [Hi1 Hi2].
    cbn [List.map flat_map]. rewrite !list_sum_cons, Hx1, Hx2, Hi1, Hi2.
    split; reflexivity.
  - cbn [create_item traced leaves lines gaps].
    rewrite with_lines_traced, with_lines_lines, length_map.
    assert (G : flat_map traced (List.map create_item items)
                = flat_map leaves items
                /\ list_sum (List.map lines (List.map create_item items))
                   = list_sum (List.map gaps items)).
    { induction items as [|x items IHi]; [split; reflexivity|].
      destruct (IH x) as [Hx1 Hx2]. destruct IHi as [Hi1 Hi2].
      cbn [List.map flat_map]. rewrite !list_sum_cons, Hx1, Hx2, Hi1, Hi2.
      split; reflexivity. }
    destruct G as [G1 G2]. rewrite G1, G2. split; reflexivity.
Qed.

Lemma with_lines_length (content : list container) :
  List.length (with_lines content) = (2 * List.length content - 1)%nat.
Proof.
  induction content as [|c content IH]; [reflexivity|].
  destruct content as [|c' content]; [reflexivity|].
  change (S (S (List.length (with_lines (c' :: content))))
          = (2 * S (List.length (c' :: content)) - 1)%nat).
  rewrite IH. simpl. lia.
Qed.

(** The items' containers are at the even places. *)
Lemma with_lines_even (content : list container) :
  forall i, nth_error (with_lines content) (2 * i) = nth_error content i.
Proof.
  induction content as [|c content IH]; intros i.
  - destruct i; reflexivity.
  - destruct i as [|i]; [destruct content; reflexivity|].
    replace (2 * S i)%nat with (S (S (2 * i))) by lia.
    destruct content as [|c' content].
    + destruct i; reflexivity.
    + change (nth_error (with_lines (c' :: content)) (2 * i)
              = nth_error (c' :: content) i).
      apply IH.
Qed.

(** The lines are at the odd places before the last item. *)
Lemma with_lines_odd (content : list container) :
  forall i, (i + 1 < List.length content)%nat ->
            nth_error (with_lines content) (2 * i + 1) = Some C_vertical_line.
Proof.
  induction content as [|c content IH]; intros i Hi; [simpl in Hi; lia|].
  destruct content as [|c' content]; [simpl in Hi; lia|].
  destruct i as [|i]; [reflexivity|].
  replace (2 * S i + 1)%nat with (S (S (2 * i + 1))) by lia.
  change (nth_error (with_lines (c' :: content)) (2 * i + 1)
          = Some C_vertical_line).
  apply IH. simpl in Hi |- *. lia.
Qed.

(** What [_create_split] builds is laid out as the split is. *)
Lemma create_item_laid_out :
  forall s : split, laid_out s (create_item s).
Proof.
  fix IH 1. intros [pane|items|items].
  - constructor.
  - cbn [create_item]. apply laid_out_hsplit.
    induction items as [|x items IHi]; constructor; [apply IH|exact IHi].
  - cbn [create_item].
    apply laid_out_vsplit with (cs := List.map create_item items).
    + induction items as [|x items IHi]; constructor; [apply IH|exact IHi].
    + rewrite with_lines_length, length_map. reflexivity.
    + intros i _. apply with_lines_even.
    + intros i Hi. apply with_lines_odd. rewrite length_map. exact Hi.
Qed.

(** Children at the places of [with_lines] are [with_lines]. *)
Lemma with_lines_unique (cs : list container) :
  forall children : list container,
    List.length children = (2 * List.length cs - 1)%nat ->
    (forall i, (i < List.length cs)%nat ->
               nth_error children (2 * i) = nth_error cs i) ->
    (forall i, (i + 1 < List.length cs)%nat ->
               nth_error children (2 * i + 1) = Some C_vertical_line) ->
    children = with_lines cs.
Proof.
  induction cs as [|c cs IH]; intros children Hlen Heven Hodd.
  - destruct children; [reflexivity|discriminate].
  - destruct children as [|d children]; [simpl in Hlen; lia|].
    pose proof (Heven 0%nat ltac:(simpl; lia)) as H0. simpl in H0.
    injection H0 as ->.
    destruct cs as [|c' cs].
    + destruct children; [reflexivity|simpl in Hlen; lia].
    + destruct children as [|l children]; [simpl in Hlen; lia|].
      pose proof (Hodd 0%nat ltac:(simpl; lia)) as H1. simpl in H1.
      injection H1 as ->.
      change (with_lines (c :: c' :: cs))
        with (c :: C_vertical_line :: with_lines (c' :: cs)).
      f_equal. f_equal. apply IH.
      * simpl in Hlen |- *. lia.
      * intros i Hi.
        pose proof (Heven (S i) ltac:(simpl in Hi |- *; lia)) as H.
        replace (2 * S i)%nat with (S (S (2 * i))) in H by lia.
        exact H.
      * intros i Hi.
        pose proof (Hodd (S i) ltac:(simpl in Hi |- *; lia)) as H.
        replace (2 * S i + 1)%nat with (S (S (2 * i + 1))) in H by lia.
        exact H.
Qed.

(** A split is laid out in one way only. *)
Lemma laid_out_unique :
  forall (s : split) (c : container), laid_out s c -> c = create_item s.
Proof.
  fix IH 1. intros [pane|items|items] c H.
  - inversion H. reflexivity.
  - inversion H as [|? children HF|]; subst. cbn [create_item]. f_equal.
    clear H. revert children HF.
    induction items as [|x items IHi]; intros children HF;
      inversion HF as [|? d ? ds Hx Hrest]; subst; [reflexivity|].
    cbn [List.map]. f_equal; [apply IH; exact Hx|apply IHi; exact Hrest].
  - inversion H as [| |? cs children HF Hlen Heven Hodd]; subst.
    cbn [create_item]. f_equal.
    assert (E : cs = List.map create_item items).
    { clear H Hlen Heven Hodd. revert cs HF.
      induction items as [|x items IHi]; intros cs HF;
        inversion HF as [|? d ? ds Hx Hrest]; subst; [reflexivity|].
      cbn [List.map]. f_equal; [apply IH; exact Hx|apply IHi; exact Hrest]. }
    subst cs. apply with_lines_unique; rewrite ?length_map; assumption.
Qed.

(** X19. The content [LayoutManager.update] builds for a window that is
    not zoomed is laid out as the window's tree is, and is the only
    container so laid out: every split becomes a split of the same kind,
    every pane its traced container; the children of an [HSplit] are its
    items' containers, in order; in the children of a [VSplit] the items'
    containers stand at the places 0, 2, 4, ..., a vertical line stands at
    each place between two of them, and none before the first or after the
    last.  So the content traces every pane exactly as often as it occurs
    in the tree, in tree order, and has as many lines as the [VSplit]s
    have neighbours.  For a zoomed window the content is the traced
    container of the active pane, zoomed, and has no line.  The call fails
    only for a window that is not zoomed and whose root is a pane. *)
Theorem update_traces_the_panes (active : Pane) (root : split) :
  match update false active root with
  | Ok c =>
      (forall c', laid_out root c' <-> c' = c)
      /\ traced c = leaves root /\ lines c = gaps root
  | Raise _ => exists pane, root = A_Pane pane
  end
  /\ update true active root = Ok (C_TracePaneWritePosition active true)
  /\ exists c, update true active root = Ok c
               /\ traced c = [active] /\ lines c = 0%nat.
Proof.
  split; [|split].
  - unfold update, _create_split.
    destruct root as [pane|items|items].
    + exists pane. reflexivity.
    + split; [|apply create_item_spec].
      intros c'. split; [apply laid_out_unique|].
      intros ->. apply create_item_laid_out.
    + split; [|apply create_item_spec].
      intros c'. split; [apply laid_out_unique|].
      intros ->. apply create_item_laid_out.
  - reflexivity.
  - eexists. split; [reflexivity|]. split; reflexivity.
Qed.

End Containers.

(** ** The reverse-video pass *)

Section ReverseVideoFacts.

Import layout layout_more.

Variable DEFAULT_TOKEN : list element.

Local Abbreviation reverse_cell := (reverse_cell DEFAULT_TOKEN).
Local Abbreviation reverse_video := (reverse_video DEFAULT_TOKEN).

Lemma member_in (x : Z) (xs : list Z) : member x xs = true <-> In x xs.
Proof.
  unfold member. rewrite existsb_exists. split.
  - intros [z [Hz E]]. apply Z.eqb_eq in E. subst. exact Hz.
  - intros H. exists x. split; [exact H|apply Z.eqb_refl].
Qed.

Lemma member_range (x a n : Z) :
  member x (layout_more.range a n) = (a <=? x) && (x <? a + n).
Proof.
  destruct (member x (layout_more.range a n)) eqn:E; symmetry.
  - apply member_in in E. unfold layout_more.range in E.
    apply in_map_iff in E. destruct E as [i [<- Hi]]. apply in_seq in Hi.
    apply andb_true_iff. split; [apply Z.leb_le|apply Z.ltb_lt]; lia.
  - apply andb_false_iff.
    destruct (Z.leb_spec a x) as [H1|H1]; [|left; reflexivity].
    destruct (Z.ltb_spec x (a + n)) as [H2|H2]; [|right; reflexivity].
    exfalso. assert (C : member x (layout_more.range a n) = true).
    { apply member_in. unfold layout_more.range. apply in_map_iff.
      exists (Z.to_nat (x - a)). split; [lia|]. apply in_seq. lia. }
    congruence.
Qed.

Lemma range_nodup (a n : Z) : NoDup (layout_more.range a n).
Proof.
  unfold layout_more.range.
  generalize (seq_NoDup (Z.to_nat n) 0).
  induction 1 as [|i l Hi _ IH]; simpl; constructor; [|exact IH].
  intros C. apply in_map_iff in C. destruct C as [j [Hj Hin]].
  assert (j = i) by lia. subst. contradiction.
Qed.

(** The inner loop on row [y0]. *)
Lemma reverse_row (y0 : Z) (xs : list Z) :
  NoDup xs ->
  forall (b : data_buffer) (y x : Z),
    fold_left (fun b x => setcell b y0 x (reverse_cell (b y0 x))) xs b y x =
    if (y =? y0) && member x xs then reverse_cell (b y x) else b y x.
Proof.
  induction 1 as [|x0 xs Hx0 _ IH]; intros b y x.
  - simpl. rewrite andb_false_r. reflexivity.
  - cbn [fold_left]. rewrite IH. unfold member. cbn [existsb].
    fold (member x xs). unfold setcell.
    destruct (Z.eqb_spec y y0) as [->|Hy]; simpl; [|reflexivity].
    destruct (member x xs) eqn:Em.
    + apply member_in in Em.
      destruct (Z.eqb_spec x x0) as [->|Hx]; [contradiction|].
      rewrite orb_true_r. reflexivity.
    + rewrite orb_false_r.
      destruct (Z.eqb_spec x x0) as [->|Hx]; reflexivity.
Qed.

(** The outer loop on the rows [ys]. *)
Lemma reverse_rows (xs ys : list Z) :
  NoDup xs -> NoDup ys ->
  forall (b : data_buffer) (y x : Z),
    fold_left
      (fun b y0 =>
         fold_left (fun b x => setcell b y0 x (reverse_cell (b y0 x))) xs b)
      ys b y x =
    if member y ys && member x xs then reverse_cell (b y x) else b y x.
Proof.
  intros Hxs. induction 1 as [|y0 ys Hy0 _ IH]; intros b y x.
  - reflexivity.
  - cbn [fold_left]. rewrite IH, (reverse_row y0 Hxs).
    change (member y (y0 :: ys)) with ((y =? y0) || member y ys).
    destruct (member y ys) eqn:Em;
      destruct (Z.eqb_spec y y0) as [->|Hy];
      try (apply member_in in Em; contradiction);
      destruct (member x xs); reflexivity.
Qed.

Lemma reverse_video_cell (wp : WritePosition) (b : data_buffer) (y x : Z) :
  reverse_video true wp b y x =
  if contains wp x y then reverse_cell (b y x) else b y x.
Proof.
  unfold layout_more.reverse_video.
  rewrite (reverse_rows (range_nodup _ _) (range_nodup _ _)).
  rewrite !member_range. unfold contains.
  rewrite (andb_comm ((xpos wp <=? x) && (x <? xpos wp + width wp))).
  reflexivity.
Qed.

Lemma invert_last_app (r : list element) (e : element) :
  invert_last (r ++ [e]) = r ++ [E_bool (negb (truth e))].
Proof.
  induction r as [|a r IH]; [reflexivity|].
  change ((a :: r) ++ [e]) with (a :: (r ++ [e])).
  destruct (r ++ [e]) as [|z zs] eqn:E.
  - destruct r; discriminate.
  - change (a :: invert_last (z :: zs) = (a :: r) ++ [E_bool (negb (truth e))]).
    rewrite IH. reflexivity.
Qed.

Lemma reverse_cell_some (ch : unicode) (t : list element) :
  t <> [] ->
  reverse_cell {| char := ch; token := Some t |} =
  if is_C t then {| char := ch; token := Some (invert_last t) |}
  else {| char := ch; token := Some t |}.
Proof.
  intros H. destruct t as [|e t]; [contradiction|]. reflexivity.
Qed.

Lemma is_C_app (r s : list element) : r <> [] -> is_C (r ++ s) = is_C r.
Proof. intros H. destruct r; [contradiction|reflexivity]. Qed.

Lemma reverse_cell_twice (c : Char) :
  reversible c -> reverse_cell (reverse_cell c) = c.
Proof.
  intros [t [Ht [Hne HC]]]. destruct c as [ch tok]. simpl in Ht. subst tok.
  rewrite (reverse_cell_some ch Hne).
  destruct (is_C t) eqn:EC.
  - destruct (HC eq_refl) as [r [bb [-> Hr]]].
    rewrite invert_last_app. simpl truth.
    rewrite reverse_cell_some by (destruct r; discriminate).
    rewrite is_C_app in EC |- * by assumption. rewrite EC.
    rewrite invert_last_app. simpl truth. rewrite negb_involutive.
    reflexivity.
  - rewrite (reverse_cell_some ch Hne), EC. reflexivity.
Qed.

(** A token list that does not start with ['C'] is no ['C'] tuple. *)
Lemma is_C_false (t : list element) :
  (forall r, t <> E_str "C" :: r) -> is_C t = false.
Proof.
  intros H. destruct t as [|[s| |] t]; try reflexivity.
  cbn [is_C]. destruct (String.eqb_spec s "C") as [->|Hs]; [|reflexivity].
  exfalso. exact (H t eq_refl).
Qed.

(** X20. The reverse-video pass changes the cells inside the write
    position of the pane and no other.  Let [t] be the token the loop
    reads in a cell inside the position, [list(char.token or
    DEFAULT_TOKEN)].  When [t] is ['C'] followed by at least one more
    element, the cell gets the token with the same elements but the last,
    which is replaced by the boolean [not] of its truth value (so a flag
    [v] becomes [not v]); when [t] is ['C'] alone the cell gets the token
    [(False,)]; in both cases the character is kept.  When [t] does not
    start with ['C'] the cell is what it was.  A cell outside the position
    is what it was; no character changes anywhere; and without the flag
    nothing changes. *)
Theorem reverse_video_touches_the_box_only (wp : WritePosition)
    (b : data_buffer) (y x : Z) :
  let inside := xpos wp <= x < xpos wp + width wp
                /\ ypos wp <= y < ypos wp + height wp in
  let t := token_list DEFAULT_TOKEN (b y x) in
  (inside ->
     (forall r e, t = E_str "C" :: r ++ [e] ->
        reverse_video true wp b y x =
        {| char := char (b y x);
           token := Some (E_str "C" :: r ++ [E_bool (negb (truth e))]) |})
     /\ (forall r v, t = E_str "C" :: r ++ [E_bool v] ->
        reverse_video true wp b y x =
        {| char := char (b y x);
           token := Some (E_str "C" :: r ++ [E_bool (negb v)]) |})
     /\ (t = [E_str "C"] ->
        reverse_video true wp b y x =
        {| char := char (b y x); token := Some [E_bool false] |})
     /\ ((forall r, t <> E_str "C" :: r) ->
        reverse_video true wp b y x = b y x))
  /\ (~ inside -> reverse_video true wp b y x = b y x)
  /\ char (reverse_video true wp b y x) = char (b y x)
  /\ reverse_video false wp b y x = b y x.
Proof.
  intros inside t.
  assert (Hin : inside -> contains wp x y = true).
  { intros [[H1 H2] [H3 H4]]. unfold contains.
    repeat (apply andb_true_iff; split);
      try (apply Z.leb_le; assumption); apply Z.ltb_lt; assumption. }
  assert (Hout : ~ inside -> contains wp x y = false).
  { intros H. destruct (contains wp x y) eqn:E; [|reflexivity].
    exfalso. apply H. unfold contains in E.
    apply andb_true_iff in E. destruct E as [E1 E2].
    apply andb_true_iff in E1. destruct E1 as [E1 E1'].
    apply andb_true_iff in E2. destruct E2 as [E2 E2'].
    apply Z.leb_le in E1. apply Z.ltb_lt in E1'.
    apply Z.leb_le in E2. apply Z.ltb_lt in E2'.
    split; split; assumption. }
  assert (HC : forall r e, t = E_str "C" :: r ++ [e] ->
             contains wp x y = true ->
             reverse_video true wp b y x =
             {| char := char (b y x);
                token := Some (E_str "C" :: r ++ [E_bool (negb (truth e))]) |}).
  { intros r e Ht Hc. rewrite reverse_video_cell, Hc.
    unfold layout_more.reverse_cell. fold t. rewrite Ht.
    change (E_str "C" :: r ++ [e]) with ((E_str "C" :: r) ++ [e]).
    rewrite invert_last_app. reflexivity. }
  split; [|split; [|split]].
  - intros Hi. split; [|split; [|split]].
    + intros r e Ht. apply HC; [exact Ht|apply Hin; exact Hi].
    + intros r v Ht. apply (HC r (E_bool v)); [exact Ht|apply Hin; exact Hi].
    + intros Ht. rewrite reverse_video_cell, (Hin Hi).
      unfold layout_more.reverse_cell. fold t. rewrite Ht. reflexivity.
    + intros Ht. rewrite reverse_video_cell, (Hin Hi).
      unfold layout_more.reverse_cell. fold t.
      rewrite (is_C_false Ht). reflexivity.
  - intros Ho. rewrite reverse_video_cell, (Hout Ho). reflexivity.
  - rewrite reverse_video_cell.
    destruct (contains wp x y); [|reflexivity].
    unfold layout_more.reverse_cell.
    destruct (is_C (token_list DEFAULT_TOKEN (b y x))); reflexivity.
  - reflexivity.
Qed.

(** X21. Running the reverse-video pass twice over the same write
    position gives back the screen, cell for cell, when every cell
    inside the position has a token on which the pass can be undone (a
    non-empty tuple that is not a ['C'] tuple, or a ['C'] tuple of at
    least two elements ending in a boolean). *)
Theorem reverse_video_twice (wp : WritePosition) (b : data_buffer) :
  (forall y x, contains wp x y = true -> reversible (b y x)) ->
  forall y x,
    reverse_video true wp (reverse_video true wp b) y x = b y x.
Proof.
  intros H y x. rewrite !reverse_video_cell.
  destruct (contains wp x y) eqn:E; [|reflexivity].
  apply reverse_cell_twice. apply H. exact E.
Qed.

End ReverseVideoFacts.

(** ** Commands through the dispatcher *)

Section Dispatch.

Import commands commands_more.

Variable LayoutTypes_ALL : list string.
Variable Window : Type.
Variable Window_select_layout : Window -> string -> Window.
Variable select_next_layout select_previous_layout : Window -> Window.
Variable set_chosen_name : Window -> string -> Window.
Variable change_size_for_active_pane : Window -> Z -> Z -> Z -> Z -> Window.
Variable docopt : string -> list string -> option variables.
Variable py_int : string -> option Z.

Local Abbreviation call :=
  (call LayoutTypes_ALL Window_select_layout select_next_layout
     select_previous_layout set_chosen_name change_size_for_active_pane
     docopt py_int).

Lemma in_ALL_true (layout_type : string) :
  In layout_type LayoutTypes_ALL ->
  in_ALL LayoutTypes_ALL layout_type = true.
Proof.
  intros H. unfold in_ALL. apply existsb_exists.
  exists layout_type. split; [exact H|apply String.eqb_refl].
Qed.

(** X22. For every command registered through the decorator [cmd], with
    whatever handler: when docopt rejects the parameters, the handler
    body is not run, the state is left as it was, and the dispatcher
    returns after showing ['Usage: <name> <options>']. *)
Theorem usage_error_is_shown
    (other_handlers : string -> option (handler Window))
    (command name options : string)
    (func : Pymux Window -> variables -> result Window)
    (pymux : Pymux Window) (parameters : list string) :
  COMMANDS_TO_HANDLERS LayoutTypes_ALL Window_select_layout docopt
    other_handlers command = Some (command_wrapper docopt name options func) ->
  docopt (usage_doc name options) parameters = None ->
  call_command_handler LayoutTypes_ALL Window_select_layout docopt
    other_handlers command pymux parameters =
  (show_message pymux ("Usage: " ++ name ++ " " ++ options)%string, Ok tt).
Proof.
  intros Hreg Hdoc. unfold call_command_handler. rewrite Hreg.
  unfold command_wrapper. fold (usage_doc name options). rewrite Hdoc.
  reflexivity.
Qed.

(** X23. [select-layout] with a name of [LayoutTypes._ALL] applies the
    layout to the active window, leaves the message as it was and
    returns; when there is no active window, the [AttributeError] of the
    call on [None] leaves the dispatcher, which catches
    [CommandException] only. *)
Theorem select_layout_known_name (pymux : Pymux Window)
    (parameters : list string) (vars : variables) (layout_type : string) :
  docopt select_layout_usage parameters = Some vars ->
  vars "<layout-type>"%string = Some layout_type ->
  In layout_type LayoutTypes_ALL ->
  call "select-layout" pymux parameters =
  match get_active_window pymux with
  | Some w =>
      ({| get_active_window := Some (Window_select_layout w layout_type);
          message := message pymux |}, Ok tt)
  | None => (pymux, Raise AttributeError)
  end.
Proof.
  intros Hd Hv Hin.
  unfold commands_more.call, call_command_handler, COMMANDS_TO_HANDLERS.
  simpl. unfold command_wrapper.
  change ("Usage:" ++ nl ++ "    " ++ "select-layout" ++ " "
          ++ "<layout-type>")%string with select_layout_usage.
  rewrite Hd. unfold select_layout. rewrite Hv, (in_ALL_true _ Hin).
  destruct (get_active_window pymux); reflexivity.
Qed.

(** X24. Without an active window the commands differ: [next-layout],
    [previous-layout] and [resize-pane] (with integers) return and change
    nothing, while [rename-window] raises [AttributeError] out of the
    dispatcher. *)
Theorem commands_without_a_window (pymux : Pymux Window)
    (parameters : list string) (vars : variables) :
  get_active_window pymux = None ->
  (docopt (usage_doc "next-layout" "") parameters = Some vars ->
   call "next-layout" pymux parameters = (pymux, Ok tt))
  /\ (docopt (usage_doc "previous-layout" "") parameters = Some vars ->
      call "previous-layout" pymux parameters = (pymux, Ok tt))
  /\ (docopt (usage_doc "resize-pane"
                "[(-L <left>)] [(-U <up>)] [(-D <down>)] [(-R <right>)]")
        parameters = Some vars ->
      int_or_0 py_int vars "<left>" <> None ->
      int_or_0 py_int vars "<right>" <> None ->
      int_or_0 py_int vars "<up>" <> None ->
      int_or_0 py_int vars "<down>" <> None ->
      call "resize-pane" pymux parameters = (pymux, Ok tt))
  /\ (docopt (usage_doc "rename-window" "<name>") parameters = Some vars ->
      vars "<name>"%string <> None ->
      call "rename-window" pymux parameters = (pymux, Raise AttributeError)).
Proof.
  intros Hw.
  unfold commands_more.call, call_command_handler, COMMANDS_TO_HANDLERS,
    window_handlers.
  repeat split.
  - intros Hd. simpl. unfold command_wrapper.
    fold (usage_doc "next-layout" ""). rewrite Hd.
    unfold next_layout. rewrite Hw. reflexivity.
  - intros Hd. simpl. unfold command_wrapper.
    fold (usage_doc "previous-layout" ""). rewrite Hd.
    unfold previous_layout. rewrite Hw. reflexivity.
  - intros Hd Hl Hr Hu Hdn. simpl. unfold command_wrapper.
    fold (usage_doc "resize-pane"
            "[(-L <left>)] [(-U <up>)] [(-D <down>)] [(-R <right>)]").
    rewrite Hd. unfold resize_pane.
    destruct (int_or_0 py_int vars "<left>"); [|contradiction].
    destruct (int_or_0 py_int vars "<right>"); [|contradiction].
    destruct (int_or_0 py_int vars "<up>"); [|contradiction].
    destruct (int_or_0 py_int vars "<down>"); [|contradiction].
    rewrite Hw. reflexivity.
  - intros Hd Hn. simpl. unfold command_wrapper.
    fold (usage_doc "rename-window" "<name>"). rewrite Hd.
    unfold rename_window.
    destruct (vars "<name>"%string); [|contradiction].
    rewrite Hw. reflexivity.
Qed.

(** X25. [resize-pane] with an amount that is not an integer changes no
    window: the dispatcher shows ['Expecting an integer.'] and returns,
    whichever of the four amounts it is and whatever the others are. *)
Theorem resize_pane_rejects_non_integers (pymux : Pymux Window)
    (parameters : list string) (vars : variables) :
  docopt (usage_doc "resize-pane"
            "[(-L <left>)] [(-U <up>)] [(-D <down>)] [(-R <right>)]")
    parameters = Some vars ->
  int_or_0 py_int vars "<left>" = None
  \/ int_or_0 py_int vars "<right>" = None
  \/ int_or_0 py_int vars "<up>" = None
  \/ int_or_0 py_int vars "<down>" = None ->
  call "resize-pane" pymux parameters =
  (show_message pymux "Expecting an integer.", Ok tt).
Proof.
  intros Hd H.
  unfold commands_more.call, call_command_handler, COMMANDS_TO_HANDLERS,
    window_handlers.
  simpl. unfold command_wrapper.
  fold (usage_doc "resize-pane"
          "[(-L <left>)] [(-U <up>)] [(-D <down>)] [(-R <right>)]").
  rewrite Hd. unfold resize_pane.
  destruct (int_or_0 py_int vars "<left>");
    destruct (int_or_0 py_int vars "<right>");
    destruct (int_or_0 py_int vars "<up>");
    destruct (int_or_0 py_int vars "<down>");
    try reflexivity.
  destruct H as [H|[H|[H|H]]]; discriminate.
Qed.

End Dispatch.

Lemma update_traces_the_panes_witness :
  let T := fun pane => layout_more.C_TracePaneWritePosition pane false in
  layout_more.update false 0%nat
    (layout_more.A_VSplit
       [layout_more.A_Pane 0%nat;
        layout_more.A_HSplit [layout_more.A_Pane 1%nat;
                              layout_more.A_Pane 2%nat];
        layout_more.A_Pane 3%nat]) =
  Ok (layout_more.C_VSplit
        [T 0%nat; layout_more.C_vertical_line;
         layout_more.C_HSplit [T 1%nat; T 2%nat];
         layout_more.C_vertical_line; T 3%nat]) /\
  layout_more.laid_out
    (layout_more.A_VSplit
       [layout_more.A_Pane 0%nat;
        layout_more.A_HSplit [layout_more.A_Pane 1%nat;
                              layout_more.A_Pane 2%nat];
        layout_more.A_Pane 3%nat])
    (layout_more.C_VSplit
        [T 0%nat; layout_more.C_vertical_line;
         layout_more.C_HSplit [T 1%nat; T 2%nat];
         layout_more.C_vertical_line; T 3%nat]).
Proof.
  intros T. split; [reflexivity|].
  exact (proj2 (proj1 (proj1 (update_traces_the_panes 0%nat
                                (layout_more.A_VSplit
                                   [layout_more.A_Pane 0%nat;
                                    layout_more.A_HSplit
                                      [layout_more.A_Pane 1%nat;
                                       layout_more.A_Pane 2%nat];
                                    layout_more.A_Pane 3%nat]))) _)
           eq_refl).
Defined.

Lemma reverse_video_touches_the_box_only_witness :
  let default := [layout_more.E_str "C"; layout_more.E_bool false] in
  (0 <= 3 < 0 + 40 /\ 0 <= 5 < 0 + 24) /\
  layout_more.token_list default (plain_screen 5 3) =
    layout_more.E_str "C"
      :: [layout_more.E_str "red"] ++ [layout_more.E_bool false] /\
  layout_more.reverse_video default true left_half plain_screen 5 3 =
    {| layout_more.char := [97];
       layout_more.token :=
         Some [layout_more.E_str "C"; layout_more.E_str "red";
               layout_more.E_bool true] |}.
Proof.
  intros default.
  assert (H1 : 0 <= 3 < 0 + 40 /\ 0 <= 5 < 0 + 24) by lia.
  assert (H2 : layout_more.token_list default (plain_screen 5 3) =
               layout_more.E_str "C"
                 :: [layout_more.E_str "red"] ++ [layout_more.E_bool false])
    by reflexivity.
  split; [exact H1|]. split; [exact H2|].
  exact (proj1 (proj2 (proj1 (@reverse_video_touches_the_box_only default
                                left_half plain_screen 5 3) H1))
           [layout_more.E_str "red"] false H2).
Defined.

Lemma reverse_video_twice_witness :
  let default := [layout_more.E_str "C"; layout_more.E_bool false] in
  (forall y x, layout.contains left_half x y = true ->
               layout_more.reversible (plain_screen y x)) /\
  forall y x,
    layout_more.reverse_video default true left_half
      (layout_more.reverse_video default true left_half plain_screen) y x
    = plain_screen y x.
Proof.
  intros default.
  assert (H : forall y x, layout.contains left_half x y = true ->
                          layout_more.reversible (plain_screen y x)).
  { intros y x _. eexists. split; [reflexivity|]. split; [discriminate|].
    intros _.
    exists [layout_more.E_str "C"; layout_more.E_str "red"], false.
    split; [reflexivity|discriminate]. }
  split; [exact H|].
  exact (@reverse_video_twice default left_half plain_screen H).
Defined.

Lemma usage_error_is_shown_witness :
  commands.COMMANDS_TO_HANDLERS sample_layouts (fun _ l => l) sample_docopt
    (fun _ => None) "select-layout" =
    Some (commands.command_wrapper sample_docopt "select-layout"
            "<layout-type>" (commands.select_layout sample_layouts
                               (fun _ l => l))) /\
  sample_docopt (commands_more.usage_doc "select-layout" "<layout-type>")
    [] = None /\
  commands.call_command_handler sample_layouts (fun _ l => l) sample_docopt
    (fun _ => None) "select-layout" sample_pymux [] =
  ({| commands.get_active_window := Some "tiled"%string;
      commands.message := Some "Usage: select-layout <layout-type>"%string |},
   Ok tt).
Proof.
  split; [reflexivity|]. split; [reflexivity|].
  exact (@usage_error_is_shown sample_layouts string (fun _ l => l)
           sample_docopt (fun _ => None) "select-layout" "select-layout"
           "<layout-type>" _ sample_pymux [] eq_refl eq_refl).
Defined.

Lemma select_layout_known_name_witness :
  sample_docopt select_layout_usage ["tiled"%string] =
    bind_keys ["<layout-type>"%string] ["tiled"%string] /\
  In "tiled"%string sample_layouts /\
  commands_more.call sample_layouts (fun _ l => l) (fun w => w) (fun w => w)
    (fun w _ => w) (fun w _ _ _ _ => w) sample_docopt sample_int
    "select-layout" no_window ["tiled"%string] =
  (no_window, Raise AttributeError).
Proof.
  assert (Hd : sample_docopt select_layout_usage ["tiled"%string] =
               bind_keys ["<layout-type>"%string] ["tiled"%string])
    by reflexivity.
  assert (Hin : In "tiled"%string sample_layouts)
    by (simpl; intuition).
  split; [exact Hd|]. split; [exact Hin|].
  exact (@select_layout_known_name sample_layouts string (fun _ l => l)
           (fun w => w) (fun w => w) (fun w _ => w) (fun w _ _ _ _ => w)
           sample_docopt sample_int no_window ["tiled"%string] _ "tiled"
           Hd eq_refl Hin).
Defined.

Lemma commands_without_a_window_witness :
  commands.get_active_window no_window = None /\
  commands_more.call sample_layouts (fun _ l => l) (fun w => w) (fun w => w)
    (fun w _ => w) (fun w _ _ _ _ => w) sample_docopt sample_int
    "next-layout" no_window [] = (no_window, Ok tt) /\
  commands_more.call sample_layouts (fun _ l => l) (fun w => w) (fun w => w)
    (fun w _ => w) (fun w _ _ _ _ => w) sample_docopt sample_int
    "rename-window" no_window ["logs"%string] =
    (no_window, Raise AttributeError).
Proof.
  assert (Hw : commands.get_active_window no_window = None) by reflexivity.
  split; [exact Hw|].
  pose proof (@commands_without_a_window sample_layouts string
                (fun _ l => l) (fun w => w) (fun w => w) (fun w _ => w)
                (fun w _ _ _ _ => w) sample_docopt sample_int no_window)
    as H.
  split.
  - exact (proj1 (H [] (fun _ => None) Hw) eq_refl).
  - refine (proj2 (proj2 (proj2 (H ["logs"%string] _ Hw))) eq_refl _).
    discriminate.
Defined.

Lemma resize_pane_rejects_non_integers_witness :
  sample_docopt
    (commands_more.usage_doc "resize-pane"
       "[(-L <left>)] [(-U <up>)] [(-D <down>)] [(-R <right>)]")
    ["5"; "x"; "5"; "5"]%string =
    bind_keys ["<left>"; "<up>"; "<down>"; "<right>"]%string
      ["5"; "x"; "5"; "5"]%string /\
  commands_more.call sample_layouts (fun _ l => l) (fun w => w) (fun w => w)
    (fun w _ => w) (fun w _ _ _ _ => w) sample_docopt sample_int
    "resize-pane" sample_pymux ["5"; "x"; "5"; "5"]%string =
  ({| commands.get_active_window := Some "tiled"%string;
      commands.message := Some "Expecting an integer."%string |}, Ok tt).
Proof.
  split; [reflexivity|].
  refine (@resize_pane_rejects_non_integers sample_layouts string
            (fun _ l => l) (fun w => w) (fun w => w) (fun w _ => w)
            (fun w _ _ _ _ => w) sample_docopt sample_int sample_pymux
            ["5"; "x"; "5"; "5"]%string _ eq_refl _).
  right. right. left. reflexivity.
Defined.

(** ** The [send-signal] command *)

Section SignalCommand.

Import process commands_more.

Variable SIGKILL SIGTERM SIGUSR1 SIGUSR2 SIGHUP : Z.

Local Abbreviation SIGNALS := (SIGNALS SIGKILL SIGTERM SIGUSR1 SIGUSR2 SIGHUP).
Local Abbreviation send_signal_command :=
  (send_signal_command SIGKILL SIGTERM SIGUSR1 SIGUSR2 SIGHUP).

Lemma SIGNALS_known (name : string) :
  SIGNALS name <> None <-> known_signal name.
Proof.
  unfold commands_more.SIGNALS, known_signal. simpl.
  destruct (String.eqb_spec name "kill") as [->|H1]; [intuition discriminate|].
  destruct (String.eqb_spec name "term") as [->|H2]; [intuition discriminate|].
  destruct (String.eqb_spec name "usr1") as [->|H3]; [intuition discriminate|].
  destruct (String.eqb_spec name "usr2") as [->|H4]; [intuition discriminate|].
  destruct (String.eqb_spec name "hup") as [->|H5]; [intuition discriminate|].
  split; [intros C; contradiction|].
  intros [E|[E|[E|[E|[E|[]]]]]]; symmetry in E; contradiction.
Qed.

(** X26. [send-signal] takes the five names [kill], [term], [usr1],
    [usr2] and [hup], in lower case, and nothing else: any other name
    raises ['Invalid signal'] and no signal is sent.  With one of the
    names (their numbers not being 0), a running child gets exactly that
    signal, once, and a child already reaped gets nothing and nothing is
    raised. *)
Theorem send_signal_command_names (kill_answer : option Z)
    (vars : commands.variables) (name : string) (p : Process) :
  SIGKILL <> 0 -> SIGTERM <> 0 -> SIGUSR1 <> 0 -> SIGUSR2 <> 0 ->
  SIGHUP <> 0 ->
  vars "<signal>"%string = Some name ->
  (~ known_signal name ->
   forall active,
     send_signal_command kill_answer active vars =
     (Raise (CommandException "Invalid signal"), []))
  /\ (known_signal name ->
      exists value,
        SIGNALS name = Some value
        /\ (forall n, pid p = Some n -> n <> 0 -> is_terminated p = false ->
              send_signal_command kill_answer (Some p) vars =
              (kill_outcome kill_answer, [os_kill n value]))
        /\ (is_terminated p = true ->
            send_signal_command kill_answer (Some p) vars = (Ok tt, []))).
Proof.
  intros H1 H2 H3 H4 H5 Hv. split.
  - intros Hn active. unfold commands_more.send_signal_command. rewrite Hv.
    destruct (SIGNALS name) as [value|] eqn:E; [|reflexivity].
    exfalso. apply Hn. apply SIGNALS_known. rewrite E. discriminate.
  - intros Hk. apply SIGNALS_known in Hk.
    destruct (SIGNALS name) as [value|] eqn:E; [|contradiction].
    assert (Hnz : value <> 0).
    { unfold commands_more.SIGNALS in E.
      repeat match type of E with
             | (if ?b then _ else _) = _ => destruct b
             end; try discriminate; injection E as <-; assumption. }
    exists value. split; [reflexivity|].
    unfold commands_more.send_signal_command. rewrite Hv, E.
    destruct (Z.eqb_spec value 0) as [Hz|Hz]; [contradiction|]. split.
    + intros n Hp Hn Ht. apply send_signal_running; assumption.
    + intros Ht. apply send_signal_idle. left. assumption.
Qed.

End SignalCommand.

Lemma send_signal_command_names_witness :
  let vars := fun key : string =>
                if String.eqb key "<signal>" then Some "term"%string
                else None in
  vars "<signal>"%string = Some "term"%string /\
  commands_more.known_signal "term" /\
  commands_more.send_signal_command 9 15 10 12 1 None (Some pasting_process)
    vars = (Ok tt, [process.os_kill 4321 15]) /\
  commands_more.send_signal_command 9 15 10 12 1 None (Some reaped_process)
    vars = (Ok tt, []).
Proof.
  intros vars.
  assert (Hv : vars "<signal>"%string = Some "term"%string) by reflexivity.
  assert (Hk : commands_more.known_signal "term")
    by (right; left; reflexivity).
  split; [exact Hv|]. split; [exact Hk|].
  split.
  - destruct (proj2 (@send_signal_command_names 9 15 10 12 1 None vars "term"
                       pasting_process ltac:(lia) ltac:(lia) ltac:(lia)
                       ltac:(lia) ltac:(lia) Hv) Hk)
      as [value [Hs [Hrun _]]].
    injection Hs as <-.
    exact (Hrun 4321 eq_refl ltac:(lia) eq_refl).
  - destruct (proj2 (@send_signal_command_names 9 15 10 12 1 None vars "term"
                       reaped_process ltac:(lia) ltac:(lia) ltac:(lia)
                       ltac:(lia) ltac:(lia) Hv) Hk)
      as [value [_ [_ Hidle]]].
    exact (Hidle eq_refl).
Defined.

(** ** The background *)

Section Background.

Import layout_more background.

Lemma dots_row (y0 : Z) (xs : list Z) :
  forall (b : data_buffer) (y x : Z),
    fold_left
      (fun screen x =>
         if (x + y0) mod 2 =? 0 then setcell screen y0 x dot else screen)
      xs b y x =
    if (y =? y0) && member x xs && ((x + y0) mod 2 =? 0) then dot
    else b y x.
Proof.
  induction xs as [|x0 xs IH]; intros b y x.
  - simpl. rewrite andb_false_r. reflexivity.
  - cbn [fold_left]. rewrite IH.
    change (member x (x0 :: xs)) with ((x =? x0) || member x xs).
    destruct (Z.eqb_spec y y0) as [->|Hy]; simpl.
    + destruct (member x xs); simpl.
      * rewrite orb_true_r. simpl.
        destruct ((x + y0) mod 2 =? 0) eqn:E; [reflexivity|].
        destruct ((x0 + y0) mod 2 =? 0) eqn:E0; [|reflexivity].
        unfold setcell. rewrite Z.eqb_refl. simpl.
        destruct (Z.eqb_spec x x0) as [->|Hx]; [congruence|reflexivity].
      * rewrite orb_false_r.
        destruct ((x0 + y0) mod 2 =? 0) eqn:E0.
        -- unfold setcell. rewrite Z.eqb_refl. simpl.
           destruct (Z.eqb_spec x x0) as [->|Hx]; simpl;
             [rewrite E0; reflexivity|reflexivity].
        -- destruct (Z.eqb_spec x x0) as [->|Hx]; simpl;
             [rewrite E0; reflexivity|reflexivity].
    + destruct ((x0 + y0) mod 2 =? 0); [|reflexivity].
      unfold setcell. destruct (Z.eqb_spec y y0); [contradiction|reflexivity].
Qed.

Lemma dots_rows (xs ys : list Z) :
  forall (b : data_buffer) (y x : Z),
    fold_left
      (fun screen y0 =>
         fold_left
           (fun screen x =>
              if (x + y0) mod 2 =? 0 then setcell screen y0 x dot else screen)
           xs screen)
      ys b y x =
    if member y ys && member x xs && ((x + y) mod 2 =? 0) then dot
    else b y x.
Proof.
  induction ys as [|y0 ys IH]; intros b y x.
  - reflexivity.
  - cbn [fold_left]. rewrite IH, dots_row.
    change (member y (y0 :: ys)) with ((y =? y0) || member y ys).
    destruct (member y ys); simpl.
    + rewrite orb_true_r. simpl.
      destruct (member x xs && ((x + y) mod 2 =? 0)) eqn:E; [reflexivity|].
      destruct (Z.eqb_spec y y0) as [->|Hy]; simpl; [|reflexivity].
      rewrite E. reflexivity.
    + rewrite orb_false_r.
      destruct (Z.eqb_spec y y0) as [->|Hy]; reflexivity.
Qed.

(** X27. The background is a checkerboard within its bounds and blank
    outside them: the cell at column [x], row [y] is a dot exactly when
    [0 <= x < width], [0 <= y < height] and [x + y] is even; every other
    cell is the default character, so no two neighbours in a row or in a
    column are both dots. *)
Theorem background_is_a_checkerboard (width height y x : Z) :
  create_screen width height y x =
    (if (0 <=? x) && (x <? width) && ((0 <=? y) && (y <? height))
        && ((x + y) mod 2 =? 0)
     then dot else default_char)
  /\ (create_screen width height y x = dot ->
      create_screen width height y (x + 1) = default_char
      /\ create_screen width height (y + 1) x = default_char).
Proof.
  assert (G : forall y x,
             create_screen width height y x =
             if (0 <=? x) && (x <? width) && ((0 <=? y) && (y <? height))
                && ((x + y) mod 2 =? 0)
             then dot else default_char).
  { intros y' x'. unfold create_screen. rewrite dots_rows, !member_range.
    rewrite !Z.add_0_l. unfold Screen.
    rewrite (andb_comm ((0 <=? y') && (y' <? height))). reflexivity. }
  split; [apply G|].
  rewrite !G. intros H.
  destruct ((0 <=? x) && (x <? width) && ((0 <=? y) && (y <? height))
            && ((x + y) mod 2 =? 0)) eqn:E; [|discriminate].
  apply andb_true_iff in E. destruct E as [_ E]. apply Z.eqb_eq in E.
  assert (E1 : ((x + 1 + y) mod 2 =? 0) = false).
  { apply Z.eqb_neq. replace (x + 1 + y) with (x + y + 1) by lia.
    rewrite Z.add_mod, E by lia. discriminate. }
  assert (E2 : ((x + (y + 1)) mod 2 =? 0) = false).
  { apply Z.eqb_neq. replace (x + (y + 1)) with (x + y + 1) by lia.
    rewrite Z.add_mod, E by lia. discriminate. }
  rewrite E1, E2, !andb_false_r. split; reflexivity.
Qed.

End Background.
